(** * Edge forecasting services: artifact cache and inference preparation

    A shallow embedding of the forecasting API service
    ([services/forecastingApi/app.py]), of the model updater
    ([services/model-updater/app.py]) and of the edge device registry
    ([services/edge-device-registry/app.py]), with the properties of the
    tiered model cache, the freshness check, the feature pipeline, the
    sequence windower and the forecast assembler, and further properties of
    the forecast routes, of the model updates and of the device registry.

    Conventions.
    - Python exceptions are values of [exn]; a function that may raise
      returns a [result].
    - Timestamps are [Z], microseconds since the Unix epoch (the
      resolution of [datetime]); [timedelta(hours=h)] is [hours h].
    - A pandas cell is an [option]: [None] is NaN / NaT / None.
    - A Python [str] is a [string], its UTF-8 encoding.
    - A state of Redis is the server at one instant; [Redis.elapse] is the
      passing of time, which expires keys.
    - float64 arithmetic is not modelled bit by bit: the statistics that
      numpy computes are the operations of the interface [FloatOps]. *)

From Stdlib Require Import ZArith NArith List Lia Bool QArith DecimalString.
From stdpp Require Import base option list gmap strings.

Local Open Scope string_scope.
Local Open Scope Z_scope.

(** ** Python: exceptions, indexing, ranges *)

Module Py.

Inductive exn : Type :=
| KeyError (key : string)
| IndexError
| TypeError
| AttributeError
| ValueError (msg : string)
| ClientError (key : string)
| Exception_ (msg : string).

Inductive result (A : Type) : Type :=
| Ok (a : A)
| Raise (e : exn).
Arguments Ok {A} a.
Arguments Raise {A} e.

#[global] Instance result_ret : MRet result := fun _ a => Ok a.
#[global] Instance result_bind : MBind result := fun _ _ f r =>
  match r with Ok a => f a | Raise e => Raise e end.

Definition is_ok {A} (r : result A) : bool :=
  match r with Ok _ => true | Raise _ => false end.

(** [for x in xs: body(x)] collecting the values, stopping at the first
    exception. *)
Fixpoint for_each {A B} (body : A -> result B) (xs : list A) : result (list B) :=
  match xs with
  | [] => Ok []
  | x :: xs' =>
      match body x with
      | Raise e => Raise e
      | Ok y => match for_each body xs' with
                | Raise e => Raise e
                | Ok ys => Ok (y :: ys)
                end
      end
  end.

(** [len(l)] as a Python int. *)
Definition len {A} (l : list A) : Z := Z.of_nat (length l).

(** [l[k]]: a negative index counts from the end; out of range raises. *)
Definition index {A} (l : list A) (k : Z) : result A :=
  let k' := if k <? 0 then k + len l else k in
  if k' <? 0 then Raise IndexError
  else match nth_error l (Z.to_nat k') with
       | Some x => Ok x
       | None => Raise IndexError
       end.

(** [range(m)]: empty when [m <= 0]. *)
Definition range (m : Z) : list Z := map Z.of_nat (seq 0 (Z.to_nat m)).

(** [enumerate(l)]. *)
Definition enumerate {A} (l : list A) : list (nat * A) :=
  combine (seq 0 (length l)) l.

(** Code that reads and writes a state [S] and may raise: an exception
    keeps the state reached so far. *)
Definition io (S A : Type) : Type := S -> result A * S.

#[global] Instance io_ret {S} : MRet (io S) := fun _ a s => (Ok a, s).
#[global] Instance io_bind {S} : MBind (io S) := fun _ _ f m s =>
  match m s with
  | (Ok a, s') => f a s'
  | (Raise e, s') => (Raise e, s')
  end.

Definition raise {S A} (e : exn) : io S A := fun s => (Raise e, s).
Definition gets {S A} (f : S -> A) : io S A := fun s => (Ok (f s), s).
Definition modify {S} (f : S -> S) : io S unit := fun s => (Ok tt, f s).

(** [try: m except Exception as e: handler(e)] *)
Definition try_except {S A} (m : io S A) (handler : exn -> io S A) : io S A :=
  fun s => match m s with
           | (Ok a, s') => (Ok a, s')
           | (Raise e, s') => handler e s'
           end.

(** Lifts a value of a pure computation that may raise. *)
Definition lift {S A} (r : result A) : io S A := fun s => (r, s).

(** [None] raises [e]. *)
Definition expect {A} (e : exn) (o : option A) : result A :=
  match o with Some a => Ok a | None => Raise e end.

(** [for x in xs: body(x)] for its effects. *)
Fixpoint for_ {S A} (xs : list A) (body : A -> io S unit) : io S unit :=
  match xs with
  | [] => mret tt
  | x :: xs' => body x ≫= fun _ => for_ xs' body
  end.

End Py.
Import Py.

(** ** Strings and calendar arithmetic *)

Module Text.

(** [s.endswith(suffix)]. *)
Definition endswith (s suffix : string) : bool :=
  String.prefix (String.rev suffix) (String.rev s).

(** [sub in s]. *)
Fixpoint contains (sub s : string) : bool :=
  String.prefix sub s ||
  match s with
  | EmptyString => false
  | String _ s' => contains sub s'
  end.

(** [s.replace(old, new)] for a non-empty [old]: every occurrence, left to
    right, without overlap.  [fuel] bounds the number of characters read. *)
Fixpoint replace_fuel (fuel : nat) (old new s : string) : string :=
  match fuel with
  | O => s
  | S fuel' =>
      if String.prefix old s
      then new ++ replace_fuel fuel' old new
                   (String.substring (String.length old)
                      (String.length s - String.length old) s)
      else match s with
           | EmptyString => EmptyString
           | String c s' => String c (replace_fuel fuel' old new s')
           end
  end%string%nat.

Definition replace (old new s : string) : string :=
  match old with
  | EmptyString => s
  | _ => replace_fuel (S (String.length s)) old new s
  end.

(** [str(z)] for a Python int. *)
Definition str_int (z : Z) : string :=
  DecimalString.NilZero.string_of_int (Z.to_int z).

Definition pad2 (z : Z) : string :=
  if z <? 10 then "0" ++ str_int z else str_int z.

End Text.

Module Calendar.

(** Days since 1970-01-01 to (year, month, day) in the proleptic Gregorian
    calendar. *)
Definition civil_from_days (days : Z) : Z * Z * Z :=
  let z := days + 719468 in
  let era := z / 146097 in
  let doe := z - era * 146097 in
  let yoe := (doe - doe / 1460 + doe / 36524 - doe / 146096) / 365 in
  let doy := doe - (365 * yoe + yoe / 4 - yoe / 100) in
  let mp := (5 * doy + 2) / 153 in
  let d := doy - (153 * mp + 2) / 5 + 1 in
  let m := if mp <? 10 then mp + 3 else mp - 9 in
  let y := yoe + era * 400 + (if m <=? 2 then 1 else 0) in
  (y, m, d).

(** Durations, in microseconds: [timedelta(hours=h)], [timedelta(days=d)]. *)
Definition second : Z := 1000000.
Definition hours (h : Z) : Z := h * (3600 * second).
Definition days (d : Z) : Z := d * (86400 * second).

(** [.dt.hour], [.dt.dayofweek] (Monday is 0), [.dt.month]. *)
Definition hour (t : Z) : Z := (t / hours 1) mod 24.
Definition dayofweek (t : Z) : Z := (t / days 1 + 3) mod 7.
Definition month (t : Z) : Z := snd (fst (civil_from_days (t / days 1))).

(** The timestamp of a civil date and time of day. *)
Definition days_from_civil (y m d : Z) : Z :=
  let y' := if m <=? 2 then y - 1 else y in
  let era := y' / 400 in
  let yoe := y' - era * 400 in
  let mp := if 2 <? m then m - 3 else m + 9 in
  let doy := (153 * mp + 2) / 5 + d - 1 in
  let doe := yoe * 365 + yoe / 4 - yoe / 100 + doy in
  era * 146097 + doe - 719468.

Definition datetime (y m d hh mm ss : Z) : Z :=
  days (days_from_civil y m d) + hours hh + (60 * mm + ss) * second.

(** [str(timestamp)]: [YYYY-MM-DD HH:MM:SS]. *)
Definition str_time (t : Z) : string :=
  let '(y, m, d) := civil_from_days (t / days 1) in
  Text.str_int y ++ "-" ++ Text.pad2 m ++ "-" ++ Text.pad2 d ++ " " ++
  Text.pad2 (hour t) ++ ":" ++ Text.pad2 ((t / (60 * second)) mod 60) ++ ":" ++
  Text.pad2 ((t / second) mod 60).

End Calendar.

(** ** Data frames *)

(** The float64 statistics used by the pipeline.  [F] stands for the
    float64 values other than NaN; an operation returns [None] where numpy
    returns NaN. *)
Class FloatOps (F : Type) : Type := {
  f_of_Z : Z -> F;                  (* conversion of an integer *)
  f_mean : list F -> option F;      (* mean of the valid values *)
  f_std : list F -> option F;       (* sample standard deviation, ddof = 1 *)
  f_min : list F -> option F;
  f_max : list F -> option F;
  f_div_eps : F -> F -> option F;   (* x / (m + 1e-8) *)
  f_str : F -> string               (* str(x) *)
}.

Module Pandas.

Section Frames.
Context {F : Type} `{FloatOps F}.

Inductive value : Type :=
| VNum (x : F)        (* float64 *)
| VInt (z : Z)        (* int64 *)
| VStr (s : string)   (* object: a string *)
| VTime (t : Z).      (* datetime64 *)

(** [None] is a missing cell: NaN, NaT or None. *)
Abbreviation cell := (option value).
Abbreviation column := (list cell).

(** The columns in their order, each of [nrows] cells. *)
Record frame : Type := {
  nrows : nat;
  columns : list (string * column)
}.

Definition wf_frame (df : frame) : Prop :=
  Forall (fun nc : string * column => length (snd nc) = nrows df) (columns df).

Definition wf_frameb (df : frame) : bool :=
  forallb (fun nc : string * column => (length (snd nc) =? nrows df)%nat)
          (columns df).

Definition column_names (df : frame) : list string := map fst (columns df).

(** ['name' in df.columns] *)
Definition has_col (name : string) (df : frame) : bool :=
  existsb (String.eqb name) (column_names df).

Fixpoint assoc (name : string) (cs : list (string * column)) : option column :=
  match cs with
  | [] => None
  | (n, c) :: cs' => if String.eqb name n then Some c else assoc name cs'
  end.

(** [df['name']]: [KeyError] when the column is absent. *)
Definition get_col (name : string) (df : frame) : result column :=
  match assoc name (columns df) with
  | Some c => Ok c
  | None => Raise (KeyError name)
  end.

Fixpoint assign (name : string) (c : column) (cs : list (string * column))
  : list (string * column) :=
  match cs with
  | [] => [(name, c)]
  | (n, c') :: cs' =>
      if String.eqb name n then (n, c) :: cs' else (n, c') :: assign name c cs'
  end.

(** [df['name'] = c]: replaces the column in place, or appends it. *)
Definition set_col (name : string) (c : column) (df : frame) : frame :=
  {| nrows := nrows df; columns := assign name c (columns df) |}.

(** [df['name'] = v] for a scalar [v]. *)
Definition broadcast (v : cell) (df : frame) : column := repeat v (nrows df).

(** Applies [f] to every column. *)
Definition map_columns (f : column -> column) (n : nat) (df : frame) : frame :=
  {| nrows := n; columns := map (fun nc => (fst nc, f (snd nc))) (columns df) |}.

(** *** dtypes *)

Definition is_numeric (x : cell) : bool :=
  match x with
  | None | Some (VNum _) | Some (VInt _) => true
  | _ => false
  end.

Definition is_datetime (x : cell) : bool :=
  match x with
  | None | Some (VTime _) => true
  | _ => false
  end.

Definition to_float (x : cell) : option F :=
  match x with
  | Some (VNum v) => Some v
  | Some (VInt z) => Some (f_of_Z z)
  | _ => None
  end.

(** The valid (non-missing) numbers of a column. *)
Definition valid (c : column) : list F := omap to_float c.

Definition num (o : option F) : cell := VNum <$> o.

Definition time_of (x : cell) : option Z :=
  match x with
  | Some (VTime t) => Some t
  | _ => None
  end.

(** [.astype(str)] on one cell. *)
Definition astype_str (x : cell) : string :=
  match x with
  | None => "nan"
  | Some (VNum v) => f_str v
  | Some (VInt z) => Text.str_int z
  | Some (VStr s) => s
  | Some (VTime t) => Calendar.str_time t
  end.

(** *** Row selection *)

(** [df[mask]] *)
Fixpoint select {A} (mask : list bool) (l : list A) : list A :=
  match mask, l with
  | b :: mask', x :: l' => if b then x :: select mask' l' else select mask' l'
  | _, _ => []
  end.

Definition count_true (mask : list bool) : nat := length (List.filter id mask).

Definition filter_rows (mask : list bool) (df : frame) : frame :=
  map_columns (select mask) (count_true (firstn (nrows df) mask)) df.

(** [df.iloc[a:b]] for [0 <= a]. *)
Definition iloc (a b : nat) (df : frame) : frame :=
  map_columns (fun c => firstn (b - a) (skipn a c))
              (Nat.min b (nrows df) - a)%nat df.

(** [df.tail(n)]: the last [n] rows; for a negative [n], all rows but the
    first [-n]. *)
Definition tail (n : Z) (df : frame) : frame :=
  let drop := if n <? 0 then Nat.min (Z.to_nat (- n)) (nrows df)
              else (nrows df - Z.to_nat n)%nat in
  map_columns (skipn drop) (nrows df - drop)%nat df.

(** *** Sorting *)

(** Ascending order of timestamps, NaT last. *)
Definition time_le (a b : option Z) : bool :=
  match a, b with
  | Some x, Some y => x <=? y
  | Some _, None => true
  | None, Some _ => false
  | None, None => true
  end.

Fixpoint insert_sorted (key : nat -> option Z) (i : nat) (l : list nat) : list nat :=
  match l with
  | [] => [i]
  | j :: l' => if time_le (key i) (key j) then i :: l
               else j :: insert_sorted key i l'
  end.

(** The row positions in ascending order of [keys]; ties keep their
    order. *)
Definition argsort (keys : list (option Z)) : list nat :=
  foldr (insert_sorted (fun i => nth i keys None)) [] (seq 0 (length keys)).

Definition take_rows (idx : list nat) (c : column) : column :=
  map (fun i => nth i c None) idx.

(** [df.sort_values(by)] for a datetime column [by]: [KeyError] when the
    column is absent; the model raises [TypeError] for a column that
    holds anything but timestamps, which it does not order. *)
Definition sort_values (by_ : string) (df : frame) : result frame :=
  keys ← get_col by_ df;
  if forallb is_datetime keys
  then let idx := firstn (nrows df) (argsort (map time_of keys)) in
       Ok (map_columns (take_rows idx) (nrows df) df)
  else Raise TypeError.

(** *** Column operations *)

(** [c.shift(k)] *)
Definition shift (k : nat) (c : column) : column :=
  firstn (length c) (repeat None k ++ c).

Fixpoint ffill_from (last : cell) (c : column) : column :=
  match c with
  | [] => []
  | Some v :: c' => Some v :: ffill_from (Some v) c'
  | None :: c' => last :: ffill_from last c'
  end.

(** [fillna(method='ffill')]: a missing cell takes the last valid value
    above it. *)
Definition ffill (c : column) : column := ffill_from None c.

(** [fillna(method='bfill')]: a missing cell takes the next valid value
    below it. *)
Fixpoint bfill (c : column) : column :=
  match c with
  | [] => []
  | Some v :: c' => Some v :: bfill c'
  | None :: c' => hd None (bfill c') :: bfill c'
  end.

(** [fillna(v)] *)
Definition fillna (v : value) (c : column) : column :=
  map (fun x => match x with None => Some v | Some _ => x end) c.

(** [c.mean()], [c.std()], [c.min()], [c.max()]: missing cells are
    skipped. *)
Definition mean (c : column) : cell := num (f_mean (valid c)).
Definition std (c : column) : cell := num (f_std (valid c)).
Definition min (c : column) : cell := num (f_min (valid c)).
Definition max (c : column) : cell := num (f_max (valid c)).

(** The cells of the window of [w] rows that ends at row [i]. *)
Definition rolling_window (w : nat) (c : column) (i : nat) : column :=
  firstn (S i - (S i - w)) (skipn (S i - w) c).

(** [c.rolling(window=w, min_periods=p).agg()] *)
Definition rolling (w p : nat) (agg : list F -> option F) (c : column) : column :=
  map (fun i => let vs := valid (rolling_window w c i) in
                if (p <=? length vs)%nat then num (agg vs) else None)
      (seq 0 (length c)).

(** [df.groupby(key)[c].transform('mean')]: each row receives the mean of
    [c] over the rows with the same key; a row with a missing key
    receives NaN. *)
Definition int_key (x : cell) : option Z :=
  match x with Some (VInt z) => Some z | _ => None end.

Definition same_key (k k' : cell) : bool :=
  match int_key k, int_key k' with
  | Some a, Some b => a =? b
  | _, _ => false
  end.

Definition group_mean (keys c : column) : column :=
  map (fun k => match k with
                | None => None
                | Some _ => mean (select (map (same_key k) keys) c)
                end) keys.

(** Cell by cell [a / (b + 1e-8)]. *)
Definition div_eps (a b : column) : column :=
  map (fun ab : cell * cell =>
         match to_float (fst ab), to_float (snd ab) with
         | Some x, Some m => num (f_div_eps x m)
         | _, _ => None
         end) (combine a b).

(** [np.isnan(x)] on one cell of a numeric array. *)
Definition isnan (x : cell) : bool :=
  match x with None => true | Some _ => false end.

(** [df.isna().sum().sum() == 0] *)
Definition no_missing (df : frame) : bool :=
  forallb (fun nc : string * column => negb (existsb isnan (snd nc))) (columns df).
End Frames.
Arguments value F : clear implicits.
Arguments frame F : clear implicits.
Abbreviation cell F := (option (value F)).
Abbreviation column F := (list (option (value F))).

End Pandas.
Import Pandas.

(** ** The Redis server *)

Module Redis.

(** The server as a client sees it at one instant: when it is not
    reachable every command raises; otherwise it holds, per key, the time
    that the key has left to live, in seconds, and the stored string.  A
    key whose time has run out is absent: [elapse] is the passing of
    time. *)
Record redis : Type := {
  redis_up : bool;
  redis_db : gmap string (Z * string)
}.

(** [client.get(key)] *)
Definition get (r : redis) (key : string) : result (option string) :=
  if redis_up r then Ok (snd <$> redis_db r !! key)
  else Raise (Exception_ "ConnectionError").

(** [client.setex(key, ttl, value)] *)
Definition setex (r : redis) (key : string) (ttl : Z) (v : string) : result redis :=
  if redis_up r
  then Ok {| redis_up := true; redis_db := <[key := (ttl, v)]> (redis_db r) |}
  else Raise (Exception_ "ConnectionError").

(** The server [seconds] later, no command having reached it in between:
    a key that had at most [seconds] to live is gone, and the others have
    that much less to live. *)
Definition elapse (seconds : Z) (r : redis) : redis :=
  {| redis_up := redis_up r;
     redis_db := omap (fun entry : Z * string =>
                         if seconds <? fst entry
                         then Some (fst entry - seconds, snd entry)
                         else None) (redis_db r) |}.

End Redis.
Import Redis.

(** ** Forecasting API service *)

Module ForecastingApi.

(** *** Configuration and external stores *)

(** [get_cache_key]: [f"edge:{prefix}:{customer_id}:{suffix}"]. *)
Definition get_cache_key (prefix customer_id suffix : string) : string :=
  "edge:" ++ prefix ++ ":" ++ customer_id ++ ":" ++ suffix.

Definition MODEL_CACHE_TTL : Z := 3600.
Definition DATA_CACHE_TTL : Z := 1800.

(** The object store: the keys of the input bucket in listing order, and the
    output bucket. *)
Record s3_client : Type := {
  input_bucket : list (string * string);
  output_bucket : gmap string string
}.

(** The registry document [latest_model.json]. *)
Record registry : Type := {
  model_path : option string;
  encoders_path : option string;
  config_path : option string
}.

(** One operation on a store, for the log of the storage operations that a
    call performs. *)
Inductive access : Type :=
| RedisGet (key : string)
| RedisSetex (key : string)
| MemoryLookup (customer_id : string)
| MemoryStore (customer_id : string)
| S3List (prefix : string)
| S3GetObject (key : string)
| S3Download (key path : string)
| FileRemove (path : string).

Definition access_eq_dec (a b : access) : {a = b} + {a <> b}.
Proof. repeat decide equality. Defined.

Definition is_cold_read (a : access) : bool :=
  match a with
  | S3List _ | S3GetObject _ | S3Download _ _ => true
  | _ => false
  end.

Definition not_cold (a : access) : bool := negb (is_cold_read a).

(** The functions of the libraries that decode and encode stored bytes;
    [None] stands for the exception that the library raises. *)
Class Codecs (F Model Encoders Config : Type) `{FloatOps F} : Type := {
  json_loads_registry : string -> option registry;
  keras_load_model : string -> option Model;
  joblib_load : string -> option Encoders;
  json_loads_config : string -> option Config;
  (* json.dumps({'model': .., 'encoders': .., 'config': ..}, default=str) *)
  json_dumps_bundle : Model -> Encoders -> option Config -> option string;
  (* data = json.loads(s); (data['model'], data['encoders'], data.get('config')) *)
  json_loads_bundle : string -> option (Model * Encoders * option Config);
  read_csv : string -> option (frame F);
  read_json : string -> option (frame F);
  to_json : frame F -> option string;
  (* pd.to_datetime on one scalar *)
  datetime_of_value : value F -> option Z
}.

Section Stores.
Context {F Model Encoders Config : Type} `{Codecs F Model Encoders Config}.
(** [Config.OUTPUT_BUCKET], the name of the output bucket; the input bucket
    is [Config.INPUT_BUCKET]. *)
Variable OUTPUT_BUCKET : string.

(** The module-level state of the service, the local files under [/tmp],
    the clock, and the log of storage operations (oldest first). *)
Record world : Type := {
  redis_client : option redis;
  s3 : option s3_client;
  model_cache : gmap string Model;
  encoders_cache : gmap string Encoders;
  config_cache : gmap string (option Config);
  files : gmap string string;
  now : Z;
  accesses : list access
}.

(** The world with further entries in its log. *)
Definition logged (l : list access) (w : world) : world :=
{| redis_client := redis_client w; s3 := s3 w;
   model_cache := model_cache w;
   encoders_cache := encoders_cache w;
   config_cache := config_cache w;
   files := files w; now := now w;
   accesses := accesses w ++ l |}.

Definition record (a : access) : io world unit := modify (logged [a]).

(** The stores other than the local files are the same in both worlds. *)
Definition same_caches (w w' : world) : Prop :=
  redis_client w' = redis_client w /\ s3 w' = s3 w
  /\ model_cache w' = model_cache w /\ encoders_cache w' = encoders_cache w
  /\ config_cache w' = config_cache w.

Definition set_redis (r : redis) (w : world) : world :=
  {| redis_client := Some r; s3 := s3 w; model_cache := model_cache w;
     encoders_cache := encoders_cache w; config_cache := config_cache w;
     files := files w; now := now w; accesses := accesses w |}.

Definition set_files (fs : gmap string string) (w : world) : world :=
  {| redis_client := redis_client w; s3 := s3 w; model_cache := model_cache w;
     encoders_cache := encoders_cache w; config_cache := config_cache w;
     files := fs; now := now w; accesses := accesses w |}.

Definition set_caches (m : gmap string Model) (e : gmap string Encoders)
    (c : gmap string (option Config)) (w : world) : world :=
  {| redis_client := redis_client w; s3 := s3 w; model_cache := m;
     encoders_cache := e; config_cache := c;
     files := files w; now := now w; accesses := accesses w |}.

(** [redis_client.get(key)] *)
Definition redis_get (r : redis) (key : string) : io world (option string) :=
  record (RedisGet key) ≫= fun _ => lift (Redis.get r key).

(** [redis_client.setex(key, ttl, value)] *)
Definition redis_setex (r : redis) (key : string) (ttl : Z) (v : string)
  : io world unit :=
  record (RedisSetex key) ≫= fun _ =>
  r' ← lift (Redis.setex r key ttl v);
  modify (set_redis r').

(** [s3.get_object(Bucket=OUTPUT_BUCKET, Key=key)['Body'].read()] *)
Definition s3_get_output (c : s3_client) (key : string) : io world string :=
  record (S3GetObject key) ≫= fun _ =>
  lift (expect (ClientError key) (output_bucket c !! key)).

(** [s3.download_file(OUTPUT_BUCKET, key, path)]: the file is written
    only when the download succeeds. *)
Definition s3_download_file (c : s3_client) (key path : string) : io world unit :=
  record (S3Download key path) ≫= fun _ =>
  body ← lift (expect (ClientError key) (output_bucket c !! key));
  modify (fun w => set_files (<[path := body]> (files w)) w).

(** Reading a local file with a library loader. *)
Definition load_file {A} (loader : string -> option A) (path : string) : io world A :=
  fs ← gets files;
  body ← lift (expect (Exception_ "FileNotFoundError") (fs !! path));
  lift (expect (Exception_ "load error") (loader body)).

(** [if os.path.exists(path): os.remove(path)] *)
Definition remove_if_exists (path : string) : io world unit :=
  fs ← gets files;
  match fs !! path with
  | Some _ => record (FileRemove path) ≫= fun _ =>
              modify (fun w => set_files (delete path (files w)) w)
  | None => mret tt
  end.

(** [path.replace(f's3://{Config.OUTPUT_BUCKET}/', '')] *)
Definition strip_bucket (path : string) : string :=
  Text.replace ("s3://" ++ OUTPUT_BUCKET ++ "/") "" path.

(** *** [load_customer_model] *)

Definition bundle : Type := Model * Encoders * option Config.

(** Lines 99-108: the Redis cache, tried first.  [Some] is a hit; an
    exception is logged and counts as a miss. *)
Definition load_from_redis (cache_key : string) : io world (option bundle) :=
  client ← gets redis_client;
  match client with
  | None => mret None
  | Some r =>
      try_except
        (cached_data ← redis_get r cache_key;
         match cached_data with
         | None | Some "" => mret None
         | Some s =>
             data ← lift (expect (Exception_ "JSONDecodeError")
                                 (json_loads_bundle s));
             mret (Some data)
         end)
        (fun _ => mret None)
  end.

(** Lines 110-113: the memory cache, the fallback. *)
Definition load_from_memory (customer_id : string) : io world (option bundle) :=
  record (MemoryLookup customer_id) ≫= fun _ =>
  models ← gets model_cache;
  match models !! customer_id with
  | None => mret None
  | Some model =>
      encs ← gets encoders_cache;
      enc ← lift (expect (KeyError customer_id) (encs !! customer_id));
      configs ← gets config_cache;
      mret (Some (model, enc, mjoin (configs !! customer_id)))
  end.

Definition local_model_path (customer_id : string) : string :=
  "/tmp/model_" ++ customer_id ++ ".h5".
Definition local_encoders_path (customer_id : string) : string :=
  "/tmp/encoders_" ++ customer_id ++ ".pkl".

(** Lines 121-167: the bundle is read from S3, through two temporary
    files, and written to the memory cache and to Redis. *)
Definition load_bundle (c : s3_client) (customer_id cache_key : string)
  : io world bundle :=
  let registry_key := "customer_tailored/" ++ customer_id ++ "/latest_model.json" in
  registry_obj ← s3_get_output c registry_key;
  reg ← lift (expect (Exception_ "JSONDecodeError")
                     (json_loads_registry registry_obj));
  (* Download model *)
  registry_model_path ← lift (expect (KeyError "model_path") (model_path reg));
  let model_key := strip_bucket registry_model_path in
  _ ← s3_download_file c model_key (local_model_path customer_id);
  model ← load_file keras_load_model (local_model_path customer_id);
  (* Download encoders *)
  registry_encoders_path ← lift (expect (KeyError "encoders_path")
                                        (encoders_path reg));
  let encoders_key := strip_bucket registry_encoders_path in
  _ ← s3_download_file c encoders_key (local_encoders_path customer_id);
  encs ← load_file joblib_load (local_encoders_path customer_id);
  (* Load config if available *)
  config ← match config_path reg with
           | None => mret None
           | Some p =>
               config_obj ← s3_get_output c (strip_bucket p);
               cfg ← lift (expect (Exception_ "JSONDecodeError")
                                  (json_loads_config config_obj));
               mret (Some cfg)
           end;
  (* Cache in memory *)
  _ ← record (MemoryStore customer_id);
  _ ← modify (fun w => set_caches (<[customer_id := model]> (model_cache w))
                                  (<[customer_id := encs]> (encoders_cache w))
                                  (<[customer_id := config]> (config_cache w)) w);
  (* Cache in Redis *)
  client ← gets redis_client;
  _ ← match client with
      | None => mret tt
      | Some r =>
          try_except
            (cache_data ← lift (expect TypeError
                                       (json_dumps_bundle model encs config));
             redis_setex r cache_key MODEL_CACHE_TTL cache_data)
            (fun _ => mret tt)
      end;
  mret (model, encs, config).

(** Lines 169-172: [for temp_file in [local_model_path, local_encoders_path]:
    if os.path.exists(temp_file): os.remove(temp_file)]. *)
Definition clean_up_temp_files (customer_id : string) : io world unit :=
  for_ [local_model_path customer_id; local_encoders_path customer_id]
       remove_if_exists.

(** Lines 120-174: the body of the [try] that loads from S3. *)
Definition load_from_s3 (c : s3_client) (customer_id cache_key : string)
  : io world bundle :=
  data ← load_bundle c customer_id cache_key;
  _ ← clean_up_temp_files customer_id;
  mret data.

(** Lines 115-178: reached when both caches miss. *)
Definition load_cold (customer_id cache_key : string) : io world bundle :=
  client ← gets s3;
  match client with
  | None => raise (Exception_ "AWS S3 client not available")
  | Some c =>
      try_except (load_from_s3 c customer_id cache_key)
                 (fun e => raise e)
  end.

(** Lines 97-113: the two caches, Redis first and the memory cache as
    its fallback.  [None] when both miss. *)
Definition lookup_caches (customer_id : string) : io world (option bundle) :=
  let cache_key := get_cache_key "model" customer_id "" in
  from_redis ← load_from_redis cache_key;
  match from_redis with
  | Some data => mret (Some data)
  | None => load_from_memory customer_id
  end.

Definition load_customer_model (customer_id : string) : io world bundle :=
  let cache_key := get_cache_key "model" customer_id "" in
  cached ← lookup_caches customer_id;
  match cached with
  | Some data => mret data
  | None => load_cold customer_id cache_key
  end.

(** What the two caches answer, and what the lookups log, as functions of
    the stores. *)
Definition redis_hit (cache_key : string) (w : world) : option bundle :=
  match redis_client w with
  | None => None
  | Some r =>
      match Redis.get r cache_key with
      | Ok (Some "") | Ok None | Raise _ => None
      | Ok (Some s) => json_loads_bundle s
      end
  end.

Definition redis_log (cache_key : string) (w : world) : list access :=
  match redis_client w with
  | None => []
  | Some _ => [RedisGet cache_key]
  end.

Definition memory_hit (customer_id : string) (w : world) : result (option bundle) :=
  match model_cache w !! customer_id with
  | None => Ok None
  | Some model =>
      match encoders_cache w !! customer_id with
      | None => Raise (KeyError customer_id)
      | Some enc => Ok (Some (model, enc, mjoin (config_cache w !! customer_id)))
      end
  end.

(** Step 1 of [generate_forecast] (lines 466-475). *)
Definition cached_model (customer_id : string) : io world bundle :=
  models ← gets model_cache;
  match models !! customer_id with
  | None =>
      b ← load_customer_model customer_id;
      let '(model, encs, config) := b in
      _ ← modify (fun w => set_caches (<[customer_id := model]> (model_cache w))
                                      (<[customer_id := encs]> (encoders_cache w))
                                      (<[customer_id := config]> (config_cache w)) w);
      mret b
  | Some model =>
      encs ← gets encoders_cache;
      enc ← lift (expect (KeyError customer_id) (encs !! customer_id));
      configs ← gets config_cache;
      mret (model, enc, mjoin (configs !! customer_id))
  end.

(** *** [get_recent_customer_data] *)

(** [s3.list_objects_v2(Bucket=INPUT_BUCKET, Prefix=prefix)]: the keys of
    the first page (at most 1000); the response has no ['Contents'] when
    there is none. *)
Definition s3_list_input (c : s3_client) (prefix : string) : io world (list string) :=
  record (S3List prefix) ≫= fun _ =>
  mret (firstn 1000 (List.filter (String.prefix prefix) (map fst (input_bucket c)))).

Fixpoint assoc_blob (key : string) (objs : list (string * string)) : option string :=
  match objs with
  | [] => None
  | (k, v) :: objs' => if String.eqb key k then Some v else assoc_blob key objs'
  end.

Definition s3_get_input (c : s3_client) (key : string) : io world string :=
  record (S3GetObject key) ≫= fun _ =>
  lift (expect (ClientError key) (assoc_blob key (input_bucket c))).

(** [pd.to_datetime(c)] *)
Definition to_datetime (c : column F) : result (column F) :=
  for_each (fun x => match x with
                     | None => Ok None
                     | Some v => match datetime_of_value v with
                                 | Some t => Ok (Some (VTime t))
                                 | None => Raise (ValueError "Unknown datetime string format")
                                 end
                     end) c.

(** [df['timestamp'] >= cutoff_time]: false on NaT. *)
Definition at_or_after (cutoff_time : Z) (ts : column F) : list bool :=
  map (fun x => match time_of x with
                | Some t => cutoff_time <=? t
                | None => false
                end) ts.

(** Lines 228-237: the rows of the recent window, or the last [hours]
    records when the window holds none. *)
Definition recent_rows (df : frame F) (current_time hours : Z) : result (frame F) :=
  df ← sort_values "timestamp" df;
  let cutoff_time := current_time - Calendar.hours hours in
  ts ← get_col "timestamp" df;
  let recent_df := filter_rows (at_or_after cutoff_time ts) df in
  Ok (if (nrows recent_df =? 0)%nat then tail hours df else recent_df).

(** The first listed key that ends with [total_load.csv] and contains
    [/<customer_id>/]. *)
Definition find_customer_file (customer_id : string) (keys : list string)
  : option string :=
  List.find (fun key => Text.endswith key "total_load.csv"
                        && Text.contains ("/" ++ customer_id ++ "/") key) keys.

(** Lines 202-226: the series of the customer, read from S3 and parsed,
    with its timestamps converted. *)
Definition read_series (c : s3_client) (customer_id : string) : io world (frame F) :=
  contents ← s3_list_input c "total/";
  match contents with
  | [] => raise (ValueError ("No data found for customer " ++ customer_id))
  | _ =>
      match find_customer_file customer_id contents with
      | None => raise (ValueError ("No total_load.csv found for customer "
                                   ++ customer_id))
      | Some customer_file =>
          body ← s3_get_input c customer_file;
          df ← lift (expect (Exception_ "ParserError") (read_csv body));
          ts ← lift (get_col "timestamp" df);
          ts ← lift (to_datetime ts);
          mret (set_col "timestamp" ts df)
      end
  end.

(** Lines 242-248: the write to Redis, whose failure is logged and
    swallowed. *)
Definition cache_recent (cache_key : string) (recent_df : frame F) : io world unit :=
  client ← gets redis_client;
  match client with
  | None => mret tt
  | Some r =>
      try_except
        (js ← lift (expect TypeError (to_json recent_df));
         redis_setex r cache_key DATA_CACHE_TTL js)
        (fun _ => mret tt)
  end.

(** Lines 201-250: the body of the [try] that reads from S3. *)
Definition fetch_recent (c : s3_client) (customer_id cache_key : string) (hours : Z)
  : io world (frame F) :=
  df ← read_series c customer_id;
  current_time ← gets now;
  recent_df ← lift (recent_rows df current_time hours);
  (* the logged date range reads recent_df['timestamp'] *)
  _ ← lift (get_col "timestamp" recent_df);
  _ ← cache_recent cache_key recent_df;
  mret recent_df.

(** Lines 186-194: the Redis cache, tried first. *)
Definition recent_from_redis (cache_key : string) : io world (option (frame F)) :=
client ← gets redis_client;
match client with
| None => mret None
| Some r =>
    try_except
      (cached_data ← redis_get r cache_key;
       match cached_data with
       | None | Some "" => mret None
       | Some js =>
           df ← lift (expect (ValueError "Expected object or value")
                             (read_json js));
           mret (Some df)
       end)
      (fun _ => mret None)
end.

Definition get_recent_customer_data (customer_id : string) (hours : Z)
: io world (frame F) :=
let cache_key := get_cache_key "data" customer_id
                               ("recent_" ++ Text.str_int hours ++ "h") in
from_redis ← recent_from_redis cache_key;
match from_redis with
| Some df => mret df
| None =>
    client ← gets s3;
    match client with
    | None => raise (Exception_ "AWS S3 client not available")
    | Some c => try_except (fetch_recent c customer_id cache_key hours)
                           (fun e => raise e)
    end
end.

(** *** Concurrent calls of [load_customer_model]

    The service runs with [threaded=True] and [load_customer_model]
    takes no lock.  A thread can be preempted between any two accesses to
    what the threads share: Redis, the three dictionaries of the memory
    cache, S3 and the files under [/tmp].  A thread is the place that a
    call has reached in lines 99-174, with the local variables that are
    still read; one step of a thread runs to its next access, included.
    ([s3.download_file] writes a temporary file of its own and renames it,
    and a file is read through the descriptor that [open] returns: a
    download and a load are one step each.) *)
Inductive thread : Type :=
| Entered                         (* line 99: the call has started *)
| AtMemoryCache                   (* line 111: Redis has missed *)
| InMemoryCache                   (* line 113: model_cache[customer_id] *)
| HaveModel (model : Model)       (* line 113: encoders_cache[customer_id] *)
| HaveEncoders (model : Model) (encs : Encoders)
                                  (* line 113: config_cache.get(customer_id) *)
| Missed                          (* line 117: both caches have missed *)
| AtRegistry (c : s3_client)      (* line 123 *)
| AtModelDownload (c : s3_client) (reg : registry) (model_key : string)
                                  (* line 131 *)
| AtModelLoad (c : s3_client) (reg : registry)
                                  (* line 132 *)
| AtEncodersDownload (c : s3_client) (reg : registry) (model : Model)
                     (encoders_key : string)
                                  (* line 139 *)
| AtEncodersLoad (c : s3_client) (reg : registry) (model : Model)
                                  (* line 140 *)
| AtConfig (c : s3_client) (reg : registry) (model : Model) (encs : Encoders)
                                  (* lines 145-149 *)
| AtStoreModel (data : bundle)    (* line 152 *)
| AtStoreEncoders (data : bundle) (* line 153 *)
| AtStoreConfig (data : bundle)   (* line 154 *)
| AtRedisWrite (data : bundle)    (* lines 157-167 *)
| AtExists (temp_file : string) (rest : list string) (data : bundle)
                                  (* line 171 *)
| AtRemove (temp_file : string) (rest : list string) (data : bundle)
                                  (* line 172 *)
| Returned (r : result bundle).   (* the call has returned or raised *)

(** The state of a thread after the action [act]: an exception leaves the
    [try] of lines 120-178, which raises it again. *)
Definition after {X} (act : io world X) (next : X -> thread) (w : world)
  : thread * world :=
  match act w with
  | (Ok x, w') => (next x, w')
  | (Raise e, w') => (Returned (Raise e), w')
  end.

(** The loop of lines 170-172, at its next file. *)
Definition next_temp_file (rest : list string) (data : bundle) : thread :=
  match rest with
  | [] => Returned (Ok data)
  | temp_file :: rest' => AtExists temp_file rest' data
  end.

(** One step of a thread of [load_customer_model(customer_id)]. *)
Definition advance (customer_id : string) (t : thread) : world -> thread * world :=
  let cache_key := get_cache_key "model" customer_id "" in
  match t with
  | Entered =>
      after (load_from_redis cache_key)
            (fun hit => match hit with
                        | Some data => Returned (Ok data)
                        | None => AtMemoryCache
                        end)
  | AtMemoryCache =>
      after (record (MemoryLookup customer_id) ≫= fun _ => gets model_cache)
            (fun models => match models !! customer_id with
                           | Some _ => InMemoryCache
                           | None => Missed
                           end)
  | InMemoryCache =>
      after (models ← gets model_cache;
             lift (expect (KeyError customer_id) (models !! customer_id)))
            HaveModel
  | HaveModel model =>
      after (encs ← gets encoders_cache;
             lift (expect (KeyError customer_id) (encs !! customer_id)))
            (HaveEncoders model)
  | HaveEncoders model enc =>
      after (gets config_cache)
            (fun configs => Returned (Ok (model, enc, mjoin (configs !! customer_id))))
  | Missed =>
      after (gets s3)
            (fun client =>
               match client with
               | None => Returned (Raise (Exception_ "AWS S3 client not available"))
               | Some c => AtRegistry c
               end)
  | AtRegistry c =>
      after (registry_obj ← s3_get_output c ("customer_tailored/" ++ customer_id
                                             ++ "/latest_model.json");
             reg ← lift (expect (Exception_ "JSONDecodeError")
                                (json_loads_registry registry_obj));
             registry_model_path ← lift (expect (KeyError "model_path") (model_path reg));
             mret (reg, strip_bucket registry_model_path))
            (fun '(reg, model_key) => AtModelDownload c reg model_key)
  | AtModelDownload c reg model_key =>
      after (s3_download_file c model_key (local_model_path customer_id))
            (fun _ => AtModelLoad c reg)
  | AtModelLoad c reg =>
      after (model ← load_file keras_load_model (local_model_path customer_id);
             registry_encoders_path ← lift (expect (KeyError "encoders_path")
                                                   (encoders_path reg));
             mret (model, strip_bucket registry_encoders_path))
            (fun '(model, encoders_key) => AtEncodersDownload c reg model encoders_key)
  | AtEncodersDownload c reg model encoders_key =>
      after (s3_download_file c encoders_key (local_encoders_path customer_id))
            (fun _ => AtEncodersLoad c reg model)
  | AtEncodersLoad c reg model =>
      after (load_file joblib_load (local_encoders_path customer_id))
            (AtConfig c reg model)
  | AtConfig c reg model encs =>
      after (match config_path reg with
             | None => mret None
             | Some p =>
                 config_obj ← s3_get_output c (strip_bucket p);
                 cfg ← lift (expect (Exception_ "JSONDecodeError")
                                    (json_loads_config config_obj));
                 mret (Some cfg)
             end)
            (fun config => AtStoreModel (model, encs, config))
  | AtStoreModel (model, encs, config) =>
      after (record (MemoryStore customer_id) ≫= fun _ =>
             modify (fun w => set_caches (<[customer_id := model]> (model_cache w))
                                         (encoders_cache w) (config_cache w) w))
            (fun _ => AtStoreEncoders (model, encs, config))
  | AtStoreEncoders (model, encs, config) =>
      after (modify (fun w => set_caches (model_cache w)
                                         (<[customer_id := encs]> (encoders_cache w))
                                         (config_cache w) w))
            (fun _ => AtStoreConfig (model, encs, config))
  | AtStoreConfig (model, encs, config) =>
      after (modify (fun w => set_caches (model_cache w) (encoders_cache w)
                                         (<[customer_id := config]> (config_cache w)) w))
            (fun _ => AtRedisWrite (model, encs, config))
  | AtRedisWrite (model, encs, config) =>
      after (client ← gets redis_client;
             match client with
             | None => mret tt
             | Some r =>
                 try_except
                   (cache_data ← lift (expect TypeError
                                              (json_dumps_bundle model encs config));
                    redis_setex r cache_key MODEL_CACHE_TTL cache_data)
                   (fun _ => mret tt)
             end)
            (fun _ => next_temp_file [local_model_path customer_id;
                                      local_encoders_path customer_id]
                                     (model, encs, config))
  | AtExists temp_file rest data =>
      after (gets files)
            (fun fs => match fs !! temp_file with
                       | Some _ => AtRemove temp_file rest data
                       | None => next_temp_file rest data
                       end)
  | AtRemove temp_file rest data =>
      after (record (FileRemove temp_file) ≫= fun _ =>
             fs ← gets files;
             match fs !! temp_file with
             | Some _ => modify (fun w => set_files (delete temp_file (files w)) w)
             | None => raise (Exception_ "FileNotFoundError")
             end)
            (fun _ => next_temp_file rest data)
  | Returned r => fun w => (Returned r, w)
  end.

(** The thread scheduled [steps] times in a row. *)
Fixpoint alone (steps : nat) (customer_id : string) (t : thread) (w : world)
  : thread * world :=
  match steps with
  | O => (t, w)
  | S steps' => let (t', w') := advance customer_id t w in
                alone steps' customer_id t' w'
  end.

(** The threads of the service and what they share. *)
Record system : Type := {
  shared : world;
  threads : list thread
}.

(** Thread [i] runs to its next access. *)
Definition step (customer_id : string) (sys : system) (i : nat) : system :=
  match threads sys !! i with
  | Some t =>
      let (t', w) := advance customer_id t (shared sys) in
      {| shared := w; threads := <[i := t']> (threads sys) |}
  | None => sys
  end.

Definition run (customer_id : string) (schedule : list nat) (sys : system) : system :=
  foldl (step customer_id) sys schedule.

(** [n] simultaneous calls. *)
Definition spawn (n : nat) (w : world) : system :=
  {| shared := w; threads := repeat Entered n |}.

Definition is_returned (t : thread) : bool :=
  match t with Returned _ => true | _ => false end.

Definition all_returned (sys : system) : bool := forallb is_returned (threads sys).

(** The reads of the registry document of the customer that S3 was asked
    for. *)
Definition registry_reads (customer_id : string) (w : world) : nat :=
  count_occ access_eq_dec (accesses w)
            (S3GetObject ("customer_tailored/" ++ customer_id ++ "/latest_model.json")).

(** The thread is past line 123: a thread that has missed the caches has
    then asked S3 for the registry document. *)
Definition has_read_registry (t : thread) : bool :=
  match t with
  | Entered | AtMemoryCache | InMemoryCache | HaveModel _ | HaveEncoders _ _
  | Missed | AtRegistry _ => false
  | _ => true
  end.

(** The thread is past the cache lookups (lines 99-113): at line 117, in
    the load from S3, or returned. *)
Definition has_missed (t : thread) : bool :=
  match t with
  | Entered | AtMemoryCache | InMemoryCache | HaveModel _ | HaveEncoders _ _ => false
  | _ => true
  end.

(** The number of threads that are past line 123. *)
Definition readers (ts : list thread) : nat :=
  length (List.filter has_read_registry ts).

(** What a step leaves of the world: the S3 client, and the log, which
    only grows. *)
Definition grows (w w' : world) : Prop :=
  s3 w' = s3 w /\ exists l, accesses w' = (accesses w ++ l)%list.

(** Threads that have all missed, in a service with the S3 client [c]:
    S3 has been asked for the registry document at least [base] times
    beside once for every thread that has passed line 123. *)
Definition missed_inv (customer_id : string) (c : s3_client) (base : nat)
    (sys : system) : Prop :=
  s3 (shared sys) = Some c
  /\ forallb has_missed (threads sys) = true
  /\ (base + readers (threads sys) <= registry_reads customer_id (shared sys))%nat.

End Stores.
Arguments world : clear implicits.
Arguments bundle : clear implicits.
Arguments thread : clear implicits.
Arguments system : clear implicits.

(** *** Step 7 of [generate_forecast]: formatting the forecasts *)

Section Assembler.
(** [V] is the type of one predicted scalar ([float(pred[j])]). *)
Context {V : Type}.

(** One element of the [forecasts] list: the keys ['timestamp'],
    ['hour_ahead'] and one ['<target>_forecast'] per filled target. *)
Record forecast_entry : Type := {
  fe_timestamp : Z;
  fe_hour_ahead : Z;
  fe_targets : list (string * V)
}.

(** [for j, target in enumerate(available_targets):
       if j < pred.shape[0]: entry[f'{target}_forecast'] = float(pred[j])] *)
Definition target_forecasts (available_targets : list string) (pred : list V)
  : list (string * V) :=
  flat_map (fun jt : nat * string =>
              let (j, target) := jt in
              match nth_error pred j with
              | Some p => [(target ++ "_forecast", p)]
              | None => []
              end)
           (enumerate available_targets).

(** The body of [for i in range(min(forecast_hours, len(predictions)))]. *)
Definition forecast_body (predictions : list (list V)) (latest_prediction : list V)
    (last_timestamp : Z) (available_targets : list string) (i : Z)
  : result forecast_entry :=
  pred ← (if i <? len predictions
          then index predictions (- (len predictions - i))
          else Ok latest_prediction);
  let forecast_time := last_timestamp + Calendar.hours (i + 1) in
  Ok {| fe_timestamp := forecast_time;
        fe_hour_ahead := i + 1;
        fe_targets := target_forecasts available_targets pred |}.

(** The entry that the loop builds at position [i] (0-based): the
    prediction at the same position, counted from the oldest window. *)
Definition entry_at (predictions : list (list V)) (last_timestamp : Z)
    (available_targets : list string) (i : nat) : forecast_entry :=
  {| fe_timestamp := last_timestamp + Calendar.hours (Z.of_nat i + 1);
     fe_hour_ahead := Z.of_nat i + 1;
     fe_targets := target_forecasts available_targets (nth i predictions []) |}.

(** Lines 509-532 of [generate_forecast]. *)
Definition assemble_forecasts (predictions : list (list V)) (last_timestamp : Z)
    (forecast_hours : Z) (available_targets : list string)
  : result (list forecast_entry) :=
  latest_prediction ← index predictions (-1);
  for_each (forecast_body predictions latest_prediction last_timestamp available_targets)
           (range (Z.min forecast_hours (len predictions))).
End Assembler.
Arguments forecast_entry : clear implicits.

(** *** scikit-learn label encoders *)

(** A fitted [LabelEncoder] is its [classes_]; the [encoders] dictionary of
    a bundle maps an encoder name to it. *)
Abbreviation label_encoder := (list string) (only parsing).
Abbreviation encoders := (gmap string label_encoder).

Fixpoint index_of (label : string) (classes : list string) : option nat :=
  match classes with
  | [] => None
  | c :: classes' =>
      if String.eqb label c then Some O else S <$> index_of label classes'
  end.

Section FeaturePipeline.
Context {F : Type} `{FloatOps F}.

(** [encoder.transform(labels)]: [ValueError] on a label that was not
    seen when the encoder was fitted. *)
Definition transform (enc : label_encoder) (labels : list string)
  : result (column F) :=
  for_each (fun l => match index_of l enc with
                     | Some i => Ok (Some (VInt (Z.of_nat i)))
                     | None => Raise (ValueError "y contains previously unseen labels")
                     end) labels.

(** [encoders[enc_name].transform(df[col_name].astype(str))] *)
Definition encode (encs : encoders) (enc_name col_name : string) (df : frame F)
  : result (column F) :=
  enc ← match encs !! enc_name with
        | Some e => Ok e
        | None => Raise (KeyError enc_name)
        end;
  c ← get_col col_name df;
  transform enc (map astype_str c).

(** [try: df[out] = encode(...) except Exception: df[out] = 0] *)
Definition encode_or_default (encs : encoders) (enc_name col_name out : string)
    (df : frame F) : frame F :=
  match encode encs enc_name col_name df with
  | Ok c => set_col out c df
  | Raise _ => set_col out (broadcast (Some (VInt 0)) df) df
  end.

(** Lines 265-267: the metadata column. *)
Definition add_customer_id (customer_id : string) (df : frame F) : frame F :=
  if has_col "customer_id" df then df
  else set_col "customer_id" (broadcast (Some (VStr customer_id)) df) df.

(** Lines 269-291: categorical encoding with the pre-fitted encoders. *)
Definition encode_categoricals (encs : encoders) (df : frame F) : frame F :=
  let df := encode_or_default encs "customer_encoder" "customer_id"
                              "customer_encoded" df in
  let df := if has_col "manufacturer" df
            then encode_or_default encs "manufacturer_encoder" "manufacturer"
                                   "manufacturer_encoded" df
            else set_col "manufacturer_encoded" (broadcast (Some (VInt 0)) df) df in
  if has_col "region" df
  then encode_or_default encs "region_encoder" "region" "region_encoded" df
  else set_col "region_encoded" (broadcast (Some (VInt 0)) df) df.

(** The names of the three encoded columns. *)
Definition encoded_name (name : string) : bool :=
  String.eqb name "customer_encoded" || String.eqb name "manufacturer_encoded"
  || String.eqb name "region_encoded".

(** [df['timestamp'].dt.<field>] *)
Definition dt_field (field : Z -> Z) (ts : column F) : column F :=
  map (fun x => (fun t => VInt (field t)) <$> time_of x) ts.

(** [(c >= k).astype(int)]: a comparison with NaN is false. *)
Definition ge_as_int (k : Z) (c : column F) : column F :=
  map (fun x => match x with
                | Some (VInt z) => Some (VInt (if k <=? z then 1 else 0))
                | _ => Some (VInt 0)
                end) c.

(** Lines 293-297: the time-based features.  [df['timestamp']] raises
    [KeyError] when the column is absent and [.dt] raises
    [AttributeError] on a column that is not datetime-like. *)
Definition add_time_features (df : frame F) : result (frame F) :=
  ts ← get_col "timestamp" df;
  if negb (forallb is_datetime ts) then Raise AttributeError
  else
    let df := set_col "hour" (dt_field Calendar.hour ts) df in
    let df := set_col "day_of_week" (dt_field Calendar.dayofweek ts) df in
    let df := set_col "month" (dt_field Calendar.month ts) df in
    Ok (set_col "is_weekend" (ge_as_int 5 (dt_field Calendar.dayofweek ts)) df).

(** Lines 299-316: the statistics of the primary metric [kwh], frame-level
    constants broadcast to every row; the manufacturer columns copy the
    customer columns. *)
Definition with_statistics (df : frame F) (kwh hour : column F) : frame F :=
  let customer_kwh_mean := broadcast (mean kwh) df in
  let customer_kwh_std := broadcast (std kwh) df in
  let customer_kwh_min := broadcast (min kwh) df in
  let customer_kwh_max := broadcast (max kwh) df in
  let df := set_col "customer_kwh_mean" customer_kwh_mean df in
  let df := set_col "customer_kwh_std" customer_kwh_std df in
  let df := set_col "customer_kwh_min" customer_kwh_min df in
  let df := set_col "customer_kwh_max" customer_kwh_max df in
  let df := set_col "mfg_kwh_mean" customer_kwh_mean df in
  let df := set_col "mfg_kwh_std" customer_kwh_std df in
  let df := set_col "mfg_kwh_min" customer_kwh_min df in
  let df := set_col "mfg_kwh_max" customer_kwh_max df in
  let df := set_col "regional_hourly_kwh_mean" (group_mean hour kwh) df in
  let df := set_col "kwh_vs_customer_mean" (div_eps kwh customer_kwh_mean) df in
  set_col "kwh_vs_mfg_mean" (div_eps kwh customer_kwh_mean) df.

(** Lines 320-325, on the sorted frame [sorted] whose primary metric is
    [kwh]: the 1-step lag, and the 24-step lag or the mean. *)
Definition with_lags (sorted : frame F) (kwh : column F) : frame F :=
  let df := set_col "kwh_lag_1h" (shift 1 kwh) sorted in
  if (24 <? nrows df)%nat
  then set_col "kwh_lag_24h" (shift 24 kwh) df
  else set_col "kwh_lag_24h" (broadcast (mean kwh) df) df.

(** Lines 327-329: the rolling features. *)
Definition with_rolling (df : frame F) (kwh : column F) : frame F :=
  let df := set_col "kwh_rolling_mean_6h" (rolling 6 1 f_mean kwh) df in
  set_col "kwh_rolling_std_6h" (rolling 6 1 f_std kwh) df.

(** Lines 318-325: the lag features, on the frame sorted by timestamp. *)
Definition add_lag_features (df : frame F) : result (frame F) :=
  df ← sort_values "timestamp" df;
  kwh ← get_col "kWh" df;
  Ok (with_lags df kwh).

Definition add_rolling_features (df : frame F) : result (frame F) :=
  kwh ← get_col "kWh" df;
  Ok (with_rolling df kwh).

(** Lines 299-329: the statistical, lag and rolling features of the
    primary metric.  A statistic of a column that holds strings or
    timestamps raises [TypeError]; the grouping by hour reads the [hour]
    column. *)
Definition add_kwh_features (df : frame F) : result (frame F) :=
  if negb (has_col "kWh" df) then Ok df
  else
    kwh ← get_col "kWh" df;
    if negb (forallb is_numeric kwh) then Raise TypeError
    else
      hour ← get_col "hour" df;
      df ← add_lag_features (with_statistics df kwh hour);
      add_rolling_features df.

(** Line 332: [df.fillna(method='ffill').fillna(method='bfill').fillna(0)],
    column by column. *)
Definition fill_column (c : column F) : column F :=
  fillna (VInt 0) (bfill (ffill c)).

Definition fill_missing (df : frame F) : frame F :=
  map_columns fill_column (nrows df) df.

(** The frame just before the final fill (lines 263-329). *)
Definition derive_features (data_df : frame F) (customer_id : string)
    (encs : encoders) : result (frame F) :=
  let df := add_customer_id customer_id data_df in
  let df := encode_categoricals encs df in
  df ← add_time_features df;
  add_kwh_features df.

Definition prepare_features_for_inference (data_df : frame F)
    (customer_id : string) (encs : encoders) : result (frame F) :=
  df ← derive_features data_df customer_id encs;
  Ok (fill_missing df).

(** A TimeSeriesFrame: every column has one cell per row, the
    [timestamp] column is present and holds timestamps, and the primary
    metric [kWh], when present, holds numbers. *)
Definition is_timeseries_frame (df : frame F) : bool :=
  wf_frameb df
  && match get_col "timestamp" df with
     | Ok ts => forallb is_datetime ts
     | Raise _ => false
     end
  && match get_col "kWh" df with
     | Ok kwh => forallb is_numeric kwh
     | Raise _ => true
     end.

(** The columns that the pipeline derives after the categorical
    encoding. *)
Definition derived_names : list string :=
  ["hour"; "day_of_week"; "month"; "is_weekend";
   "customer_kwh_mean"; "customer_kwh_std"; "customer_kwh_min"; "customer_kwh_max";
   "mfg_kwh_mean"; "mfg_kwh_std"; "mfg_kwh_min"; "mfg_kwh_max";
   "regional_hourly_kwh_mean"; "kwh_vs_customer_mean"; "kwh_vs_mfg_mean";
   "kwh_lag_1h"; "kwh_lag_24h"; "kwh_rolling_mean_6h"; "kwh_rolling_std_6h"].

Definition derived_name (name : string) : bool :=
  List.existsb (String.eqb name) derived_names.

(** *** Sequence windows *)

(** One window: [seq_length] rows of the feature columns, as the matrix
    [seq_data[feature_cols].values]. *)
Definition window : Type := list (list (cell F)).

(** [df[feature_cols].values]: one list per row. *)
Definition values (feature_cols : list string) (df : frame F) : result window :=
  cols ← for_each (fun name => get_col name df) feature_cols;
  Ok (map (fun i => map (fun c => nth i c None) cols) (seq 0 (nrows df))).

(** [np.isnan(m).any()] is defined on an array of numbers and on an array
    of datetime64, where NaT counts as NaN; it raises [TypeError] on an
    array of objects. *)
Definition isnan_any (defined : bool) (m : window) : result bool :=
  if defined then Ok (existsb (existsb isnan) m) else Raise TypeError.

(** The dtype of [df[feature_cols].values] is numeric when every selected
    column is (int64 beside float64 gives float64), and datetime64 when
    every selected column is; any other selection, such as a column of
    strings or numbers beside timestamps, gives an array of objects.  A
    slice keeps the dtypes of its frame. *)
Definition numeric_dtype (feature_cols : list string) (df : frame F) : bool :=
  match for_each (fun name => get_col name df) feature_cols with
  | Ok cols => forallb (forallb is_numeric) cols
  | Raise _ => false
  end.

Definition datetime_dtype (feature_cols : list string) (df : frame F) : bool :=
  match for_each (fun name => get_col name df) feature_cols with
  | Ok cols => forallb (forallb is_datetime) cols
  | Raise _ => false
  end.

Definition isnan_defined (feature_cols : list string) (df : frame F) : bool :=
  numeric_dtype feature_cols df || datetime_dtype feature_cols df.

(** The body of the loop of lines 354-364 for the window that ends before
    row [i]: [Some] when a sequence is appended, [None] when the
    candidate is skipped (a missing value, or an exception that the loop
    logs and swallows). *)
Definition sequence_at (feature_cols : list string) (seq_length : nat)
    (df : frame F) (i : nat) : option window :=
  let seq_data := iloc (i - seq_length) i df in
  match (seq_features ← values feature_cols seq_data;
         nan ← isnan_any (isnan_defined feature_cols df) seq_features;
         Ok (seq_features, nan)) with
  | Ok (seq_features, false) => Some seq_features
  | Ok (_, true) => None
  | Raise _ => None
  end.

Definition insufficient_data (n seq_length : nat) : exn :=
  ValueError ("Insufficient data for sequence creation: "
              ++ Text.str_int (Z.of_nat n) ++ " < "
              ++ Text.str_int (Z.of_nat seq_length)).

Definition no_valid_sequences : exn := ValueError "No valid sequences created".

(** Lines 338-374. *)
Definition create_sequences_for_inference (data_df : frame F)
    (feature_cols : list string) (seq_length : nat) : result (list window) :=
  df ← sort_values "timestamp" data_df;
  if (nrows df <? seq_length)%nat
  then Raise (insufficient_data (nrows df) seq_length)
  else
    let sequences :=
      omap (sequence_at feature_cols seq_length df)
           (seq seq_length (S (nrows df) - seq_length)) in
    match sequences with
    | [] => Raise no_valid_sequences
    | _ => Ok sequences
    end.

(** *** The windows as the specification words them

    Every stride-1 window of [seq_length] rows of the sorted frame,
    restricted to the feature columns: the window that starts at row [a]
    ends at row [a + seq_length - 1], for every end row from
    [seq_length - 1] to the last row.  A window with a missing value is
    discarded. *)
Definition rows_of (data : list (column F)) (a seq_length : nat) : window :=
  map (fun r => map (fun c => nth r c None) data) (seq a seq_length).

Definition complete (w : window) : bool := negb (existsb (existsb isnan) w).

Definition candidate_windows (data : list (column F)) (n seq_length : nat)
  : list window :=
  map (fun a => rows_of data a seq_length) (seq 0 (S n - seq_length)).

Definition spec_windows (feature_cols : list string) (seq_length : nat)
    (sorted : frame F) : list window :=
  match for_each (fun name => get_col name sorted) feature_cols with
  | Ok data => List.filter complete (candidate_windows data (nrows sorted) seq_length)
  | Raise _ => []
  end.

(** No cell of the feature columns is missing. *)
Definition features_complete (feature_cols : list string) (df : frame F) : bool :=
  match for_each (fun name => get_col name df) feature_cols with
  | Ok data => forallb (fun c => negb (existsb isnan c)) data
  | Raise _ => false
  end.
End FeaturePipeline.

(** *** Redis outages *)

Section Outage.
Context {Model Encoders Config : Type}.

(** The service started without a Redis client ([redis_client = None]). *)
Definition without_redis (w : world Model Encoders Config) : world Model Encoders Config :=
  {| redis_client := None; s3 := s3 w; model_cache := model_cache w;
     encoders_cache := encoders_cache w; config_cache := config_cache w;
     files := files w; now := now w; accesses := accesses w |}.

(** The first world has a Redis client whose server does not answer, the
    second has no Redis client; they hold the same S3 client, memory cache and
    local files, and read the same clock. *)
Definition outage (w1 w2 : world Model Encoders Config) : Prop :=
  (exists r, redis_client w1 = Some r /\ redis_up r = false)
  /\ redis_client w2 = None
  /\ s3 w1 = s3 w2
  /\ model_cache w1 = model_cache w2 /\ encoders_cache w1 = encoders_cache w2
  /\ config_cache w1 = config_cache w2
  /\ files w1 = files w2 /\ now w1 = now w2.

(** Two computations that, from two such worlds, end with the same value or
    exception, in two such worlds. *)
Definition same_outcome {A} (m1 m2 : io (world Model Encoders Config) A) : Prop :=
  forall w1 w2, outage w1 w2 ->
    fst (m1 w1) = fst (m2 w2) /\ outage (snd (m1 w1)) (snd (m2 w2)).
End Outage.

(** *** The forecast routes *)

(** The value of [request.get_json()] when it is a JSON object: the two
    keys that the handler reads, each a string or an integer when present,
    and whether the object has other keys. *)
Record json_body : Type := {
  body_customer_id : option string;
  body_forecast_hours : option Z;
  body_other_keys : bool
}.

Inductive json : Type :=
| JsonObject (fields : json_body)
| JsonOther (truthy : bool).     (* a list, a string, a number or a boolean *)

(** [not data] *)
Definition falsy (data : option json) : bool :=
  match data with
  | None => true
  | Some (JsonObject b) =>
      match body_customer_id b, body_forecast_hours b with
      | None, None => negb (body_other_keys b)
      | _, _ => false
      end
  | Some (JsonOther t) => negb t
  end.

(** What the handler asks of the loaded objects: the predictions of the
    model for an array of windows (one vector per window), the fitted
    encoders that the encoders object holds (none when it is not a
    dictionary of encoders), and the [model_info] dictionary built from the
    configuration (lines 535-543). *)
Class Runtime (F Model Encoders Config Info : Type) : Type := {
  predict : Model -> list (list (list (cell F))) -> result (list (list F));
  encoders_dict : Encoders -> encoders;
  model_info : option Config -> result Info
}.

Section Routes.
Context {F Model Encoders Config Info : Type}.
Context `{Codecs F Model Encoders Config} `{!Runtime F Model Encoders Config Info}.
(** [Config.OUTPUT_BUCKET] and [Config.CUSTOMER_ID]. *)
Variable OUTPUT_BUCKET CUSTOMER_ID : string.

(** The body of a 200 response. *)
Record forecast_response : Type := {
  fr_customer_id : string;
  fr_forecast_hours : Z;
  fr_forecasts : list (forecast_entry F);
  fr_model_info : Info;
  fr_generated_at : Z
}.

Inductive body : Type :=
| ErrorMessage (message : string)     (* {'error': message} *)
| ErrorOf (e : exn)                   (* {'error': str(e)} *)
| Forecast (r : forecast_response).

Record response : Type := {
  status_code : Z;
  payload : body
}.

Definition exclude_cols : list string :=
  ["timestamp"; "customer_id"; "manufacturer"; "region"; "location"; "client_id";
   "serial_number"; "datetime"].

Definition target_cols : list string := ["kWh"; "kVArh"; "kVA"; "PF"].

(** [col in names] *)
Definition member (col : string) (names : list string) : bool :=
  existsb (String.eqb col) names.

(** Step 4 (lines 486-490). *)
Definition available_targets (featured_data : frame F) : list string :=
  List.filter (fun col => has_col col featured_data) target_cols.

Definition feature_columns (featured_data : frame F) : list string :=
  List.filter (fun col => negb (member col exclude_cols)
                          && negb (member col target_cols))
              (column_names featured_data).

(** Every column of the frame that can become a feature holds numbers: a
    column that is not numeric is one of [exclude_cols]. *)
Definition numeric_features (df : frame F) : bool :=
  forallb (fun nc : string * column F =>
             member (fst nc) exclude_cols || forallb is_numeric (snd nc))
          (columns df).

(** The columns of a frame after [df[name] = ...]: a new name goes last. *)
Definition add_name (name : string) (names : list string) : list string :=
  if member name names then names else names ++ [name].

(** The columns of the frame that [prepare_features_for_inference] returns
    for a frame with the columns [names]: the names that the pipeline
    assigns, in the order of the assignments; the statistical, lag and
    rolling columns are assigned only when the primary metric is present. *)
Definition pipeline_columns (with_metric : bool) (names : list string) : list string :=
  foldl (fun names name => add_name name names) names
        (["customer_id"; "customer_encoded"; "manufacturer_encoded"; "region_encoded"]
         ++ (if with_metric then derived_names else firstn 4 derived_names)).

(** [featured_data['timestamp'].max()] as the [Timestamp] to which line 520
    adds a [timedelta]; the column has no missing cell after the fill, and
    at least [seq_length] rows when the line is reached. *)
Definition last_timestamp (ts : column F) : result Z :=
  match for_each (fun x => expect TypeError (time_of x)) ts with
  | Ok (t :: times) => Ok (foldr Z.max t times)
  | Ok [] => Raise TypeError
  | Raise e => Raise e
  end.

(** Lines 459-553: the body of the [try] for a JSON object. *)
Definition forecast (fields : json_body) : io (world Model Encoders Config) forecast_response :=
  let customer_id := default CUSTOMER_ID (body_customer_id fields) in
  let forecast_hours := default 24 (body_forecast_hours fields) in
  (* Step 1: Load model (with caching) *)
  b ← cached_model OUTPUT_BUCKET customer_id;
  let '(model, encs, config) := b in
  (* Step 2: Get recent data for context *)
  recent_data ← get_recent_customer_data customer_id 168;
  (* Step 3: Prepare features *)
  featured_data ← lift (prepare_features_for_inference recent_data customer_id
                          (encoders_dict encs));
  (* Step 4: Determine feature columns *)
  let targets := available_targets featured_data in
  let feature_cols := feature_columns featured_data in
  (* Step 5: Create sequences *)
  X ← lift (create_sequences_for_inference featured_data feature_cols 24);
  (* Step 6: Generate predictions *)
  predictions ← lift (predict model X);
  (* Step 7: Format response *)
  _ ← lift (index predictions (-1));
  ts ← lift (get_col "timestamp" featured_data);
  last ← lift (last_timestamp ts);
  forecasts ← lift (assemble_forecasts predictions last forecast_hours targets);
  info ← lift (model_info config);
  generated_at ← gets now;
  mret {| fr_customer_id := customer_id;
          fr_forecast_hours := len forecasts;
          fr_forecasts := forecasts;
          fr_model_info := info;
          fr_generated_at := generated_at |}.

(** [generate_forecast], the handler of [POST /forecast], given the
    outcome of [request.get_json()]: the decoded body ([None] for the JSON
    [null]), or the exception that Flask raises for a request whose body
    is not JSON, which the handler catches like any other. *)
Definition generate_forecast (get_json : result (option json))
  : io (world Model Encoders Config) response :=
  try_except
    (data ← lift get_json;
     if falsy data
     then mret {| status_code := 400; payload := ErrorMessage "No JSON data provided" |}
     else match data with
          | Some (JsonObject fields) =>
              r ← forecast fields;
              mret {| status_code := 200; payload := Forecast r |}
          | _ => raise AttributeError     (* data.get on a value that is no dict *)
          end)
    (fun e => mret {| status_code := 500; payload := ErrorOf e |}).

(** [get_forecast], the handler of [GET /forecast/<customer_id>], given
    the outcome of [int(request.args.get('forecast_hours', 24))].  The
    dictionary built from the two parameters is stored on [flask.g], which
    [generate_forecast] does not read. *)
Definition get_forecast (customer_id : string) (forecast_hours : result Z)
    (get_json : result (option json)) : io (world Model Encoders Config) response :=
  try_except
    (hours ← lift forecast_hours;
     let data := {| body_customer_id := Some customer_id;
                    body_forecast_hours := Some hours;
                    body_other_keys := false |} in
     let g_forecast_data := data in
     generate_forecast get_json)
    (fun e => mret {| status_code := 500; payload := ErrorOf e |}).

End Routes.
Arguments response : clear implicits.
Arguments body : clear implicits.
Arguments forecast_response : clear implicits.

End ForecastingApi.

(** ** Python string methods *)

Module PyStr.

(** A Python [str] is modelled by its UTF-8 encoding (for a value of
    [os.environ], the bytes of the variable): two [str] are equal when
    their encodings are, and a search for an ASCII character or for an
    encoded string finds the same places in both. *)

(** The UTF-8 encoding of a code point. *)
Definition utf8 (c : N) : list Ascii.ascii :=
  map Ascii.ascii_of_N
      (if c <? 128 then [c]
       else if c <? 2048 then [192 + c / 64; 128 + c mod 64]
       else if c <? 65536 then [224 + c / 4096; 128 + (c / 64) mod 64; 128 + c mod 64]
       else [240 + c / 262144; 128 + (c / 4096) mod 64; 128 + (c / 64) mod 64;
             128 + c mod 64])%N.

(** The code points [c] with [chr(c).isspace()], which are those that
    [str.strip] removes: the ASCII blanks (tab to carriage return, the
    separators 28 to 31 and the space), NEL, the no-break space, and the
    spaces and line separators of the other planes. *)
Definition whitespace : list N :=
  [9; 10; 11; 12; 13; 28; 29; 30; 31; 32; 133; 160; 5760;
   8192; 8193; 8194; 8195; 8196; 8197; 8198; 8199; 8200; 8201; 8202;
   8232; 8233; 8239; 8287; 12288]%N.

(** [c.isspace()] for the character of code point [c]. *)
Definition isspace (c : N) : bool := existsb (N.eqb c) whitespace.

(** The blanks, encoded. *)
Definition blanks : list (list Ascii.ascii) := map utf8 whitespace.

(** [l] without its prefix [p], when it begins with [p]. *)
Fixpoint drop_prefix (p l : list Ascii.ascii) : option (list Ascii.ascii) :=
  match p, l with
  | [], _ => Some l
  | a :: p', b :: l' => if Ascii.eqb a b then drop_prefix p' l' else None
  | _ :: _, [] => None
  end.

(** [l] without the first of [bs] with which it begins. *)
Fixpoint drop_any (bs : list (list Ascii.ascii)) (l : list Ascii.ascii)
  : option (list Ascii.ascii) :=
  match bs with
  | [] => None
  | b :: bs' => match drop_prefix b l with
                | Some r => Some r
                | None => drop_any bs' l
                end
  end.

(** The members of [bs] are dropped from the front of [l] as long as it
    begins with one; [fuel] bounds their number. *)
Fixpoint lstrip_fuel (bs : list (list Ascii.ascii)) (fuel : nat) (l : list Ascii.ascii)
  : list Ascii.ascii :=
  match fuel with
  | O => l
  | S fuel' => match drop_any bs l with
               | Some r => lstrip_fuel bs fuel' r
               | None => l
               end
  end.

Definition lstrip_bytes (l : list Ascii.ascii) : list Ascii.ascii :=
  lstrip_fuel blanks (length l) l.

(** The blanks at the end are those at the front of the reversed bytes. *)
Definition rstrip_bytes (l : list Ascii.ascii) : list Ascii.ascii :=
  rev (lstrip_fuel (map (@rev _) blanks) (length l) (rev l)).

(** [s.lstrip()], [s.rstrip()] and [s.strip()]. *)
Definition lstrip (s : string) : string :=
  String.string_of_list_ascii (lstrip_bytes (String.list_ascii_of_string s)).

Definition rstrip (s : string) : string :=
  String.string_of_list_ascii (rstrip_bytes (String.list_ascii_of_string s)).

Definition strip (s : string) : string := rstrip (lstrip s).

(** [s.lower()] is the lower-case mapping of the Unicode character
    database, which is not reproduced: what is proved of a caller holds for
    every mapping. *)
Class CaseMapping : Type := {
  lower : string -> string
}.

(** [s.split(sep)] for a separator of one character: never empty. *)
Fixpoint split (sep : Ascii.ascii) (s : string) : list string :=
  match s with
  | EmptyString => [EmptyString]
  | String c s' =>
      if Ascii.eqb c sep then EmptyString :: split sep s'
      else match split sep s' with
           | item :: items => String c item :: items
           | [] => [String c EmptyString]
           end
  end.

(** [os.path.join(a, b)] on POSIX. *)
Definition path_join (a b : string) : string :=
  if String.prefix "/" b then b
  else if String.eqb a "" || Text.endswith a "/" then a ++ b
  else a ++ "/" ++ b.

End PyStr.

(** ** Model updater service *)

Module ModelUpdater.

(** A [datetime]: naive, or aware of its offset. *)
Inductive datetime : Type :=
| Naive (t : Z)
| Aware (t : Z).

(** The decoding of a cached record:
    [json.loads(cached_data)['updated_at']], then
    [datetime.fromisoformat]; each raises on a malformed input. *)
Class Codecs : Type := {
  json_updated_at : string -> result string;
  fromisoformat : string -> result datetime
}.

(** [str(e)] *)
Definition str_exn (e : exn) : string :=
  match e with
  | KeyError k => "'" ++ k ++ "'"
  | IndexError => "list index out of range"
  | TypeError => "can't subtract offset-naive and offset-aware datetimes"
  | AttributeError => "attribute error"
  | ValueError msg | Exception_ msg => msg
  | ClientError k => "An error occurred (NoSuchKey): " ++ k
  end.

(** The dictionary that [check_model_freshness] returns. *)
Record freshness : Type := {
  needs_update : bool;
  reason : string;
  updated_at : option datetime
}.

Section Freshness.
Context `{Codecs}.

(** [datetime.now() - updated_at] for the naive [datetime.now()]. *)
Definition age (current_time : Z) (updated : datetime) : result Z :=
  match updated with
  | Naive t => Ok (current_time - t)
  | Aware _ => Raise TypeError
  end.

(** Lines 192-205: the body of the [try]. *)
Definition freshness_of_cache (r : redis) (current_time : Z) (customer_id : string)
  : result freshness :=
  let cache_key := "edge:model:" ++ customer_id in
  cached_data ← Redis.get r cache_key;
  match cached_data with
  | None | Some "" =>
      Ok {| needs_update := true; reason := "No cached model"; updated_at := None |}
  | Some s =>
      iso ← json_updated_at s;
      updated ← fromisoformat iso;
      a ← age current_time updated;
      (* Check if model is older than 7 days *)
      if Calendar.days 7 <? a
      then Ok {| needs_update := true; reason := "Model older than 7 days";
                 updated_at := None |}
      else Ok {| needs_update := false; reason := "Model is fresh";
                 updated_at := Some updated |}
  end.

(** [check_model_freshness], given the module-level [redis_client] and
    the reading of the clock. *)
Definition check_model_freshness (redis_client : option redis) (current_time : Z)
    (customer_id : string) : freshness :=
  match redis_client with
  | None => {| needs_update := true; reason := "Redis not available";
               updated_at := None |}
  | Some r =>
      match freshness_of_cache r current_time customer_id with
      | Ok f => f
      | Raise e => {| needs_update := true; reason := "Error: " ++ str_exn e;
                      updated_at := None |}
      end
  end.
End Freshness.

(** The reasons that the specification enumerates, and the message of the
    service that each names. *)
Inductive spec_reason : Type :=
| no_cached_artifact
| older_than_threshold
| fresh.

Definition reason_message (r : spec_reason) : string :=
  match r with
  | no_cached_artifact => "No cached model"
  | older_than_threshold => "Model older than 7 days"
  | fresh => "Model is fresh"
  end.

(** *** Model updates *)

(** The registry document [latest_model.json], a JSON object: the three
    paths that the updater reads, and whether it has other keys. *)
Record registry : Type := {
  model_path : option string;
  encoders_path : option string;
  config_path : option string;
  other_keys : bool
}.

(** [not registry] for the dictionary: true when it is empty. *)
Definition empty_registry (reg : registry) : bool :=
  match model_path reg, encoders_path reg, config_path reg with
  | None, None, None => negb (other_keys reg)
  | _, _, _ => false
  end.

(** The record that [update_customer_model] writes to Redis. *)
Record cache_data : Type := {
  cd_model_path : string;
  cd_encoders_path : string;
  cd_config_path : string;
  cd_updated_at : string;
  cd_registry : registry
}.

(** [json.loads] on the registry document ([None] when it raises),
    [json.dumps(cache_data, default=str)] and [datetime.isoformat]. *)
Class Serializer : Type := {
  json_loads_registry : string -> option registry;
  json_dumps : cache_data -> string;
  isoformat : Z -> string
}.

(** The module-level clients, the local files and directories, and the
    clock. *)
Record world : Type := {
  redis_client : option redis;
  s3 : option (gmap string string);     (* the objects of the output bucket *)
  files : gmap string string;
  directories : gset string;
  now : Z
}.

Section Update.
Context `{Serializer}.
(** [Config.OUTPUT_BUCKET] and [Config.MODELS_DIR]. *)
Variable OUTPUT_BUCKET MODELS_DIR : string.

(** [get_model_registry] (lines 72-86). *)
Definition get_model_registry (customer_id : string) (w : world) : option registry :=
  match s3 w with
  | None => None
  | Some bucket =>
      let registry_key := "customer_tailored/" ++ customer_id ++ "/latest_model.json" in
      match bucket !! registry_key with
      | None => None                       (* get_object raises: logged *)
      | Some body => json_loads_registry body
      end
  end.

(** Lines 96-99: the key of an S3 path. *)
Definition key_of_path (s3_path : string) : string :=
  let bucket_prefix := "s3://" ++ OUTPUT_BUCKET ++ "/" in
  if String.prefix bucket_prefix s3_path
  then Text.replace bucket_prefix "" s3_path
  else s3_path.

(** [download_model_file] (lines 88-107): the file is written when the
    object exists; any failure is logged and answered with [False]. *)
Definition download_model_file (s3_path local_path : string) (w : world)
  : bool * world :=
  match s3 w with
  | None => (false, w)
  | Some bucket =>
      match bucket !! key_of_path s3_path with
      | Some body =>
          (true, {| redis_client := redis_client w; s3 := s3 w;
                    files := <[local_path := body]> (files w);
                    directories := directories w; now := now w |})
      | None => (false, w)
      end
  end.

(** [os.makedirs(path, exist_ok=True)] *)
Definition makedirs (path : string) (w : world) : world :=
  {| redis_client := redis_client w; s3 := s3 w; files := files w;
     directories := {[ path ]} ∪ directories w; now := now w |}.

(** [if path: if not download_model_file(path, local): ...]: whether the
    download was tried and failed. *)
Definition download_failed (path : option string) (local_path : string) (w : world)
  : bool * world :=
  match path with
  | None | Some "" => (false, w)
  | Some p => let (ok, w') := download_model_file p local_path w in (negb ok, w')
  end.

(** Whether the object that a registry path names can be downloaded; a path
    that is absent or empty is not downloaded at all. *)
Definition can_download (w : world) (path : option string) : bool :=
  match path with
  | None | Some "" => true
  | Some p =>
      match s3 w with
      | Some bucket => bool_decide (is_Some (bucket !! key_of_path p))
      | None => false
      end
  end.

(** Lines 147-160: the record of the update in Redis; an exception of the
    client is logged and swallowed. *)
Definition update_redis_cache (customer_id customer_dir : string) (reg : registry)
    (w : world) : world :=
  match redis_client w with
  | None => w
  | Some r =>
      let cache_key := "edge:model:" ++ customer_id in
      let data := {| cd_model_path := PyStr.path_join customer_dir "model.h5";
                     cd_encoders_path := PyStr.path_join customer_dir "encoders.pkl";
                     cd_config_path := PyStr.path_join customer_dir "config.json";
                     cd_updated_at := isoformat (now w);
                     cd_registry := reg |} in
      match Redis.setex r cache_key 3600 (json_dumps data) with
      | Ok r' => {| redis_client := Some r'; s3 := s3 w; files := files w;
                    directories := directories w; now := now w |}
      | Raise _ => w
      end
  end.

(** [update_customer_model] (lines 109-167). *)
Definition update_customer_model (customer_id : string) (w : world) : bool * world :=
  match get_model_registry customer_id w with
  | None => (false, w)
  | Some reg =>
      if empty_registry reg then (false, w)
      else
        (* Create customer directory *)
        let customer_dir := PyStr.path_join MODELS_DIR customer_id in
        let w := makedirs customer_dir w in
        (* Download model file *)
        let (model_failed, w) :=
          download_failed (model_path reg) (PyStr.path_join customer_dir "model.h5") w in
        (* Download encoders file *)
        let (encoders_failed, w) :=
          download_failed (encoders_path reg)
                          (PyStr.path_join customer_dir "encoders.pkl") w in
        (* Download config file if available *)
        let (_, w) :=
          download_failed (config_path reg)
                          (PyStr.path_join customer_dir "config.json") w in
        let success := negb model_failed && negb encoders_failed in
        (* Update Redis cache *)
        let w := if success then update_redis_cache customer_id customer_dir reg w
                 else w in
        (success, w)
  end.

(** The world [seconds] later, the service having done nothing in between:
    the clock has advanced and Redis has dropped the keys whose time to
    live has run out. *)
Definition later (seconds : Z) (w : world) : world :=
  {| redis_client := Redis.elapse seconds <$> redis_client w; s3 := s3 w;
     files := files w; directories := directories w;
     now := now w + seconds * Calendar.second |}.

(** [update_all_models] (lines 169-184), for [Config.CUSTOMER_IDS]. *)
Definition update_all_models (customer_ids : list string) (w : world)
  : gmap string bool * world :=
  foldl (fun (acc : gmap string bool * world) customer_id =>
           let (results, w) := acc in
           let customer_id := PyStr.strip customer_id in
           match customer_id with
           | EmptyString => (results, w)
           | _ => let (success, w') := update_customer_model customer_id w in
                  (<[customer_id := success]> results, w')
           end)
        (∅, w) customer_ids.
End Update.

End ModelUpdater.

(** ** Edge device registry service *)

Module DeviceRegistry.
Import Stdlib.Strings.Ascii.

(** *** The authentication hook *)

(** What the hook reads of a request. *)
Record request : Type := {
  path : string;
  method : string;
  headers : string -> option string       (* request.headers.get(name) *)
}.

(** [os.environ] *)
Abbreviation environ := (gmap string string).

(** [_get_auth_mode] *)
Definition _get_auth_mode `{PyStr.CaseMapping} (env : environ) : string :=
  PyStr.lower (PyStr.strip (default "monitor" (env !! "EDGE_DEVICE_REGISTRY_AUTH_MODE"))).

(** The loop of lines 54-57. *)
Definition add_keys (items : list string) (keys : gset string) : gset string :=
  foldl (fun (keys : gset string) item =>
           let key := PyStr.strip item in
           match key with
           | EmptyString => keys
           | _ => {[ key ]} ∪ keys
           end) keys items.

(** [_get_allowed_api_keys] *)
Definition _get_allowed_api_keys (env : environ) : gset string :=
  let keys : gset string := ∅ in
  let single_key := PyStr.strip (default "" (env !! "EDGE_DEVICE_REGISTRY_API_KEY")) in
  let keys := match single_key with
              | EmptyString => keys
              | _ => {[ single_key ]} ∪ keys
              end in
  let multi_keys :=
    PyStr.strip (default "" (env !! "EDGE_DEVICE_REGISTRY_ALLOWED_API_KEYS")) in
  match multi_keys with
  | EmptyString => keys
  | _ => add_keys (PyStr.split ","%char multi_keys) keys
  end.

(** [a or b] on optional strings: [a] unless it is [None] or empty. *)
Definition or_else (a b : option string) : option string :=
  match a with
  | None | Some EmptyString => b
  | Some _ => a
  end.

(** What the hook does: the metrics that it publishes (the publication is
    best effort), and the response with which it ends the request, if
    any: an error message and a status code. *)
Record verdict : Type := {
  metrics : list string;
  blocked : option (string * Z)
}.

Definition pass : verdict := {| metrics := []; blocked := None |}.

(** [_observe_auth_bypass], the [before_request] hook. *)
Definition _observe_auth_bypass `{PyStr.CaseMapping} (env : environ) (req : request)
  : verdict :=
  if negb (String.prefix "/api/" (path req)) then pass
  else if String.eqb (method req) "OPTIONS" then pass
  else
    let auth_mode := _get_auth_mode env in
    if negb (String.eqb auth_mode "monitor" || String.eqb auth_mode "enforce")
    then {| metrics := ["AuthModeInvalidConfig"]; blocked := None |}
    else
      let presented_key := or_else (headers req "X-API-Key") (headers req "x-api-key") in
      let allowed_keys := _get_allowed_api_keys env in
      (* Enforce mode requires configured keys *)
      if String.eqb auth_mode "enforce" && bool_decide (allowed_keys = ∅)
      then {| metrics := ["AuthModeInvalidConfig"];
              blocked := Some ("Authentication configuration unavailable", 503) |}
      else
        match presented_key with
        | None | Some EmptyString =>
            {| metrics := ["AuthBypass"];
               blocked := if String.eqb auth_mode "enforce"
                          then Some ("Missing API key", 401) else None |}
        | Some key =>
            (* If keys are configured, validate key *)
            if negb (bool_decide (allowed_keys = ∅)) && negb (bool_decide (key ∈ allowed_keys))
            then {| metrics := ["AuthDenied"];
                    blocked := if String.eqb auth_mode "enforce"
                               then Some ("Invalid API key", 401) else None |}
            else pass
        end.

(** *** Devices *)

(** One entry of [capabilities["services"]]. *)
Record service : Type := {
  service_name : string;
  service_status : string;
  service_port : Z
}.

(** [capabilities["system"]]: [{}], [{"available": False}], or the answer of
    the health endpoint with its defaults. *)
Inductive system_info : Type :=
| SystemUnknown
| SystemUnavailable
| SystemAvailable (service version timestamp : string).

(** The [capabilities] dictionary: [docker["installed"]],
    [platformEdge["deployed"]] and the two parts that the detection
    fills. *)
Record capabilities : Type := {
  system : system_info;
  docker_installed : bool;
  platform_deployed : bool;
  services : list service
}.

(** A JSON value of a device dictionary. *)
Inductive jvalue : Type :=
| JStr (s : string)
| JCapabilities (c : capabilities)
| JOther (raw : string).

(** A device: a dictionary. *)
Abbreviation device := (gmap string jvalue).

(** The answer of [requests.get(url, timeout=5)]: the status code and
    [response.json()] when it is an object ([None] when it raises), of
    which the detection reads three optional keys. *)
Record health_data : Type := {
  health_service : option string;
  health_version : option string;
  health_timestamp : option string
}.

Record http_response : Type := {
  status_code : Z;
  json : option health_data
}.

(** The registry object, the file [devices.json] (absent, or the devices
    that it holds) and whether it can be written, the clock, and the
    network as the service sees it during one call. *)
Record state : Type := {
  devices : gmap string device;
  devices_json : option (gmap string device);
  writable : bool;
  clock : Z;
  network : string -> result http_response
}.

Definition set_devices (ds : gmap string device) (st : state) : state :=
  {| devices := ds; devices_json := devices_json st; writable := writable st;
     clock := clock st; network := network st |}.

(** The state when the clock reads [t]. *)
Definition at_time (t : Z) (st : state) : state :=
  {| devices := devices st; devices_json := devices_json st; writable := writable st;
     clock := t; network := network st |}.

(** [load_devices]: run when the service starts. *)
Definition load_devices (st : state) : state :=
  match devices_json st with
  | Some ds => set_devices ds st
  | None => st
  end.

(** [EdgeDeviceRegistry()] when the service starts again: the registry is
    empty until [load_devices] has read the file. *)
Definition restart (st : state) : state := load_devices (set_devices ∅ st).

(** [save_devices]: a failure is logged and swallowed. *)
Definition save_devices (st : state) : state :=
  if writable st
  then {| devices := devices st; devices_json := Some (devices st);
          writable := writable st; clock := clock st; network := network st |}
  else st.

(** [determine_device_type] *)
Definition determine_device_type (caps : capabilities) : string :=
  if docker_installed caps && platform_deployed caps then "full-platform"
  else if docker_installed caps then "docker-ready"
  else match services caps with
       | _ :: _ => "legacy-edge"
       | [] => "basic-edge"
       end.

Definition set_system (s : system_info) (caps : capabilities) : capabilities :=
  {| system := s; docker_installed := docker_installed caps;
     platform_deployed := platform_deployed caps; services := services caps |}.

Definition append_service (s : service) (caps : capabilities) : capabilities :=
  {| system := system caps; docker_installed := docker_installed caps;
     platform_deployed := platform_deployed caps;
     services := services caps ++ [s] |}.

(** [try: body except Exception: handler] in a function without effects. *)
Definition try_ {A} (body : result A) (handler : exn -> A) : A :=
  match body with
  | Ok a => a
  | Raise e => handler e
  end.

(** Whether [url] answers with the status code 200. *)
Definition answers (net : string -> result http_response) (url : string) : bool :=
  match net url with
  | Ok response => status_code response =? 200
  | Raise _ => false
  end.

(** Lines 174-188: the health endpoint. *)
Definition check_health (net : string -> result http_response) (ip : string)
    (caps : capabilities) : capabilities :=
  try_ (response ← net ("http://" ++ ip ++ "/health");
        if status_code response =? 200
        then health ← expect (ValueError "JSONDecodeError") (json response);
             Ok (set_system (SystemAvailable
                               (default "Unknown" (health_service health))
                               (default "Unknown" (health_version health))
                               (default "" (health_timestamp health))) caps)
        else Ok caps)
       (fun _ => set_system SystemUnavailable caps).

(** Lines 190-212: a service is listed when [url] answers 200. *)
Definition check_service (net : string -> result http_response) (url name : string)
    (port : Z) (caps : capabilities) : capabilities :=
  try_ (response ← net url;
        if status_code response =? 200
        then Ok (append_service {| service_name := name; service_status := "running";
                                   service_port := port |} caps)
        else Ok caps)
       (fun _ => caps).

(** [detect_capabilities] *)
Definition detect_capabilities (net : string -> result http_response) (ip : string)
  : result capabilities :=
  let caps := {| system := SystemUnknown; docker_installed := false;
                 platform_deployed := false; services := [] |} in
  let caps := check_health net ip caps in
  (* Check for Redis *)
  let caps := check_service net ("http://" ++ ip ++ "/health") "redis" 6379 caps in
  (* Check for Nginx *)
  let caps := check_service net ("http://" ++ ip ++ "/") "nginx" 80 caps in
  Ok caps.

Section Registry.
(** [datetime.isoformat] *)
Variable isoformat : Z -> string.

(** [f"device_{int(time.time())}"]: the clock counts microseconds. *)
Definition new_device_id (st : state) : string :=
  "device_" ++ Text.str_int (clock st / Calendar.second).

(** [discover_device] *)
Definition discover_device (ip username : string) (st : state) : device * state :=
  let device_id := new_device_id st in
  let dev : device :=
    {[ "id" := JStr device_id; "ip" := JStr ip; "username" := JStr username;
       "name" := JStr ("Edge Device " ++ ip); "type" := JStr "unknown";
       "status" := JStr "discovering";
       "capabilities" := JCapabilities {| system := SystemUnknown;
                                          docker_installed := false;
                                          platform_deployed := false;
                                          services := [] |};
       "lastSeen" := JStr (isoformat (clock st));
       "createdAt" := JStr (isoformat (clock st)) ]} in
  (* Add to registry *)
  let st := save_devices (set_devices (<[device_id := dev]> (devices st)) st) in
  (* Detect capabilities *)
  let dev := try_ (caps ← detect_capabilities (network st) ip;
                   Ok (<["status" := JStr "online"]>
                         (<["type" := JStr (determine_device_type caps)]>
                            (<["capabilities" := JCapabilities caps]> dev))))
                  (fun _ => <["status" := JStr "offline"]> dev) in
  let dev := <["lastSeen" := JStr (isoformat (clock st))]> dev in
  let st := save_devices (set_devices (<[device_id := dev]> (devices st)) st) in
  (dev, st).

(** [get_device] *)
Definition get_device (device_id : string) (st : state) : option device :=
  devices st !! device_id.

(** [update_device]: [dict.update] lets the keys of [updates] win. *)
Definition update_device (device_id : string) (updates : device) (st : state)
  : option device * state :=
  match devices st !! device_id with
  | Some dev =>
      let dev := <["lastSeen" := JStr (isoformat (clock st))]> (updates ∪ dev) in
      (Some dev, save_devices (set_devices (<[device_id := dev]> (devices st)) st))
  | None => (None, st)
  end.

(** [delete_device] *)
Definition delete_device (device_id : string) (st : state) : bool * state :=
  match devices st !! device_id with
  | Some _ => (true, save_devices (set_devices (delete device_id (devices st)) st))
  | None => (false, st)
  end.

(** *** Routes *)

Inductive reply : Type :=
| ReplyDevice (d : device)
| ReplyError (message : string)
| ReplyMessage (message : string).

(** [GET /api/devices/<device_id>]: an empty dictionary is falsy. *)
Definition get_device_route (device_id : string) (st : state) : Z * reply :=
  match get_device device_id st with
  | Some d => if bool_decide (d = ∅) then (404, ReplyError "Device not found")
              else (200, ReplyDevice d)
  | None => (404, ReplyError "Device not found")
  end.

(** [PUT /api/devices/<device_id>], given the JSON object of the request
    ([None] when there is none). *)
Definition update_device_route (device_id : string) (data : option device)
    (st : state) : Z * reply * state :=
  match data with
  | None => (400, ReplyError "Update data required", st)
  | Some updates =>
      if bool_decide (updates = ∅) then (400, ReplyError "Update data required", st)
      else match update_device device_id updates st with
           | (Some d, st') => (200, ReplyDevice d, st')
           | (None, st') => (404, ReplyError "Device not found", st')
           end
  end.

(** [DELETE /api/devices/<device_id>] *)
Definition delete_device_route (device_id : string) (st : state) : Z * reply * state :=
  match delete_device device_id st with
  | (true, st') => (200, ReplyMessage "Device deleted successfully", st')
  | (false, st') => (404, ReplyError "Device not found", st')
  end.
End Registry.

End DeviceRegistry.

(** ** Concrete instances

    Exact rational arithmetic in place of float64, to run the pipeline on
    concrete frames.  The square root of the standard deviation is taken
    down to six decimals. *)

Module Examples.

Definition q_sum (l : list Q) : Q := foldr Qplus (0 # 1) l.

Definition q_mean (l : list Q) : option Q :=
  match l with
  | [] => None
  | _ => Some (Qred (q_sum l / inject_Z (len l)))
  end.

Definition q_sqrt (q : Q) : Q :=
  Qred (Z.sqrt (Qnum q * 10 ^ 12 / Z.pos (Qden q)) # 10 ^ 6).

Definition q_std (l : list Q) : option Q :=
  match q_mean l with
  | Some m =>
      if (length l <? 2)%nat then None
      else Some (q_sqrt (q_sum (map (fun x => (x - m) * (x - m))%Q l)
                         / inject_Z (len l - 1)))
  | None => None
  end.

Definition q_least (le : Q -> Q -> bool) (l : list Q) : option Q :=
  match l with
  | [] => None
  | x :: l' => Some (foldr (fun a b => if le a b then a else b) x l')
  end.

Definition q_div_eps (x m : Q) : option Q :=
  let d := (m + (1 # 100000000))%Q in
  if Qeq_bool d (0 # 1) then None else Some (Qred (x / d)).

Definition q_str (q : Q) : string :=
  Text.str_int (Qnum q) ++ "/" ++ Text.str_int (Z.pos (Qden q)).

#[global] Instance rational_floats : FloatOps Q := {|
  f_of_Z := inject_Z;
  f_mean := q_mean;
  f_std := q_std;
  f_min := q_least Qle_bool;
  f_max := q_least (fun a b => Qle_bool b a);
  f_div_eps := q_div_eps;
  f_str := q_str
|}.

Definition at_hour (h : Z) : cell Q := Some (VTime (Calendar.datetime 2025 1 15 h 0 0)).
Definition kwh (n : Z) : cell Q := Some (VNum (inject_Z n)).

(** Three hourly records, out of order, with one missing measurement. *)
Definition three_rows : frame Q :=
  {| nrows := 3;
     columns := [("timestamp", [at_hour 2; at_hour 0; at_hour 1]);
                 ("kWh", [kwh 30; kwh 10; None])] |}.

(** [n] hourly records with the measurements [0, 1, ..., n - 1]. *)
Definition hourly (n : nat) : frame Q :=
  {| nrows := n;
     columns := [("timestamp", map (fun i => at_hour (Z.of_nat i)) (seq 0 n));
                 ("kWh", map (fun i => kwh (Z.of_nat i)) (seq 0 n))] |}.

(** A decoder for cached records that knows two timestamps; any other
    record is malformed. *)
#[global] Instance two_records : ModelUpdater.Codecs := {|
  ModelUpdater.json_updated_at s :=
    if String.eqb s "{" then Raise (ValueError "Expecting property name") else Ok s;
  ModelUpdater.fromisoformat s :=
    if String.eqb s "2025-01-07T08:00:00"
    then Ok (ModelUpdater.Naive (Calendar.datetime 2025 1 7 8 0 0))
    else if String.eqb s "2025-01-09T08:00:00+02:00"
    then Ok (ModelUpdater.Aware (Calendar.datetime 2025 1 9 6 0 0))
    else Raise (ValueError "Invalid isoformat string")
|}.

(** A Redis server that holds the record of one customer, updated on
    2025-01-07 at 08:00. *)
Definition one_record : redis :=
  {| redis_up := true;
     redis_db := {[ "edge:model:default" := (3600, "2025-01-07T08:00:00") ]} |}.

(** Stored bytes are plain strings: the registry document is the string
    [registry], weights load unless they are [corrupt], and a cached bundle
    decodes to the strings that [json.dumps(..., default=str)] stored. *)
Definition OUTPUT_BUCKET : string := "sa-api-client-output".

Definition the_registry : ForecastingApi.registry :=
  {| ForecastingApi.model_path := Some "s3://sa-api-client-output/models/Sibaya/model.h5";
     ForecastingApi.encoders_path :=
       Some "s3://sa-api-client-output/models/Sibaya/encoders.pkl";
     ForecastingApi.config_path := None |}.

(** Three records of the first hours of 2025-01-01. *)
Definition old_series : frame Q :=
  {| nrows := 3;
     columns :=
       [("timestamp", [Some (VStr "2025-01-01 02:00"); Some (VStr "2025-01-01 00:00");
                       Some (VStr "2025-01-01 01:00")]);
        ("kWh", [kwh 30; kwh 10; kwh 20])] |}.

Definition cached_series : frame Q :=
  {| nrows := 1;
     columns := [("timestamp", [Some (VTime (Calendar.datetime 2024 12 31 0 0 0))]);
                 ("kWh", [kwh 5])] |}.

Definition parse_time (s : string) : option Z :=
  if String.eqb s "2025-01-01 00:00" then Some (Calendar.datetime 2025 1 1 0 0 0)
  else if String.eqb s "2025-01-01 01:00" then Some (Calendar.datetime 2025 1 1 1 0 0)
  else if String.eqb s "2025-01-01 02:00" then Some (Calendar.datetime 2025 1 1 2 0 0)
  else None.

#[global] Instance plain_codecs : ForecastingApi.Codecs Q string string string := {|
  ForecastingApi.json_loads_registry s :=
    if String.eqb s "registry" then Some the_registry else None;
  ForecastingApi.keras_load_model s :=
    if String.eqb s "corrupt" then None else Some s;
  ForecastingApi.joblib_load s := Some s;
  ForecastingApi.json_loads_config s := Some s;
  ForecastingApi.json_dumps_bundle m e c := Some ("str(" ++ m ++ ")");
  ForecastingApi.json_loads_bundle s := Some (s, s, None);
  ForecastingApi.read_csv s :=
    if String.eqb s "timestamp,kWh" then Some old_series else None;
  ForecastingApi.read_json s :=
    if String.eqb s "cached" then Some cached_series else None;
  ForecastingApi.to_json df := Some "json";
  ForecastingApi.datetime_of_value v :=
    match v with
    | VTime t => Some t
    | VStr s => parse_time s
    | _ => None
    end
|}.

Definition bucket (weights : string) : ForecastingApi.s3_client :=
  {| ForecastingApi.input_bucket := [("total/site/Sibaya/total_load.csv", "timestamp,kWh")];
     ForecastingApi.output_bucket :=
       {[ "customer_tailored/Sibaya/latest_model.json" := "registry";
          "models/Sibaya/model.h5" := weights;
          "models/Sibaya/encoders.pkl" := "encoders" ]} |}.

(** A cold service: Redis answers and holds nothing, the memory cache is
    empty, S3 holds the bundle of one customer. *)
Definition cold_world (weights : string) : ForecastingApi.world string string string :=
  {| ForecastingApi.redis_client := Some {| redis_up := true; redis_db := ∅ |};
     ForecastingApi.s3 := Some (bucket weights);
     ForecastingApi.model_cache := ∅;
     ForecastingApi.encoders_cache := ∅;
     ForecastingApi.config_cache := ∅;
     ForecastingApi.files := ∅;
     ForecastingApi.now := Calendar.datetime 2025 1 15 8 0 0;
     ForecastingApi.accesses := [] |}.

(** The stored series with its timestamps converted. *)
Definition parsed_series : frame Q :=
  {| nrows := 3;
     columns :=
       [("timestamp", [Some (VTime (Calendar.datetime 2025 1 1 2 0 0));
                       Some (VTime (Calendar.datetime 2025 1 1 0 0 0));
                       Some (VTime (Calendar.datetime 2025 1 1 1 0 0))]);
        ("kWh", [kwh 30; kwh 10; kwh 20])] |}.

(** A service whose Redis holds a frame cached for the last 168 hours. *)
Definition stale_world : ForecastingApi.world string string string :=
  {| ForecastingApi.redis_client :=
       Some {| redis_up := true;
               redis_db := {[ "edge:data:Sibaya:recent_168h" := (1800, "cached") ]} |};
     ForecastingApi.s3 := Some (bucket "weights");
     ForecastingApi.model_cache := ∅;
     ForecastingApi.encoders_cache := ∅;
     ForecastingApi.config_cache := ∅;
     ForecastingApi.files := ∅;
     ForecastingApi.now := Calendar.datetime 2025 1 15 8 0 0;
     ForecastingApi.accesses := [] |}.

(** A service that holds the bundle of the customer in both caches. *)
Definition warm_world : ForecastingApi.world string string string :=
  {| ForecastingApi.redis_client :=
       Some {| redis_up := true;
               redis_db := {[ "edge:model:Sibaya:" := (3600, "str(weights)") ]} |};
     ForecastingApi.s3 := Some (bucket "weights");
     ForecastingApi.model_cache := {[ "Sibaya" := "weights" ]};
     ForecastingApi.encoders_cache := {[ "Sibaya" := "encoders" ]};
     ForecastingApi.config_cache := {[ "Sibaya" := None ]};
     ForecastingApi.files := ∅;
     ForecastingApi.now := Calendar.datetime 2025 1 15 8 0 0;
     ForecastingApi.accesses := [] |}.

(** Encoders fitted on two customers and one region. *)
Definition fitted : ForecastingApi.encoders :=
  {[ "customer_encoder" := ["Alpha"; "Sibaya"];
     "region_encoder" := ["north"] ]}.

(** *** Instances for the forecast handler *)

(** A model that predicts one value for every window, encoders fitted as
    above, and a model description that never fails. *)
#[global] Instance plain_runtime
  : ForecastingApi.Runtime Q string string string string := {|
  ForecastingApi.predict model X := Ok (map (fun _ => [inject_Z 7]) X);
  ForecastingApi.encoders_dict encs := fitted;
  ForecastingApi.model_info config := Ok "customer_validation_lstm"
|}.

(** Decoders that know one cached frame, the series of thirty hours. *)
Definition day_codecs : ForecastingApi.Codecs Q string string string := {|
  ForecastingApi.json_loads_registry s := None;
  ForecastingApi.keras_load_model s := Some s;
  ForecastingApi.joblib_load s := Some s;
  ForecastingApi.json_loads_config s := Some s;
  ForecastingApi.json_dumps_bundle m e c := Some m;
  ForecastingApi.json_loads_bundle s := None;
  ForecastingApi.read_csv s := None;
  ForecastingApi.read_json s := if String.eqb s "day" then Some (hourly 30) else None;
  ForecastingApi.to_json df := Some "day";
  ForecastingApi.datetime_of_value v :=
    match v with VTime t => Some t | _ => None end
|}.

(** A service that holds the bundle of the customer in its memory cache and
    thirty hours of data in Redis. *)
Definition day_world : ForecastingApi.world string string string :=
  {| ForecastingApi.redis_client :=
       Some {| redis_up := true;
               redis_db := {[ "edge:data:Sibaya:recent_168h" := (1800, "day") ]} |};
     ForecastingApi.s3 := None;
     ForecastingApi.model_cache := {[ "Sibaya" := "weights" ]};
     ForecastingApi.encoders_cache := {[ "Sibaya" := "encoders" ]};
     ForecastingApi.config_cache := {[ "Sibaya" := None ]};
     ForecastingApi.files := ∅;
     ForecastingApi.now := Calendar.datetime 2025 1 16 8 0 0;
     ForecastingApi.accesses := [] |}.

(** The cold service while Redis does not answer. *)
Definition outage_world : ForecastingApi.world string string string :=
  {| ForecastingApi.redis_client := Some {| redis_up := false; redis_db := ∅ |};
     ForecastingApi.s3 := Some (bucket "weights");
     ForecastingApi.model_cache := ∅;
     ForecastingApi.encoders_cache := ∅;
     ForecastingApi.config_cache := ∅;
     ForecastingApi.files := ∅;
     ForecastingApi.now := Calendar.datetime 2025 1 15 8 0 0;
     ForecastingApi.accesses := [] |}.

(** The body [{"customer_id": "Sibaya", "forecast_hours": 3}]. *)
Definition sibaya_request : ForecastingApi.json_body :=
  {| ForecastingApi.body_customer_id := Some "Sibaya";
     ForecastingApi.body_forecast_hours := Some 3;
     ForecastingApi.body_other_keys := false |}.

(** *** Instances for the model updater *)

Definition updater_registry : ModelUpdater.registry :=
  {| ModelUpdater.model_path := Some "s3://sa-api-client-output/models/Sibaya/model.h5";
     ModelUpdater.encoders_path :=
       Some "s3://sa-api-client-output/models/Sibaya/encoders.pkl";
     ModelUpdater.config_path := None;
     ModelUpdater.other_keys := false |}.

(** A record is written as an opening brace followed by its timestamp, a
    timestamp as the decimal of its microseconds. *)
#[global] Instance plain_serializer : ModelUpdater.Serializer := {|
  ModelUpdater.json_loads_registry s :=
    if String.eqb s "registry" then Some updater_registry else None;
  ModelUpdater.json_dumps data := "{" ++ ModelUpdater.cd_updated_at data;
  ModelUpdater.isoformat t := Text.str_int t
|}.

(** The decoders that read such records back, for the time of the update
    below. *)
Definition echo_codecs : ModelUpdater.Codecs := {|
  ModelUpdater.json_updated_at s :=
    match s with
    | String _ rest => Ok rest
    | EmptyString => Raise (ValueError "Expecting value")
    end;
  ModelUpdater.fromisoformat s :=
    if String.eqb s (Text.str_int (Calendar.datetime 2025 1 15 8 0 0))
    then Ok (ModelUpdater.Naive (Calendar.datetime 2025 1 15 8 0 0))
    else Raise (ValueError "Invalid isoformat string")
|}.

(** An updater whose bucket holds the registry and the model of one
    customer, and the encoders when [with_encoders] is set. *)
Definition updater_world (with_encoders : bool) : ModelUpdater.world :=
  {| ModelUpdater.redis_client := Some {| redis_up := true; redis_db := ∅ |};
     ModelUpdater.s3 :=
       Some (if with_encoders
             then {[ "customer_tailored/Sibaya/latest_model.json" := "registry";
                     "models/Sibaya/model.h5" := "weights";
                     "models/Sibaya/encoders.pkl" := "encoders" ]}
             else {[ "customer_tailored/Sibaya/latest_model.json" := "registry";
                     "models/Sibaya/model.h5" := "weights" ]});
     ModelUpdater.files := ∅;
     ModelUpdater.directories := ∅;
     ModelUpdater.now := Calendar.datetime 2025 1 15 8 0 0 |}.

(** *** Instances for the device registry *)

(** [str.lower] on the strings of ASCII characters: the letters [A] to [Z]
    become [a] to [z]. *)
Definition lower_char (c : Ascii.ascii) : Ascii.ascii :=
  let n := Ascii.nat_of_ascii c in
  if ((65 <=? n) && (n <=? 90))%nat then Ascii.ascii_of_nat (n + 32) else c.

Fixpoint ascii_lower (s : string) : string :=
  match s with
  | String c s' => String (lower_char c) (ascii_lower s')
  | EmptyString => EmptyString
  end.

#[global] Instance ascii_case_mapping : PyStr.CaseMapping :=
  {| PyStr.lower := ascii_lower |}.

(** The no-break space U+00A0 and the em space U+2003. *)
Definition nbsp : string := String.string_of_list_ascii (PyStr.utf8 160).
Definition emsp : string := String.string_of_list_ascii (PyStr.utf8 8195).

(** The registry in the mode [enforce] with two accepted keys. *)
Definition enforcing : DeviceRegistry.environ :=
  {[ "EDGE_DEVICE_REGISTRY_AUTH_MODE" := " Enforce" ++ nbsp;
     "EDGE_DEVICE_REGISTRY_ALLOWED_API_KEYS" := "alpha, beta" ++ emsp ]}.

(** [GET /api/devices] with the header [X-API-Key: key]. *)
Definition keyed_request (key : string) : DeviceRegistry.request :=
  {| DeviceRegistry.path := "/api/devices";
     DeviceRegistry.method := "GET";
     DeviceRegistry.headers name :=
       if String.eqb name "X-API-Key" then Some key else None |}.

(** An empty registry on a network where no device answers. *)
Definition lonely_registry : DeviceRegistry.state :=
  {| DeviceRegistry.devices := ∅;
     DeviceRegistry.devices_json := None;
     DeviceRegistry.writable := true;
     DeviceRegistry.clock := Calendar.datetime 2025 1 15 8 0 0;
     DeviceRegistry.network url := Raise (Exception_ "ConnectionError") |}.

End Examples.

(** * Properties *)

(** ** Python helpers *)

Lemma for_each_map {A B C} (body : A -> result B) (f : C -> A) (g : C -> B)
    (xs : list C) :
  (forall x, In x xs -> body (f x) = Ok (g x)) ->
  for_each body (map f xs) = Ok (map g xs).
Proof.
  induction xs as [|x xs IH]; intros Hbody; simpl; [reflexivity|].
  rewrite (Hbody x) by (now left).
  rewrite IH by (intros y Hy; apply Hbody; now right).
  reflexivity.
Qed.

Lemma for_each_length {A B} (body : A -> result B) (xs : list A) (ys : list B) :
  for_each body xs = Ok ys -> length ys = length xs.
Proof.
  revert ys; induction xs as [|x xs IH]; intros ys; simpl.
  - intros [= <-]; reflexivity.
  - destruct (body x); [|discriminate].
    destruct (for_each body xs) as [ys'|]; [|discriminate].
    intros [= <-]; simpl; f_equal; now apply IH.
Qed.

(** [l[-(len(l) - i)]] is [l[i]] for [0 <= i < len(l)]. *)
Lemma index_from_end {A} (l : list A) (i : nat) (x : A) :
  nth_error l i = Some x ->
  index l (- (len l - Z.of_nat i)) = Ok x.
Proof.
  intros Hx.
  assert (Hlt : (i < length l)%nat) by (apply nth_error_Some; congruence).
  unfold index, len.
  replace (- (Z.of_nat (length l) - Z.of_nat i) <? 0) with true
    by (symmetry; apply Z.ltb_lt; lia).
  replace (- (Z.of_nat (length l) - Z.of_nat i) + Z.of_nat (length l))
    with (Z.of_nat i) by lia.
  replace (Z.of_nat i <? 0) with false by (symmetry; apply Z.ltb_ge; lia).
  now rewrite Nat2Z.id, Hx.
Qed.

Lemma index_last {A} (l : list A) (x : A) :
  index (l ++ [x]) (-1) = Ok x.
Proof.
  unfold index, len. rewrite length_app. simpl.
  replace (-1 + Z.of_nat (length l + 1)) with (Z.of_nat (length l)) by lia.
  replace (Z.of_nat (length l) <? 0) with false by (symmetry; apply Z.ltb_ge; lia).
  rewrite Nat2Z.id, nth_error_app2 by lia.
  now rewrite Nat.sub_diag.
Qed.

Lemma lookup_repeat {A} (x : A) (n i : nat) :
  (i < n)%nat -> repeat x n !! i = Some x.
Proof.
  revert i; induction n as [|n IH]; intros i Hi; [lia|].
  destruct i as [|i]; simpl; [reflexivity|]. apply IH. lia.
Qed.

Lemma seq_from (a n : nat) : seq a n = map (fun r => (a + r)%nat) (seq 0 n).
Proof.
  revert a; induction n as [|n IH]; intros a; simpl; [reflexivity|].
  rewrite Nat.add_0_r. f_equal.
  rewrite (IH (S a)), <- seq_shift, map_map.
  apply map_ext. intros r. lia.
Qed.

(** ** Forecast assembler *)

Section AssemblerFacts.
Context {V : Type}.
Import ForecastingApi.

Lemma forecast_body_in_range (predictions : list (list V)) latest last_timestamp
    targets (i : nat) :
  (i < length predictions)%nat ->
  forecast_body predictions latest last_timestamp targets (Z.of_nat i)
  = Ok (entry_at predictions last_timestamp targets i).
Proof.
  intros Hi. unfold forecast_body.
  replace (Z.of_nat i <? len predictions) with true
    by (symmetry; apply Z.ltb_lt; unfold len; lia).
  destruct (nth_error predictions i) as [p|] eqn:Hp;
    [|apply nth_error_None in Hp; lia].
  rewrite (index_from_end predictions i p Hp). simpl.
  unfold entry_at. now rewrite (nth_error_nth _ _ _ Hp).
Qed.

(** The assembler returns one entry per hour up to
    [min(forecast_hours, len(predictions))]; the entry for hour [i + 1]
    carries [predictions[i]]. *)
Lemma assemble_forecasts_entries (predictions : list (list V))
    (last_timestamp forecast_hours : Z) (targets : list string) :
  predictions <> [] ->
  assemble_forecasts predictions last_timestamp forecast_hours targets
  = Ok (map (entry_at predictions last_timestamp targets)
            (seq 0 (Z.to_nat (Z.min forecast_hours (len predictions))))).
Proof.
  intros Hne. unfold assemble_forecasts.
  destruct (exists_last Hne) as (l & x & ->).
  rewrite index_last. simpl. unfold range.
  apply for_each_map.
  intros i Hi. apply in_seq in Hi. apply forecast_body_in_range.
  unfold len in Hi. lia.
Qed.

Lemma assemble_forecasts_empty (last_timestamp forecast_hours : Z)
    (targets : list string) :
  assemble_forecasts (V := V) [] last_timestamp forecast_hours targets
  = Raise IndexError.
Proof. reflexivity. Qed.
End AssemblerFacts.

(** C1.  With the last timestamp 2025-01-15T08:00:00, a horizon of 3 hours
    and the five single-target predictions 10, 11, 12, 13, 14 (oldest window
    first, so 14 is the prediction of the latest window), the assembler
    returns three points at 09:00, 10:00 and 11:00 with hours ahead 1, 2, 3,
    and the point for hour 1 carries 10, the prediction of the oldest
    window; the prediction of the latest window is in none of them. *)
Theorem assemble_forecasts_oldest_first :
  let T := Calendar.datetime 2025 1 15 8 0 0 in
  ForecastingApi.assemble_forecasts [[10]; [11]; [12]; [13]; [14]] T 3 ["kWh"]
  = Ok [ {| ForecastingApi.fe_timestamp := Calendar.datetime 2025 1 15 9 0 0;
            ForecastingApi.fe_hour_ahead := 1;
            ForecastingApi.fe_targets := [("kWh_forecast", 10)] |};
         {| ForecastingApi.fe_timestamp := Calendar.datetime 2025 1 15 10 0 0;
            ForecastingApi.fe_hour_ahead := 2;
            ForecastingApi.fe_targets := [("kWh_forecast", 11)] |};
         {| ForecastingApi.fe_timestamp := Calendar.datetime 2025 1 15 11 0 0;
            ForecastingApi.fe_hour_ahead := 3;
            ForecastingApi.fe_targets := [("kWh_forecast", 12)] |} ]
  /\ index [[10]; [11]; [12]; [13]; [14]] (-1) = Ok [14].
Proof. split; vm_compute; reflexivity. Qed.

(** ** Data frames *)

Ltac unfold_result :=
  unfold mbind, mret, result_bind, result_ret in *; simpl in *.

Section FrameFacts.
Context {F : Type} `{FloatOps F}.
Implicit Types (df : frame F) (c : column F).

Lemma assoc_assign name name' c (cs : list (string * column F)) :
  assoc name (assign name' c cs)
  = if String.eqb name name' then Some c else assoc name cs.
Proof.
  induction cs as [|[n c'] cs IH]; simpl.
  - reflexivity.
  - destruct (String.eqb name' n) eqn:E; simpl.
    + apply String.eqb_eq in E; subst n.
      destruct (String.eqb name name'); reflexivity.
    + rewrite IH. destruct (String.eqb name n) eqn:E'; [|reflexivity].
      apply String.eqb_eq in E'; subst n.
      destruct (String.eqb name name') eqn:E''; [|reflexivity].
      apply String.eqb_eq in E''; subst name'.
      rewrite String.eqb_refl in E; discriminate.
Qed.

Lemma get_col_set_col name name' c df :
  get_col name (set_col name' c df)
  = if String.eqb name name' then Ok c else get_col name df.
Proof.
  unfold get_col, set_col; simpl. rewrite assoc_assign.
  destruct (String.eqb name name'); reflexivity.
Qed.

Lemma has_col_assoc name df :
  has_col name df = match assoc name (columns df) with Some _ => true | None => false end.
Proof.
  unfold has_col, column_names.
  induction (columns df) as [|[n c'] cs IH]; simpl; [reflexivity|].
  destruct (String.eqb name n); simpl; [reflexivity | exact IH].
Qed.

Lemma has_col_set_col name name' c df :
  has_col name (set_col name' c df) = String.eqb name name' || has_col name df.
Proof.
  rewrite !has_col_assoc. unfold set_col; simpl. rewrite assoc_assign.
  destruct (String.eqb name name'); reflexivity.
Qed.

Lemma assoc_map_columns name (f : column F -> column F) (cs : list (string * column F)) :
  assoc name (map (fun nc => (fst nc, f (snd nc))) cs) = f <$> assoc name cs.
Proof.
  induction cs as [|[n c'] cs IH]; simpl; [reflexivity|].
  destruct (String.eqb name n); [reflexivity | exact IH].
Qed.

Lemma get_col_map_columns name f n df :
  get_col name (map_columns f n df)
  = match get_col name df with Ok c => Ok (f c) | Raise e => Raise e end.
Proof.
  unfold get_col, map_columns; simpl. rewrite assoc_map_columns.
  destruct (assoc name (columns df)); reflexivity.
Qed.

Lemma has_col_map_columns name f n df :
  has_col name (map_columns f n df) = has_col name df.
Proof.
  rewrite !has_col_assoc. unfold map_columns; simpl. rewrite assoc_map_columns.
  destruct (assoc name (columns df)); reflexivity.
Qed.

(** *** Well-formed frames *)

Lemma wf_get_col name df c :
  wf_frame df -> get_col name df = Ok c -> length c = nrows df.
Proof.
  unfold wf_frame, get_col. intros Hwf.
  induction (columns df) as [|[n c'] cs IH]; simpl; [discriminate|].
  inversion Hwf as [|? ? Hc Hcs]; subst.
  destruct (String.eqb name n).
  - intros [= <-]; exact Hc.
  - apply IH; exact Hcs.
Qed.

Lemma wf_set_col name c df :
  wf_frame df -> length c = nrows df -> wf_frame (set_col name c df).
Proof.
  unfold wf_frame, set_col; simpl. intros Hwf Hc.
  induction (columns df) as [|[n c'] cs IH]; simpl.
  - repeat constructor; exact Hc.
  - inversion Hwf as [|? ? Hc' Hcs]; subst.
    destruct (String.eqb name n); constructor; auto.
Qed.

Lemma wf_map_columns (f : column F -> column F) n df :
  (forall c, length c = nrows df -> length (f c) = n) ->
  wf_frame df -> wf_frame (map_columns f n df).
Proof.
  unfold wf_frame, map_columns; simpl. intros Hf Hwf.
  apply Forall_map. eapply Forall_impl; [exact Hwf|].
  intros [n' c'] Hc; simpl in *. now apply Hf.
Qed.

Lemma length_broadcast (v : cell F) df : length (broadcast v df) = nrows df.
Proof. apply repeat_length. Qed.

Lemma length_shift k c : length (shift k c) = length c.
Proof.
  unfold shift. rewrite firstn_length_le; [reflexivity|].
  rewrite length_app. apply Nat.le_add_l.
Qed.

Lemma length_rolling w p agg c : length (rolling w p agg c) = length c.
Proof. unfold rolling. now rewrite length_map, length_seq. Qed.

Lemma length_group_mean keys c : length (group_mean keys c) = length keys.
Proof. unfold group_mean. now rewrite length_map. Qed.

Lemma length_div_eps (a b : column F) :
  length (div_eps a b) = Nat.min (length a) (length b).
Proof. unfold div_eps. now rewrite length_map, length_combine. Qed.

Lemma length_insert_sorted key i l :
  length (insert_sorted key i l) = S (length l).
Proof.
  induction l as [|j l IH]; simpl; [reflexivity|].
  destruct (time_le (key i) (key j)); simpl; [reflexivity | now rewrite IH].
Qed.

Lemma length_argsort keys : length (argsort keys) = length keys.
Proof.
  unfold argsort. set (key := fun i => nth i keys None).
  assert (Hfold : forall l, length (foldr (insert_sorted key) [] l) = length l).
  { induction l as [|i l IH]; simpl; [reflexivity|].
    now rewrite length_insert_sorted, IH. }
  rewrite Hfold. apply length_seq.
Qed.

Lemma length_take_rows idx c : length (take_rows idx c) = length idx.
Proof. unfold take_rows. apply length_map. Qed.

Lemma sort_values_nrows by_ df df' :
  sort_values by_ df = Ok df' -> nrows df' = nrows df.
Proof.
  unfold sort_values. unfold_result.
  destruct (get_col by_ df); [|discriminate].
  destruct (forallb is_datetime a); [|discriminate].
  intros [= <-]; reflexivity.
Qed.

Lemma wf_sort_values by_ df df' :
  wf_frame df -> sort_values by_ df = Ok df' -> wf_frame df'.
Proof.
  intros Hwf. unfold sort_values. unfold_result.
  destruct (get_col by_ df) as [keys|] eqn:Hk; [|discriminate].
  destruct (forallb is_datetime keys); [|discriminate].
  intros [= <-]. apply wf_map_columns; [|exact Hwf].
  intros c Hc. rewrite length_take_rows, length_take, length_argsort, length_map.
  rewrite (wf_get_col _ _ _ Hwf Hk). lia.
Qed.

Lemma sort_values_has_col by_ name df df' :
  sort_values by_ df = Ok df' ->
  has_col name df' = has_col name df.
Proof.
  unfold sort_values. unfold_result.
  destruct (get_col by_ df); [|discriminate].
  destruct (forallb is_datetime a); [|discriminate].
  intros [= <-]. apply has_col_map_columns.
Qed.

(** *** Filling *)

Lemma length_ffill_from last c : length (ffill_from last c) = length c.
Proof.
  revert last; induction c as [|[v|] c IH]; intros last; simpl; auto.
Qed.

Lemma length_bfill c : length (bfill c) = length c.
Proof. induction c as [|[v|] c IH]; simpl; auto. Qed.

Lemma length_fillna v c : length (fillna v c) = length c.
Proof. apply length_map. Qed.

(** After [fillna(v)] no cell of the column is missing. *)
Lemma fillna_no_missing v c : existsb isnan (fillna v c) = false.
Proof.
  induction c as [|[x|] c IH]; simpl; auto.
Qed.
End FrameFacts.

(** ** Feature pipeline *)

Section PipelineFacts.
Context {F : Type} `{FloatOps F}.
Import ForecastingApi.
Implicit Types (df : frame F) (c : column F) (encs : encoders).

Lemma transform_length enc labels c :
  transform enc labels = Ok c -> length c = length labels.
Proof. apply for_each_length. Qed.

Lemma encode_length encs enc_name col_name df c :
  wf_frame df -> encode encs enc_name col_name df = Ok c -> length c = nrows df.
Proof.
  intros Hwf. unfold encode. unfold_result.
  destruct (encs !! enc_name); simpl; [|discriminate].
  destruct (get_col col_name df) as [c0|] eqn:Hc0; [|discriminate].
  intros Ht. apply transform_length in Ht.
  rewrite Ht, length_map. eapply wf_get_col; eauto.
Qed.

Lemma nrows_encode_or_default encs enc_name col_name out df :
  nrows (encode_or_default encs enc_name col_name out df) = nrows df.
Proof. unfold encode_or_default. destruct (encode _ _ _ _); reflexivity. Qed.

Lemma wf_encode_or_default encs enc_name col_name out df :
  wf_frame df -> wf_frame (encode_or_default encs enc_name col_name out df).
Proof.
  intros Hwf. unfold encode_or_default.
  destruct (encode _ _ _ _) eqn:E; apply wf_set_col; auto.
  - eapply encode_length; eauto.
  - apply length_broadcast.
Qed.

Lemma get_col_encode_or_default name encs enc_name col_name out df :
  String.eqb name out = false ->
  get_col name (encode_or_default encs enc_name col_name out df) = get_col name df.
Proof.
  intros Hne. unfold encode_or_default.
  destruct (encode _ _ _ _); rewrite get_col_set_col, Hne; reflexivity.
Qed.

Lemma has_col_encode_or_default name encs enc_name col_name out df :
  String.eqb name out = false ->
  has_col name (encode_or_default encs enc_name col_name out df) = has_col name df.
Proof.
  intros Hne. unfold encode_or_default.
  destruct (encode _ _ _ _); rewrite has_col_set_col, Hne; reflexivity.
Qed.

Lemma nrows_add_customer_id cid df : nrows (add_customer_id cid df) = nrows df.
Proof. unfold add_customer_id. destruct (has_col _ _); reflexivity. Qed.

Lemma wf_add_customer_id cid df : wf_frame df -> wf_frame (add_customer_id cid df).
Proof.
  intros Hwf. unfold add_customer_id. destruct (has_col _ _); [exact Hwf|].
  apply wf_set_col; [exact Hwf | apply length_broadcast].
Qed.

Lemma get_col_add_customer_id name cid df :
  String.eqb name "customer_id" = false ->
  get_col name (add_customer_id cid df) = get_col name df.
Proof.
  intros Hne. unfold add_customer_id.
  destruct (has_col "customer_id" df); [reflexivity|].
  now rewrite get_col_set_col, Hne.
Qed.

Lemma has_col_add_customer_id name cid df :
  String.eqb name "customer_id" = false ->
  has_col name (add_customer_id cid df) = has_col name df.
Proof.
  intros Hne. unfold add_customer_id.
  destruct (has_col "customer_id" df); [reflexivity|].
  now rewrite has_col_set_col, Hne.
Qed.

Lemma nrows_encode_categoricals encs df :
  nrows (encode_categoricals encs df) = nrows df.
Proof.
  unfold encode_categoricals.
  repeat (destruct (has_col _ _); simpl);
    rewrite ?nrows_encode_or_default; simpl;
    rewrite ?nrows_encode_or_default; simpl;
    rewrite ?nrows_encode_or_default; reflexivity.
Qed.

Lemma wf_encode_categoricals encs df :
  wf_frame df -> wf_frame (encode_categoricals encs df).
Proof.
  intros Hwf. unfold encode_categoricals.
  assert (H1 := wf_encode_or_default encs "customer_encoder" "customer_id"
                  "customer_encoded" df Hwf).
  set (d1 := encode_or_default encs "customer_encoder" "customer_id"
               "customer_encoded" df) in *.
  assert (H2 : wf_frame
                 (if has_col "manufacturer" d1
                  then encode_or_default encs "manufacturer_encoder" "manufacturer"
                         "manufacturer_encoded" d1
                  else set_col "manufacturer_encoded" (broadcast (Some (VInt 0)) d1) d1)).
  { destruct (has_col "manufacturer" d1).
    - now apply wf_encode_or_default.
    - apply wf_set_col; [exact H1 | apply length_broadcast]. }
  match goal with |- wf_frame (if has_col _ ?d then _ else _) => set (d2 := d) in * end.
  destruct (has_col "region" d2).
  - now apply wf_encode_or_default.
  - apply wf_set_col; [exact H2 | apply length_broadcast].
Qed.

Lemma get_col_encode_categoricals name encs df :
  encoded_name name = false ->
  get_col name (encode_categoricals encs df) = get_col name df.
Proof.
  unfold encoded_name. intros Hne.
  apply orb_false_elim in Hne as [Hne Hr].
  apply orb_false_elim in Hne as [Hc Hm].
  unfold encode_categoricals.
  repeat match goal with
         | |- context [if has_col ?n ?d then _ else _] => destruct (has_col n d)
         end;
    rewrite ?get_col_encode_or_default, ?get_col_set_col, ?Hm, ?Hr by assumption;
    rewrite ?get_col_encode_or_default, ?get_col_set_col, ?Hm, ?Hr by assumption;
    rewrite ?get_col_encode_or_default, ?get_col_set_col, ?Hc by assumption;
    reflexivity.
Qed.

Lemma has_col_encode_categoricals name encs df :
  encoded_name name = false ->
  has_col name (encode_categoricals encs df) = has_col name df.
Proof.
  intros Hne. rewrite !has_col_assoc.
  assert (Hg := get_col_encode_categoricals name encs df Hne).
  unfold get_col in Hg.
  destruct (assoc name (columns (encode_categoricals encs df)));
    destruct (assoc name (columns df)); congruence.
Qed.

(** *** The stages that may raise *)

Lemma add_time_features_inv df d :
  add_time_features df = Ok d ->
  exists ts, get_col "timestamp" df = Ok ts /\ forallb is_datetime ts = true /\
    d = set_col "is_weekend" (ge_as_int 5 (dt_field Calendar.dayofweek ts))
          (set_col "month" (dt_field Calendar.month ts)
             (set_col "day_of_week" (dt_field Calendar.dayofweek ts)
                (set_col "hour" (dt_field Calendar.hour ts) df))).
Proof.
  unfold add_time_features. unfold_result.
  destruct (get_col "timestamp" df) as [ts|] eqn:Hts; [|discriminate].
  destruct (forallb is_datetime ts) eqn:Hdt; simpl; [|discriminate].
  intros [= <-]. exists ts. auto.
Qed.

Lemma add_time_features_ok df ts :
  get_col "timestamp" df = Ok ts -> forallb is_datetime ts = true ->
  add_time_features df
  = Ok (set_col "is_weekend" (ge_as_int 5 (dt_field Calendar.dayofweek ts))
          (set_col "month" (dt_field Calendar.month ts)
             (set_col "day_of_week" (dt_field Calendar.dayofweek ts)
                (set_col "hour" (dt_field Calendar.hour ts) df)))).
Proof.
  intros Hts Hdt. unfold add_time_features. unfold_result.
  now rewrite Hts, Hdt.
Qed.

Lemma length_dt_field field (ts : column F) : length (dt_field field ts) = length ts.
Proof. apply length_map. Qed.

Lemma length_ge_as_int k c : length (ge_as_int k c) = length c.
Proof. apply length_map. Qed.

Lemma sort_values_ok by_ df keys :
  get_col by_ df = Ok keys -> forallb is_datetime keys = true ->
  sort_values by_ df
  = Ok (map_columns (take_rows (firstn (nrows df) (argsort (map time_of keys))))
                    (nrows df) df).
Proof.
  intros Hk Hdt. unfold sort_values. unfold_result. now rewrite Hk, Hdt.
Qed.

Lemma sort_values_inv by_ df d :
  sort_values by_ df = Ok d ->
  exists keys, get_col by_ df = Ok keys /\ forallb is_datetime keys = true /\
    d = map_columns (take_rows (firstn (nrows df) (argsort (map time_of keys))))
                    (nrows df) df.
Proof.
  unfold sort_values. unfold_result.
  destruct (get_col by_ df) as [keys|] eqn:Hk; [|discriminate].
  destruct (forallb is_datetime keys) eqn:Hdt; [|discriminate].
  intros [= <-]. eauto.
Qed.

Lemma add_lag_features_inv df d :
  add_lag_features df = Ok d ->
  exists sorted kwh,
    sort_values "timestamp" df = Ok sorted /\ get_col "kWh" sorted = Ok kwh /\
    d = with_lags sorted kwh.
Proof.
  unfold add_lag_features. unfold_result.
  destruct (sort_values "timestamp" df) as [sorted|]; [|discriminate].
  destruct (get_col "kWh" sorted) as [kwh|] eqn:Hk; [|discriminate].
  intros [= <-]. exists sorted, kwh. repeat split. exact Hk.
Qed.

Lemma add_lag_features_ok df sorted kwh :
  sort_values "timestamp" df = Ok sorted -> get_col "kWh" sorted = Ok kwh ->
  add_lag_features df = Ok (with_lags sorted kwh).
Proof.
  intros Hs Hk. unfold add_lag_features. unfold_result.
  now rewrite Hs, Hk.
Qed.

Lemma add_rolling_features_inv df d :
  add_rolling_features df = Ok d ->
  exists kwh, get_col "kWh" df = Ok kwh /\ d = with_rolling df kwh.
Proof.
  unfold add_rolling_features. unfold_result.
  destruct (get_col "kWh" df) as [kwh|] eqn:Hk; [|discriminate].
  intros [= <-]. eauto.
Qed.

Lemma add_kwh_features_absent df :
  has_col "kWh" df = false -> add_kwh_features df = Ok df.
Proof. intros Hk. unfold add_kwh_features. now rewrite Hk. Qed.

Lemma add_kwh_features_present df :
  has_col "kWh" df = true ->
  add_kwh_features df
  = match get_col "kWh" df with
    | Raise e => Raise e
    | Ok kwh =>
        if negb (forallb is_numeric kwh) then Raise TypeError
        else match get_col "hour" df with
             | Raise e => Raise e
             | Ok hour =>
                 match add_lag_features (with_statistics df kwh hour) with
                 | Raise e => Raise e
                 | Ok d => add_rolling_features d
                 end
             end
    end.
Proof.
  intros Hk. unfold add_kwh_features. rewrite Hk. simpl negb. cbv iota.
  unfold_result.
  destruct (get_col "kWh" df) as [kwh|]; [|reflexivity].
  destruct (forallb is_numeric kwh); reflexivity.
Qed.

Ltac split_names H :=
  unfold derived_name, derived_names in H; simpl List.existsb in H;
  repeat (apply orb_false_elim in H as [? H]).

Ltac rewrite_names :=
  repeat match goal with
         | E : String.eqb _ _ = false |- _ => rewrite E; clear E
         end.

(** The derived columns are new: the other columns are as before. *)
Lemma get_col_with_statistics name df kwh hour :
  derived_name name = false ->
  get_col name (with_statistics df kwh hour) = get_col name df.
Proof.
  intros Hne. split_names Hne.
  unfold with_statistics. cbv zeta. rewrite !get_col_set_col.
  rewrite_names. reflexivity.
Qed.

Lemma get_col_with_lags name sorted kwh :
  derived_name name = false ->
  get_col name (with_lags sorted kwh) = get_col name sorted.
Proof.
  intros Hne. split_names Hne.
  unfold with_lags. cbv zeta.
  destruct (24 <? _)%nat; rewrite !get_col_set_col; rewrite_names; reflexivity.
Qed.

Lemma get_col_with_rolling name df kwh :
  derived_name name = false ->
  get_col name (with_rolling df kwh) = get_col name df.
Proof.
  intros Hne. split_names Hne.
  unfold with_rolling. cbv zeta. rewrite !get_col_set_col.
  rewrite_names. reflexivity.
Qed.

Lemma get_col_with_rolling_lag df kwh :
  get_col "kwh_lag_24h" (with_rolling df kwh) = get_col "kwh_lag_24h" df.
Proof. unfold with_rolling. cbv zeta. now rewrite !get_col_set_col. Qed.

Lemma get_col_time_features name df d :
  derived_name name = false ->
  add_time_features df = Ok d -> get_col name d = get_col name df.
Proof.
  intros Hne Hd. split_names Hne.
  apply add_time_features_inv in Hd as (ts & _ & _ & ->).
  rewrite !get_col_set_col. rewrite_names. reflexivity.
Qed.

(** *** Row counts and well-formedness *)

Lemma wf_frameb_true df : wf_frameb df = true <-> wf_frame df.
Proof.
  unfold wf_frameb, wf_frame. rewrite forallb_forall, Forall_forall.
  split; intros Hall x Hx.
  - apply Nat.eqb_eq, Hall. now apply list_elem_of_In.
  - apply Nat.eqb_eq, Hall. now apply list_elem_of_In.
Qed.

Lemma nrows_with_statistics df kwh hour :
  nrows (with_statistics df kwh hour) = nrows df.
Proof. reflexivity. Qed.

Lemma nrows_with_lags sorted kwh : nrows (with_lags sorted kwh) = nrows sorted.
Proof. unfold with_lags. cbv zeta. destruct (24 <? _)%nat; reflexivity. Qed.

Lemma nrows_with_rolling df kwh : nrows (with_rolling df kwh) = nrows df.
Proof. reflexivity. Qed.

Lemma wf_with_statistics df kwh hour :
  wf_frame df -> length kwh = nrows df -> length hour = nrows df ->
  wf_frame (with_statistics df kwh hour).
Proof.
  intros Hwf Hk Hh. unfold with_statistics. cbv zeta.
  repeat (apply wf_set_col);
    rewrite ?length_div_eps, ?length_group_mean, ?length_broadcast; simpl;
    auto; lia.
Qed.

Lemma wf_with_lags sorted kwh :
  wf_frame sorted -> length kwh = nrows sorted -> wf_frame (with_lags sorted kwh).
Proof.
  intros Hwf Hk. unfold with_lags. cbv zeta.
  destruct (24 <? _)%nat; repeat (apply wf_set_col);
    rewrite ?length_shift, ?length_broadcast; auto.
Qed.

Lemma wf_with_rolling df kwh :
  wf_frame df -> length kwh = nrows df -> wf_frame (with_rolling df kwh).
Proof.
  intros Hwf Hk. unfold with_rolling. cbv zeta.
  repeat (apply wf_set_col); rewrite ?length_rolling; auto.
Qed.

Lemma wf_time_features df d :
  wf_frame df -> add_time_features df = Ok d -> wf_frame d /\ nrows d = nrows df.
Proof.
  intros Hwf Hd. apply add_time_features_inv in Hd as (ts & Hts & _ & ->).
  apply (wf_get_col _ _ _ Hwf) in Hts.
  split; [|reflexivity].
  repeat (apply wf_set_col);
    rewrite ?length_ge_as_int, ?length_dt_field; auto.
Qed.

Lemma wf_fill_missing df : wf_frame df -> wf_frame (fill_missing df).
Proof.
  intros Hwf. apply wf_map_columns; [|exact Hwf].
  intros c Hc. unfold fill_column, ffill.
  now rewrite length_fillna, length_bfill, length_ffill_from.
Qed.

(** After the final fill no cell is missing. *)
Lemma fill_missing_no_missing df : no_missing (fill_missing df) = true.
Proof.
  unfold no_missing, fill_missing, map_columns; simpl.
  rewrite forallb_forall. intros [n c] Hin.
  apply in_map_iff in Hin as ([n' c'] & [= <- <-] & _).
  simpl. unfold fill_column. now rewrite fillna_no_missing.
Qed.

Lemma has_col_get_col name df :
  has_col name df = true -> exists c, get_col name df = Ok c.
Proof.
  rewrite has_col_assoc. unfold get_col.
  destruct (assoc name (columns df)) as [c|]; [eauto | discriminate].
Qed.

Lemma get_col_has_col name df c : get_col name df = Ok c -> has_col name df = true.
Proof.
  rewrite has_col_assoc. unfold get_col.
  destruct (assoc name (columns df)); [reflexivity | discriminate].
Qed.

Lemma has_col_of_get_col name df df' :
  get_col name df' = get_col name df -> has_col name df' = has_col name df.
Proof.
  rewrite !has_col_assoc. unfold get_col.
  destruct (assoc name (columns df')), (assoc name (columns df)); congruence.
Qed.

Lemma is_timeseries_frame_inv df :
  is_timeseries_frame df = true ->
  wf_frame df
  /\ (exists ts, get_col "timestamp" df = Ok ts /\ forallb is_datetime ts = true)
  /\ (forall kwh, get_col "kWh" df = Ok kwh -> forallb is_numeric kwh = true).
Proof.
  unfold is_timeseries_frame. intros Hts.
  apply andb_prop in Hts as [Hts Hk]. apply andb_prop in Hts as [Hwf Hts].
  split; [now apply wf_frameb_true|]. split.
  - destruct (get_col "timestamp" df) as [ts|]; [eauto | discriminate].
  - intros kwh Hkwh. now rewrite Hkwh in Hk.
Qed.

(** The frame after the metadata and encoding steps (lines 263-291). *)
Lemma encoded_frame_facts df cid encs :
  wf_frame df ->
  let d0 := encode_categoricals encs (add_customer_id cid df) in
  wf_frame d0 /\ nrows d0 = nrows df
  /\ get_col "timestamp" d0 = get_col "timestamp" df
  /\ get_col "kWh" d0 = get_col "kWh" df.
Proof.
  intros Hwf d0. subst d0. repeat split.
  - now apply wf_encode_categoricals, wf_add_customer_id.
  - now rewrite nrows_encode_categoricals, nrows_add_customer_id.
  - now rewrite get_col_encode_categoricals, get_col_add_customer_id.
  - now rewrite get_col_encode_categoricals, get_col_add_customer_id.
Qed.

(** On a TimeSeriesFrame no stage raises; the derived frame is built on
    the frame [d1] that carries the encoded and the time columns, which
    is sorted by timestamp when the primary metric is present. *)
Lemma derive_features_spec df cid encs :
  is_timeseries_frame df = true ->
  exists d1,
    add_time_features (encode_categoricals encs (add_customer_id cid df)) = Ok d1
    /\ wf_frame d1 /\ nrows d1 = nrows df
    /\ if has_col "kWh" df
       then exists kwh0 hour sorted kwh,
           get_col "kWh" d1 = Ok kwh0
           /\ sort_values "timestamp" (with_statistics d1 kwh0 hour) = Ok sorted
           /\ get_col "kWh" sorted = Ok kwh
           /\ wf_frame sorted /\ nrows sorted = nrows df
           /\ length kwh = nrows df
           /\ derive_features df cid encs
              = Ok (with_rolling (with_lags sorted kwh) kwh)
       else derive_features df cid encs = Ok d1.
Proof.
  intros Hts. apply is_timeseries_frame_inv in Hts as (Hwf & (ts & Hts & Hdt) & Hnum).
  destruct (encoded_frame_facts df cid encs Hwf) as (Hwf0 & Hn0 & Hts0 & Hk0).
  set (d0 := encode_categoricals encs (add_customer_id cid df)) in *.
  rewrite Hts in Hts0.
  pose proof (add_time_features_ok d0 ts Hts0 Hdt) as Hd1.
  set (d1 := set_col "is_weekend" _ _) in Hd1.
  destruct (wf_time_features d0 d1 Hwf0 Hd1) as (Hwf1 & Hn1).
  exists d1. split; [exact Hd1|]. split; [exact Hwf1|]. split; [congruence|].
  assert (Hk1 : get_col "kWh" d1 = get_col "kWh" df).
  { rewrite (get_col_time_features "kWh" d0 d1) by (reflexivity || exact Hd1).
    exact Hk0. }
  assert (Hts1 : get_col "timestamp" d1 = Ok ts).
  { rewrite (get_col_time_features "timestamp" d0 d1) by (reflexivity || exact Hd1).
    exact Hts0. }
  assert (Hh1 : get_col "hour" d1 = Ok (dt_field Calendar.hour ts)).
  { subst d1. rewrite !get_col_set_col. reflexivity. }
  unfold derive_features. fold d0. rewrite Hd1. unfold_result.
  destruct (has_col "kWh" df) eqn:Hhas.
  - destruct (has_col_get_col _ _ Hhas) as (kwh0 & Hkwh0).
    rewrite Hkwh0 in Hk1.
    rewrite add_kwh_features_present by (eapply get_col_has_col; eauto).
    rewrite Hk1, (Hnum _ Hkwh0), Hh1. simpl negb. cbv iota.
    set (hour := dt_field Calendar.hour ts) in *.
    set (d2 := with_statistics d1 kwh0 hour).
    assert (Hlk : length kwh0 = nrows d1) by (eapply wf_get_col; eauto).
    assert (Hlh : length hour = nrows d1) by (eapply wf_get_col; eauto).
    assert (Hwf2 : wf_frame d2) by (now apply wf_with_statistics).
    assert (Hts2 : get_col "timestamp" d2 = Ok ts).
    { subst d2. now rewrite get_col_with_statistics. }
    assert (Hk2 : get_col "kWh" d2 = Ok kwh0).
    { subst d2. now rewrite get_col_with_statistics. }
    pose proof (sort_values_ok "timestamp" d2 ts Hts2 Hdt) as Hsort.
    set (sorted := map_columns _ _ d2) in Hsort.
    assert (Hwfs : wf_frame sorted) by (eapply wf_sort_values; eauto).
    assert (Hns : nrows sorted = nrows df).
    { rewrite (sort_values_nrows _ _ _ Hsort).
      exact (eq_trans Hn1 Hn0). }
    assert (exists kwh, get_col "kWh" sorted = Ok kwh) as (kwh & Hks).
    { subst sorted. rewrite get_col_map_columns, Hk2. eauto. }
    assert (Hlks : length kwh = nrows sorted) by (eapply wf_get_col; eauto).
    rewrite (add_lag_features_ok d2 sorted kwh Hsort Hks).
    unfold add_rolling_features. unfold_result.
    rewrite get_col_with_lags, Hks by reflexivity.
    exists kwh0, hour, sorted, kwh. repeat split; auto; congruence.
  - rewrite add_kwh_features_absent; [reflexivity|].
    transitivity (has_col "kWh" df); [|exact Hhas].
    apply has_col_of_get_col. exact Hk1.
Qed.

(** *** Filling keeps the valid cells *)

Lemma ffill_from_keeps last c i (v : value F) :
  c !! i = Some (Some v) -> ffill_from last c !! i = Some (Some v).
Proof.
  revert last i; induction c as [|x c IH]; intros last i; [now destruct i|].
  destruct i as [|i]; simpl.
  - intros [= ->]. reflexivity.
  - intros Hi. destruct x; simpl; now apply IH.
Qed.

Lemma bfill_keeps c i (v : value F) :
  c !! i = Some (Some v) -> bfill c !! i = Some (Some v).
Proof.
  revert i; induction c as [|x c IH]; intros i; [now destruct i|].
  destruct i as [|i]; simpl.
  - intros [= ->]. reflexivity.
  - intros Hi. destruct x; simpl; now apply IH.
Qed.

Lemma fillna_keeps z c i (v : value F) :
  c !! i = Some (Some v) -> fillna z c !! i = Some (Some v).
Proof.
  unfold fillna. revert i; induction c as [|x c IH]; intros i; [now destruct i|].
  destruct i as [|i]; simpl.
  - intros [= ->]. reflexivity.
  - apply IH.
Qed.

Lemma fill_column_keeps c i (v : value F) :
  c !! i = Some (Some v) -> fill_column c !! i = Some (Some v).
Proof.
  intros Hi. unfold fill_column, ffill.
  now apply fillna_keeps, bfill_keeps, ffill_from_keeps.
Qed.

Lemma ffill_from_repeat last (v : value F) n :
  ffill_from last (repeat (Some v) n) = repeat (Some v) n.
Proof. revert last; induction n as [|n IH]; intros last; simpl; [|rewrite IH]; auto. Qed.

Lemma bfill_repeat (v : value F) n : bfill (repeat (Some v) n) = repeat (Some v) n.
Proof. induction n as [|n IH]; simpl; [|rewrite IH]; auto. Qed.

(** A column without a missing cell is left as it is. *)
Lemma fill_column_repeat (v : value F) n :
  fill_column (repeat (Some v) n) = repeat (Some v) n.
Proof.
  unfold fill_column, ffill. rewrite ffill_from_repeat, bfill_repeat.
  unfold fillna. induction n as [|n IH]; simpl; [|rewrite IH]; auto.
Qed.

Lemma get_col_fill_missing name df :
  get_col name (fill_missing df)
  = match get_col name df with
    | Ok c => Ok (fill_column c)
    | Raise e => Raise e
    end.
Proof. apply get_col_map_columns. Qed.

(** Row [i] of [c.shift(k)] is row [i - k] of [c]. *)
Lemma lookup_shift k c i :
  (k <= i)%nat -> (i < length c)%nat -> shift k c !! i = c !! (i - k)%nat.
Proof.
  intros Hk Hi. unfold shift.
  rewrite lookup_take_lt by exact Hi.
  rewrite lookup_app_r by (rewrite repeat_length; exact Hk).
  now rewrite repeat_length.
Qed.

Lemma lookup_shift_before k c i : (i < k)%nat -> (i < length c)%nat -> shift k c !! i = Some None.
Proof.
  intros Hk Hi. unfold shift.
  rewrite lookup_take_lt by exact Hi.
  rewrite lookup_app_l by (rewrite repeat_length; exact Hk).
  apply lookup_repeat; exact Hk.
Qed.

(** *** The returned frame *)

Lemma derive_features_total df cid encs :
  is_timeseries_frame df = true ->
  exists d, derive_features df cid encs = Ok d
            /\ wf_frame d /\ nrows d = nrows df.
Proof.
  intros Hts.
  destruct (derive_features_spec df cid encs Hts) as (d1 & _ & Hwf1 & Hn1 & Hd).
  destruct (has_col "kWh" df).
  - destruct Hd as (kwh0 & hour & sorted & kwh & _ & _ & _ & Hwfs & Hns & Hlk & ->).
    eexists. split; [reflexivity|]. split.
    + apply wf_with_rolling; [apply wf_with_lags|];
        rewrite ?nrows_with_lags; congruence.
    + now rewrite nrows_with_rolling, nrows_with_lags.
  - eauto.
Qed.

(** C3.  For every TimeSeriesFrame the feature preparation returns a
    frame; the returned frame has the row count of the input, each of its
    columns has one cell per row, and after the final forward fill,
    backward fill and zero fill none of its cells is missing. *)
Theorem prepare_features_rows_and_no_missing df cid encs :
  is_timeseries_frame df = true ->
  exists out,
    prepare_features_for_inference df cid encs = Ok out
    /\ nrows out = nrows df
    /\ wf_frame out
    /\ no_missing out = true.
Proof.
  intros Hts.
  destruct (derive_features_total df cid encs Hts) as (d & Hd & Hwf & Hn).
  exists (fill_missing d). unfold prepare_features_for_inference.
  rewrite Hd. unfold_result. repeat split.
  - exact Hn.
  - now apply wf_fill_missing.
  - apply fill_missing_no_missing.
Qed.

(** C5.  When the primary metric [kWh] is present in a TimeSeriesFrame,
    the pipeline computes (lines 318-325), on the frame sorted by
    timestamp whose primary metric is the column [kwh]: with at least 25
    rows, the column [kwh_lag_24h] as [kwh] shifted by 24 rows; with fewer
    than 25 rows, as the frame-level mean of [kwh] in every row.  In the
    returned frame, after the final fill, row [i >= 24] of the lag column
    is still row [i - 24] of [kwh] wherever that one is not missing, and
    with fewer than 25 rows every row is still the mean whenever the mean
    is a number. *)
Theorem kwh_lag_24h_column df cid encs :
  is_timeseries_frame df = true ->
  has_col "kWh" df = true ->
  exists d out kwh,
    derive_features df cid encs = Ok d
    /\ prepare_features_for_inference df cid encs = Ok out
    /\ get_col "kWh" d = Ok kwh
    /\ length kwh = nrows df
    /\ get_col "kwh_lag_24h" d
       = Ok (if (25 <=? nrows df)%nat then shift 24 kwh
             else repeat (mean kwh) (nrows df))
    /\ ((25 <= nrows df)%nat ->
        forall i v, (24 <= i < nrows df)%nat -> kwh !! (i - 24)%nat = Some (Some v) ->
        exists lag, get_col "kwh_lag_24h" out = Ok lag /\ lag !! i = Some (Some v))
    /\ ((nrows df < 25)%nat ->
        forall m, mean kwh = Some m ->
        get_col "kwh_lag_24h" out = Ok (repeat (Some m) (nrows df))).
Proof.
  intros Hts Hhas.
  destruct (derive_features_spec df cid encs Hts) as (d1 & _ & _ & _ & Hd).
  rewrite Hhas in Hd.
  destruct Hd as (kwh0 & hour & sorted & kwh & _ & _ & Hk & _ & Hns & Hlk & Hd).
  set (d := with_rolling (with_lags sorted kwh) kwh) in *.
  assert (Hlag : get_col "kwh_lag_24h" d
                 = Ok (if (25 <=? nrows df)%nat then shift 24 kwh
                       else repeat (mean kwh) (nrows df))).
  { subst d. rewrite get_col_with_rolling_lag.
    unfold with_lags. cbv zeta. simpl nrows. rewrite Hns.
    destruct (24 <? nrows df)%nat eqn:E1, (25 <=? nrows df)%nat eqn:E2;
      rewrite get_col_set_col; simpl;
      try reflexivity.
    - apply Nat.ltb_lt in E1. apply Nat.leb_gt in E2. lia.
    - apply Nat.ltb_ge in E1. apply Nat.leb_le in E2. lia.
    - unfold broadcast. simpl nrows. now rewrite Hns. }
  exists d, (fill_missing d), kwh.
  split; [exact Hd|]. split.
  { unfold prepare_features_for_inference. now rewrite Hd. }
  split.
  { subst d. now rewrite get_col_with_rolling, get_col_with_lags. }
  split; [exact Hlk|]. split; [exact Hlag|]. split.
  - intros Hn i v Hi Hv. rewrite get_col_fill_missing, Hlag.
    apply Nat.leb_le in Hn. rewrite Hn.
    eexists. split; [reflexivity|].
    apply fill_column_keeps. rewrite lookup_shift by lia. exact Hv.
  - intros Hn m Hm. rewrite get_col_fill_missing, Hlag.
    apply Nat.leb_gt in Hn. rewrite Hn, Hm.
    now rewrite fill_column_repeat.
Qed.

(** *** Constant columns through the pipeline *)

Lemma insert_sorted_Forall (P : nat -> Prop) key i l :
  P i -> Forall P l -> Forall P (insert_sorted key i l).
Proof.
  intros Hi Hl. induction Hl as [|j l Hj Hl IH]; simpl.
  - repeat constructor; exact Hi.
  - destruct (time_le (key i) (key j)); repeat constructor; auto.
Qed.

Lemma argsort_bound keys : Forall (fun i => (i < length keys)%nat) (argsort keys).
Proof.
  unfold argsort. set (key := fun i => nth i keys None).
  assert (Hseq : Forall (fun i => (i < length keys)%nat) (seq 0 (length keys))).
  { apply Forall_forall. intros i Hi. apply list_elem_of_In, in_seq in Hi. lia. }
  induction Hseq as [|i l Hi Hl IH]; simpl; [constructor|].
  now apply insert_sorted_Forall.
Qed.

Lemma take_rows_repeat idx (v : cell F) n :
  Forall (fun i => (i < n)%nat) idx ->
  take_rows idx (repeat v n) = repeat v (length idx).
Proof.
  unfold take_rows. induction 1 as [|i idx Hi Hidx IH]; simpl; [reflexivity|].
  rewrite IH. f_equal. now apply nth_repeat_lt.
Qed.

Lemma Forall_firstn {A} (P : A -> Prop) n (l : list A) :
  Forall P l -> Forall P (firstn n l).
Proof.
  intros Hl. revert n. induction Hl as [|x l Hx Hl IH]; intros [|n]; simpl;
    constructor; auto.
Qed.

(** A column that the encoding left constant is the same constant column
    in the returned frame: the later stages do not assign it, the sort
    permutes equal cells and the fill has nothing to fill. *)
Lemma prepare_keeps_constant name (v : value F) df cid encs :
  is_timeseries_frame df = true ->
  derived_name name = false ->
  get_col name (encode_categoricals encs (add_customer_id cid df))
  = Ok (repeat (Some v) (nrows df)) ->
  exists out, prepare_features_for_inference df cid encs = Ok out
              /\ get_col name out = Ok (repeat (Some v) (nrows df)).
Proof.
  intros Hts Hname Hcol.
  destruct (derive_features_spec df cid encs Hts) as (d1 & Hd1 & Hwf1 & Hn1 & Hd).
  assert (Hcol1 : get_col name d1 = Ok (repeat (Some v) (nrows df))).
  { rewrite (get_col_time_features name _ d1 Hname Hd1). exact Hcol. }
  unfold prepare_features_for_inference.
  destruct (has_col "kWh" df).
  - destruct Hd as (kwh0 & hour & sorted & kwh & _ & Hsort & _ & _ & _ & _ & ->).
    eexists. split; [reflexivity|].
    rewrite get_col_fill_missing, get_col_with_rolling, get_col_with_lags by exact Hname.
    apply sort_values_inv in Hsort as (keys & Hkeys & _ & ->).
    rewrite get_col_map_columns, get_col_with_statistics, Hcol1 by exact Hname.
    rewrite nrows_with_statistics.
    rewrite get_col_with_statistics in Hkeys by reflexivity.
    assert (Hlen : length keys = nrows df).
    { rewrite <- Hn1. eapply wf_get_col; eauto. }
    set (idx := firstn (nrows d1) (argsort (map time_of keys))).
    assert (Hidx : Forall (fun i => (i < nrows df)%nat) idx).
    { apply Forall_firstn. rewrite <- Hlen, <- (length_map time_of keys).
      apply argsort_bound. }
    assert (Hlidx : length idx = nrows df).
    { unfold idx. rewrite length_take, length_argsort, length_map. lia. }
    now rewrite (take_rows_repeat idx _ _ Hidx), Hlidx, fill_column_repeat.
  - rewrite Hd. eexists. split; [reflexivity|].
    now rewrite get_col_fill_missing, Hcol1, fill_column_repeat.
Qed.

(** *** Categorical encoding *)

Lemma encode_ext encs enc_name col_name df df' :
  get_col col_name df' = get_col col_name df ->
  encode encs enc_name col_name df' = encode encs enc_name col_name df.
Proof. intros Hc. unfold encode. now rewrite Hc. Qed.

Lemma get_col_encode_or_default_out encs enc_name col_name out df :
  get_col out (encode_or_default encs enc_name col_name out df)
  = Ok (match encode encs enc_name col_name df with
        | Ok c => c
        | Raise _ => repeat (Some (VInt 0)) (nrows df)
        end).
Proof.
  unfold encode_or_default.
  destruct (encode _ _ _ _); now rewrite get_col_set_col, String.eqb_refl.
Qed.

(** An unseen label makes the encoder raise. *)
Lemma transform_unseen enc labels l :
  In l labels -> index_of l enc = None ->
  is_ok (transform (F := F) enc labels) = false.
Proof.
  intros Hin Hl. unfold transform.
  induction labels as [|x labels IH]; [destruct Hin|]. simpl.
  destruct (index_of x enc) eqn:Hx.
  - destruct Hin as [->|Hin]; [congruence|].
    specialize (IH Hin). now destruct (for_each _ labels).
  - reflexivity.
Qed.

Lemma for_each_repeat {A B} (body : A -> result B) (x : A) (y : B) n :
  body x = Ok y -> for_each body (repeat x n) = Ok (repeat y n).
Proof. intros Hb. induction n as [|n IH]; simpl; [|rewrite Hb, IH]; reflexivity. Qed.

(** The three encoded columns of the frame after lines 263-291. *)
Lemma encoded_columns df cid encs :
  let da := add_customer_id cid df in
  let d0 := encode_categoricals encs da in
  get_col "customer_encoded" d0
  = Ok (match encode encs "customer_encoder" "customer_id" da with
        | Ok c => c
        | Raise _ => repeat (Some (VInt 0)) (nrows df)
        end)
  /\ get_col "manufacturer_encoded" d0
     = Ok (if has_col "manufacturer" df
           then match encode encs "manufacturer_encoder" "manufacturer" df with
                | Ok c => c
                | Raise _ => repeat (Some (VInt 0)) (nrows df)
                end
           else repeat (Some (VInt 0)) (nrows df))
  /\ get_col "region_encoded" d0
     = Ok (if has_col "region" df
           then match encode encs "region_encoder" "region" df with
                | Ok c => c
                | Raise _ => repeat (Some (VInt 0)) (nrows df)
                end
           else repeat (Some (VInt 0)) (nrows df)).
Proof.
  intros da d0. subst d0. unfold encode_categoricals.
  set (dc := encode_or_default encs "customer_encoder" "customer_id"
               "customer_encoded" da).
  assert (Hnc : nrows dc = nrows df).
  { subst dc da. now rewrite nrows_encode_or_default, nrows_add_customer_id. }
  assert (Hgc : forall name, String.eqb name "customer_encoded" = false ->
                             String.eqb name "customer_id" = false ->
                             get_col name dc = get_col name df).
  { intros name H1 H2. subst dc da.
    now rewrite get_col_encode_or_default, get_col_add_customer_id. }
  set (dm := if has_col "manufacturer" dc then _ else _).
  assert (Hnm : nrows dm = nrows df).
  { subst dm. destruct (has_col "manufacturer" dc);
      now rewrite ?nrows_encode_or_default. }
  assert (Hgm : forall name, String.eqb name "manufacturer_encoded" = false ->
                             get_col name dm = get_col name dc).
  { intros name H1. subst dm. destruct (has_col "manufacturer" dc).
    - now rewrite get_col_encode_or_default.
    - now rewrite get_col_set_col, H1. }
  assert (Hgr : forall name, String.eqb name "region_encoded" = false ->
                             get_col name
                               (if has_col "region" dm
                                then encode_or_default encs "region_encoder" "region"
                                       "region_encoded" dm
                                else set_col "region_encoded"
                                       (broadcast (Some (VInt 0)) dm) dm)
                             = get_col name dm).
  { intros name H1. destruct (has_col "region" dm).
    - now rewrite get_col_encode_or_default.
    - now rewrite get_col_set_col, H1. }
  repeat split.
  - rewrite Hgr, Hgm by reflexivity. subst dc.
    rewrite get_col_encode_or_default_out. subst da.
    now rewrite nrows_add_customer_id.
  - rewrite Hgr by reflexivity. subst dm.
    rewrite (has_col_of_get_col "manufacturer" df dc) by (now apply Hgc).
    destruct (has_col "manufacturer" df).
    + rewrite get_col_encode_or_default_out, Hnc.
      now rewrite (encode_ext _ _ _ df dc) by (now apply Hgc).
    + rewrite get_col_set_col. simpl. unfold broadcast. now rewrite Hnc.
  - assert (Hregion : get_col "region" dm = get_col "region" df).
    { rewrite Hgm by reflexivity. now apply Hgc. }
    rewrite (has_col_of_get_col "region" df dm) by exact Hregion.
    destruct (has_col "region" df).
    + rewrite get_col_encode_or_default_out, Hnm.
      now rewrite (encode_ext _ _ _ df dm) by exact Hregion.
    + rewrite get_col_set_col. simpl. unfold broadcast. now rewrite Hnm.
Qed.

Lemma prepare_functional df cid encs out out' :
  prepare_features_for_inference df cid encs = Ok out ->
  prepare_features_for_inference df cid encs = Ok out' -> out' = out.
Proof. congruence. Qed.

(** C7, as amended.  On a TimeSeriesFrame the pipeline completes
    normally, and in the returned frame:
    - [manufacturer_encoded] is 0 in every row when the [manufacturer]
      column is absent from the input or its encoding raises (the encoder
      is missing or meets an unseen category); the same for [region];
    - [customer_encoded] is 0 in every row when the encoding of the
      customer column raises;
    - when the [customer_id] column is absent from the input, the column
      is first filled with the [customer_id] argument, and
      [customer_encoded] is in every row the code that the customer
      encoder gives to that id, or 0 when there is no customer encoder or
      the id was not seen at fitting. *)
Theorem encoding_fallback df cid encs :
  is_timeseries_frame df = true ->
  exists out,
    prepare_features_for_inference df cid encs = Ok out
    /\ (has_col "manufacturer" df = false
        \/ is_ok (encode encs "manufacturer_encoder" "manufacturer" df) = false ->
        get_col "manufacturer_encoded" out = Ok (repeat (Some (VInt 0)) (nrows df)))
    /\ (has_col "region" df = false
        \/ is_ok (encode encs "region_encoder" "region" df) = false ->
        get_col "region_encoded" out = Ok (repeat (Some (VInt 0)) (nrows df)))
    /\ (is_ok (encode encs "customer_encoder" "customer_id"
                      (add_customer_id cid df)) = false ->
        get_col "customer_encoded" out = Ok (repeat (Some (VInt 0)) (nrows df)))
    /\ (has_col "customer_id" df = false ->
        get_col "customer_encoded" out
        = Ok (repeat (Some (VInt match encs !! "customer_encoder" with
                                 | Some classes =>
                                     match index_of cid classes with
                                     | Some i => Z.of_nat i
                                     | None => 0
                                     end
                                 | None => 0
                                 end)) (nrows df))).
Proof.
  intros Hts.
  destruct (derive_features_total df cid encs Hts) as (d & Hd & _).
  assert (Hout : prepare_features_for_inference df cid encs = Ok (fill_missing d)).
  { unfold prepare_features_for_inference. now rewrite Hd. }
  set (out := fill_missing d) in *.
  exists out. split; [exact Hout|].
  destruct (encoded_columns df cid encs) as (Hc & Hm & Hr).
  assert (Hconst : forall name v,
             derived_name name = false ->
             get_col name (encode_categoricals encs (add_customer_id cid df))
             = Ok (repeat (Some v) (nrows df)) ->
             get_col name out = Ok (repeat (Some v) (nrows df))).
  { intros name v Hname Hcol.
    destruct (prepare_keeps_constant name v df cid encs Hts Hname Hcol)
      as (out' & Hout' & Hget).
    now rewrite <- (prepare_functional _ _ _ _ _ Hout Hout'). }
  repeat split.
  - intros Hcase. apply Hconst; [reflexivity|]. rewrite Hm.
    destruct Hcase as [-> | Hfail]; [reflexivity|].
    destruct (has_col "manufacturer" df); [|reflexivity].
    destruct (encode encs "manufacturer_encoder" "manufacturer" df);
      [discriminate | reflexivity].
  - intros Hcase. apply Hconst; [reflexivity|]. rewrite Hr.
    destruct Hcase as [-> | Hfail]; [reflexivity|].
    destruct (has_col "region" df); [|reflexivity].
    destruct (encode encs "region_encoder" "region" df);
      [discriminate | reflexivity].
  - intros Hfail. apply Hconst; [reflexivity|]. rewrite Hc.
    destruct (encode encs "customer_encoder" "customer_id" (add_customer_id cid df));
      [discriminate | reflexivity].
  - intros Habsent. apply Hconst; [reflexivity|].
    rewrite Hc. f_equal.
    unfold encode, add_customer_id. rewrite Habsent.
    destruct (encs !! "customer_encoder") as [classes|]; [|reflexivity].
    unfold_result. rewrite get_col_set_col, String.eqb_refl.
    unfold broadcast, transform. rewrite map_repeat. simpl astype_str.
    destruct (index_of cid classes) as [i|] eqn:Hi.
    + erewrite for_each_repeat; [reflexivity|]. now rewrite Hi.
    + destruct (nrows df) as [|n]; [reflexivity|]. simpl. now rewrite Hi.
Qed.
End PipelineFacts.

(** C3, on three records out of order with one missing measurement. *)
Lemma prepare_features_rows_and_no_missing_witness :
  exists out,
    ForecastingApi.prepare_features_for_inference
      Examples.three_rows "Sibaya" Examples.fitted = Ok out
    /\ nrows out = nrows Examples.three_rows
    /\ wf_frame out
    /\ no_missing out = true.
Proof.
  apply (prepare_features_rows_and_no_missing Examples.three_rows "Sibaya"
           Examples.fitted).
  vm_compute. reflexivity.
Defined.

(** C5, on 26 hourly records. *)
Lemma kwh_lag_24h_column_witness :
  exists d out kwh,
    ForecastingApi.derive_features (Examples.hourly 26) "Sibaya" Examples.fitted = Ok d
    /\ ForecastingApi.prepare_features_for_inference
         (Examples.hourly 26) "Sibaya" Examples.fitted = Ok out
    /\ get_col "kWh" d = Ok kwh
    /\ length kwh = nrows (Examples.hourly 26)
    /\ get_col "kwh_lag_24h" d
       = Ok (if (25 <=? nrows (Examples.hourly 26))%nat then shift 24 kwh
             else repeat (mean kwh) (nrows (Examples.hourly 26)))
    /\ ((25 <= nrows (Examples.hourly 26))%nat ->
        forall i v, (24 <= i < nrows (Examples.hourly 26))%nat ->
                    kwh !! (i - 24)%nat = Some (Some v) ->
        exists lag, get_col "kwh_lag_24h" out = Ok lag /\ lag !! i = Some (Some v))
    /\ ((nrows (Examples.hourly 26) < 25)%nat ->
        forall m, mean kwh = Some m ->
        get_col "kwh_lag_24h" out
        = Ok (repeat (Some m) (nrows (Examples.hourly 26)))).
Proof.
  apply (kwh_lag_24h_column (Examples.hourly 26) "Sibaya" Examples.fitted);
    vm_compute; reflexivity.
Defined.

(** C7: a frame without a [customer_id] column, for a customer that the
    encoder knows: the encoded customer column is the code of the customer,
    1, and not the default 0. *)
Lemma customer_encoded_counterexample :
  has_col "customer_id" (Examples.hourly 2) = false
  /\ exists out,
       ForecastingApi.prepare_features_for_inference
         (Examples.hourly 2) "Sibaya" Examples.fitted = Ok out
       /\ get_col "customer_encoded" out = Ok [Some (VInt 1); Some (VInt 1)]
       /\ get_col "customer_encoded" out
          <> Ok (repeat (Some (VInt 0)) (nrows (Examples.hourly 2))).
Proof.
  split; [reflexivity|].
  eexists. split; [vm_compute; reflexivity|].
  split; [vm_compute; reflexivity|].
  vm_compute. discriminate.
Qed.

(** ** Sequence windower *)

Section WindowFacts.
Context {F : Type} `{FloatOps F}.
Import ForecastingApi.
Implicit Types (df sorted : frame F) (c : column F) (cols : list string).

Lemma for_each_get_col_map_columns cols (f : column F -> column F) n df :
  for_each (fun name => get_col name (map_columns f n df)) cols
  = match for_each (fun name => get_col name df) cols with
    | Ok data => Ok (map f data)
    | Raise e => Raise e
    end.
Proof.
  induction cols as [|name cols IH]; simpl; [reflexivity|].
  rewrite get_col_map_columns.
  destruct (get_col name df); [|reflexivity].
  rewrite IH.
  destruct (for_each (fun name => get_col name df) cols); reflexivity.
Qed.

Lemma for_each_get_col_length cols df data :
  wf_frame df ->
  for_each (fun name => get_col name df) cols = Ok data ->
  Forall (fun c => length c = nrows df) data.
Proof.
  intros Hwf. revert data. induction cols as [|name cols IH]; simpl; intros data.
  - intros [= <-]. constructor.
  - destruct (get_col name df) as [c|] eqn:Hc; [|discriminate].
    destruct (for_each _ cols) as [data'|]; [|discriminate].
    intros [= <-]. constructor; [eapply wf_get_col; eauto | now apply IH].
Qed.

(** A slice of a column, read row by row. *)
Lemma nth_slice c a b r :
  (r < b - a)%nat -> nth r (firstn (b - a) (skipn a c)) None = nth (a + r) c None.
Proof.
  intros Hr. rewrite nth_firstn.
  replace (r <? b - a)%nat with true by (symmetry; apply Nat.ltb_lt; exact Hr).
  apply nth_skipn.
Qed.

(** The matrix of the slice [df.iloc[a:a+L]] is the rows [a .. a+L-1] of
    the feature columns. *)
Lemma values_iloc cols sorted data a L :
  (a + L <= nrows sorted)%nat ->
  for_each (fun name => get_col name sorted) cols = Ok data ->
  values cols (iloc a (a + L) sorted) = Ok (rows_of data a L).
Proof.
  intros Hb Hdata. unfold values, iloc. unfold_result.
  rewrite for_each_get_col_map_columns, Hdata.
  f_equal. unfold rows_of.
  replace (Nat.min (a + L) (nrows sorted) - a)%nat with L by lia.
  rewrite (seq_from a L), map_map. apply map_ext_in. intros r Hr. apply in_seq in Hr.
  rewrite map_map. apply map_ext. intros c.
  apply nth_slice. lia.
Qed.

Lemma numeric_dtype_true cols df :
  numeric_dtype cols df = true ->
  exists data, for_each (fun name => get_col name df) cols = Ok data.
Proof.
  unfold numeric_dtype. destruct (for_each _ cols); [eauto | discriminate].
Qed.

Lemma numeric_isnan_defined cols df :
  numeric_dtype cols df = true -> isnan_defined cols df = true.
Proof. unfold isnan_defined. now intros ->. Qed.

Lemma isnan_defined_true cols df :
  isnan_defined cols df = true ->
  exists data, for_each (fun name => get_col name df) cols = Ok data.
Proof.
  unfold isnan_defined, numeric_dtype, datetime_dtype.
  destruct (for_each _ cols); [eauto | discriminate].
Qed.

(** With feature columns that make an array of numbers or of timestamps,
    the loop keeps the candidate that ends before row [i] exactly when it
    has no missing value. *)
Lemma sequence_at_defined cols L sorted data i :
  isnan_defined cols sorted = true ->
  for_each (fun name => get_col name sorted) cols = Ok data ->
  (L <= i <= nrows sorted)%nat ->
  sequence_at cols L sorted i
  = if complete (rows_of data (i - L) L) then Some (rows_of data (i - L) L) else None.
Proof.
  intros Hdef Hdata Hi. unfold sequence_at.
  replace i with ((i - L) + L)%nat at 2 by lia.
  rewrite (values_iloc cols sorted data (i - L) L) by (lia || exact Hdata).
  unfold_result. rewrite Hdef. simpl. unfold complete.
  destruct (existsb _ (rows_of data (i - L) L)); reflexivity.
Qed.

Lemma sequence_at_numeric cols L sorted data i :
  numeric_dtype cols sorted = true ->
  for_each (fun name => get_col name sorted) cols = Ok data ->
  (L <= i <= nrows sorted)%nat ->
  sequence_at cols L sorted i
  = if complete (rows_of data (i - L) L) then Some (rows_of data (i - L) L) else None.
Proof. intros Hnum. apply sequence_at_defined. now apply numeric_isnan_defined. Qed.

(** With a feature column that is absent, or columns that make an array
    of objects, every candidate is skipped: the exception is swallowed by
    the loop. *)
Lemma sequence_at_undefined cols L sorted i :
  isnan_defined cols sorted = false -> sequence_at cols L sorted i = None.
Proof.
  intros Hdef. unfold sequence_at. unfold_result. rewrite Hdef.
  destruct (values cols _); reflexivity.
Qed.

Lemma omap_filter {A B} (keep : B -> bool) (g : A -> B) (l : list A) :
  omap (fun x => if keep (g x) then Some (g x) else None) l
  = List.filter keep (map g l).
Proof.
  induction l as [|x l IH]; simpl; [reflexivity|].
  destruct (keep (g x)); simpl; [f_equal|]; apply IH.
Qed.

Lemma omap_map_ext {A B C} (f : B -> option C) (g : A -> B) (h : A -> option C)
    (l : list A) :
  Forall (fun x => f (g x) = h x) l -> omap f (map g l) = omap h l.
Proof.
  induction 1 as [|x l Hx Hl IH]; simpl; [reflexivity|].
  rewrite Hx. destruct (h x); [f_equal|]; exact IH.
Qed.

Lemma seq_bound k : Forall (fun a => (a < k)%nat) (seq 0 k).
Proof. apply Forall_forall. intros a Ha. apply list_elem_of_In, in_seq in Ha. lia. Qed.

(** The sequences that the loop collects are the windows of the
    specification. *)
Lemma kept_sequences cols L sorted :
  isnan_defined cols sorted = true -> (L <= nrows sorted)%nat ->
  omap (sequence_at cols L sorted) (seq L (S (nrows sorted) - L))
  = spec_windows cols L sorted.
Proof.
  intros Hnum HL. destruct (isnan_defined_true _ _ Hnum) as (data & Hdata).
  unfold spec_windows, candidate_windows. rewrite Hdata.
  rewrite <- (omap_filter complete (fun a => rows_of data a L)).
  rewrite (seq_from L). apply omap_map_ext.
  eapply Forall_impl; [apply seq_bound|]. intros a Ha. simpl in Ha.
  rewrite (sequence_at_defined cols L sorted data) by (auto; lia).
  now replace (L + a - L)%nat with a by lia.
Qed.

(** *** Sorting permutes the rows *)

Lemma insert_sorted_perm key i l : Permutation (insert_sorted key i l) (i :: l).
Proof.
  induction l as [|j l IH]; simpl; [reflexivity|].
  destruct (time_le (key i) (key j)); [reflexivity|].
  rewrite IH. apply perm_swap.
Qed.

Lemma argsort_perm keys : Permutation (argsort keys) (seq 0 (length keys)).
Proof.
  unfold argsort. induction (seq 0 (length keys)) as [|i l IH]; simpl; [reflexivity|].
  rewrite insert_sorted_perm. now apply perm_skip.
Qed.

Lemma map_nth_seq c : map (fun i => nth i c None) (seq 0 (length c)) = c.
Proof.
  induction c as [|x c IH]; simpl; [reflexivity|].
  f_equal. rewrite <- seq_shift, map_map. exact IH.
Qed.

Lemma take_rows_argsort_perm keys c :
  length keys = length c ->
  Permutation (take_rows (firstn (length c) (argsort keys)) c) c.
Proof.
  intros Hlen. rewrite firstn_all2 by (rewrite length_argsort; lia).
  unfold take_rows.
  apply (Permutation_trans (l' := map (fun i => nth i c None) (seq 0 (length c)))).
  - apply Permutation_map. rewrite <- Hlen. apply argsort_perm.
  - now rewrite map_nth_seq.
Qed.

Lemma forallb_perm {A} (p : A -> bool) (l l' : list A) :
  Permutation l l' -> forallb p l = forallb p l'.
Proof.
  induction 1 as [| x l l' _ IH | x y l | l l' l'' _ IH1 _ IH2]; simpl.
  - reflexivity.
  - now rewrite IH.
  - destruct (p x), (p y); reflexivity.
  - congruence.
Qed.

Lemma existsb_perm {A} (p : A -> bool) (l l' : list A) :
  Permutation l l' -> existsb p l = existsb p l'.
Proof.
  induction 1 as [| x l l' _ IH | x y l | l l' l'' _ IH1 _ IH2]; simpl.
  - reflexivity.
  - now rewrite IH.
  - destruct (p x), (p y); reflexivity.
  - congruence.
Qed.

(** The columns of the sorted frame, for a frame with a datetime
    [timestamp] column [ts]. *)
Lemma sorted_columns cols df ts :
  wf_frame df -> get_col "timestamp" df = Ok ts -> forallb is_datetime ts = true ->
  exists sorted,
    sort_values "timestamp" df = Ok sorted
    /\ nrows sorted = nrows df /\ wf_frame sorted
    /\ forall (p : column F -> bool),
        (forall c c', Permutation c c' -> p c = p c') ->
        match for_each (fun name => get_col name sorted) cols with
        | Ok data => forallb p data
        | Raise _ => false
        end
        = match for_each (fun name => get_col name df) cols with
          | Ok data => forallb p data
          | Raise _ => false
          end.
Proof.
  intros Hwf Hts Hdt. pose proof (sort_values_ok "timestamp" df ts Hts Hdt) as Hsort.
  eexists. split; [exact Hsort|]. split; [reflexivity|].
  split; [eapply wf_sort_values; eauto|].
  intros p Hp. rewrite for_each_get_col_map_columns.
  destruct (for_each (fun name => get_col name df) cols) as [data|] eqn:Hdata;
    [|reflexivity].
  apply (for_each_get_col_length _ _ _ Hwf) in Hdata.
  pose proof (wf_get_col _ _ _ Hwf Hts) as Hlts.
  induction Hdata as [|c data Hc Hdata IH]; simpl; [reflexivity|].
  rewrite IH. f_equal. apply Hp.
  rewrite <- Hc. apply take_rows_argsort_perm.
  rewrite length_map. congruence.
Qed.

Lemma rows_of_complete data a L n :
  Forall (fun c : column F => length c = n) data ->
  forallb (fun c => negb (existsb isnan c)) data = true ->
  (a + L <= n)%nat ->
  complete (rows_of data a L) = true.
Proof.
  intros Hlen Hall Hb. unfold complete, rows_of.
  destruct (existsb _ _) eqn:E; [|reflexivity]. exfalso.
  apply existsb_exists in E as (row & Hrow & Hnan).
  apply in_map_iff in Hrow as (r & <- & Hr). apply in_seq in Hr.
  apply existsb_exists in Hnan as (x & Hx & Hxn).
  apply in_map_iff in Hx as (c & <- & Hc).
  rewrite forallb_forall in Hall. specialize (Hall c Hc).
  rewrite Forall_forall in Hlen. specialize (Hlen c (proj2 (list_elem_of_In _ _) Hc)).
  apply negb_true_iff in Hall.
  assert (Hin : In (nth r c None) c) by (apply nth_In; lia).
  assert (Hex : existsb isnan c = true) by (apply existsb_exists; eauto).
  congruence.
Qed.

Lemma no_valid_is_not_insufficient n L : no_valid_sequences <> insufficient_data n L.
Proof. unfold no_valid_sequences, insufficient_data. simpl. discriminate. Qed.

Lemma numeric_perm (c c' : column F) :
  Permutation c c' -> forallb is_numeric c = forallb is_numeric c'.
Proof. apply forallb_perm. Qed.

Lemma complete_perm (c c' : column F) :
  Permutation c c' -> negb (existsb isnan c) = negb (existsb isnan c').
Proof. intros Hp. f_equal. now apply existsb_perm. Qed.

Lemma datetime_perm (c c' : column F) :
  Permutation c c' -> forallb is_datetime c = forallb is_datetime c'.
Proof. apply forallb_perm. Qed.

End WindowFacts.


(** The windows of the timestamps alone are kept, two for four records;
    timestamps beside numbers make an array of objects, and no window is
    kept. *)
Lemma windows_of_timestamps :
  (exists w1 w2,
     ForecastingApi.create_sequences_for_inference (Examples.hourly 4) ["timestamp"] 3
     = Ok [w1; w2])
  /\ ForecastingApi.create_sequences_for_inference (Examples.hourly 4)
       ["timestamp"; "kWh"] 3
     = Raise ForecastingApi.no_valid_sequences.
Proof. split; [eexists; eexists|]; vm_compute; reflexivity. Qed.

(** C7, as amended, on two hourly records without the categorical
    columns. *)
Lemma encoding_fallback_witness :
  exists out,
    ForecastingApi.prepare_features_for_inference
      (Examples.hourly 2) "Sibaya" Examples.fitted = Ok out
    /\ (has_col "manufacturer" (Examples.hourly 2) = false
        \/ is_ok (ForecastingApi.encode Examples.fitted "manufacturer_encoder"
                    "manufacturer" (Examples.hourly 2)) = false ->
        get_col "manufacturer_encoded" out
        = Ok (repeat (Some (VInt 0)) (nrows (Examples.hourly 2))))
    /\ (has_col "region" (Examples.hourly 2) = false
        \/ is_ok (ForecastingApi.encode Examples.fitted "region_encoder"
                    "region" (Examples.hourly 2)) = false ->
        get_col "region_encoded" out
        = Ok (repeat (Some (VInt 0)) (nrows (Examples.hourly 2))))
    /\ (is_ok (ForecastingApi.encode Examples.fitted "customer_encoder" "customer_id"
                 (ForecastingApi.add_customer_id "Sibaya" (Examples.hourly 2))) = false ->
        get_col "customer_encoded" out
        = Ok (repeat (Some (VInt 0)) (nrows (Examples.hourly 2))))
    /\ (has_col "customer_id" (Examples.hourly 2) = false ->
        get_col "customer_encoded" out
        = Ok (repeat (Some (VInt match Examples.fitted !! "customer_encoder" with
                                 | Some classes =>
                                     match ForecastingApi.index_of "Sibaya" classes with
                                     | Some i => Z.of_nat i
                                     | None => 0
                                     end
                                 | None => 0
                                 end)) (nrows (Examples.hourly 2)))).
Proof.
  apply (encoding_fallback (Examples.hourly 2) "Sibaya" Examples.fitted).
  vm_compute. reflexivity.
Defined.

(** ** Freshness of a cached model *)

Section FreshnessFacts.
Context `{ModelUpdater.Codecs}.
Import ModelUpdater.

(** The five kinds of reason that the check reports. *)
Lemma check_model_freshness_reason client current_time cid :
  let f := check_model_freshness client current_time cid in
  (reason f = "Redis not available" /\ needs_update f = true /\ client = None)
  \/ (reason f = "No cached model" /\ needs_update f = true)
  \/ (reason f = "Model older than 7 days" /\ needs_update f = true)
  \/ (reason f = "Model is fresh" /\ needs_update f = false)
  \/ (exists e, reason f = "Error: " ++ str_exn e /\ needs_update f = true).
Proof.
  unfold check_model_freshness. destruct client as [r|]; [|now left].
  unfold freshness_of_cache. unfold_result.
  assert (Herr : forall e : exn,
             reason {| needs_update := true; reason := "Error: " ++ str_exn e;
                       updated_at := None |} = "Error: " ++ str_exn e
             /\ needs_update {| needs_update := true; reason := "Error: " ++ str_exn e;
                                updated_at := None |} = true) by (intros; now split).
  destruct (Redis.get r _) as [[s|]|e]; simpl;
    [| right; left; now split | do 4 right; exists e; apply Herr].
  destruct s as [|a s]; simpl; [right; left; now split|].
  destruct (json_updated_at _) as [iso|e]; simpl; [|do 4 right; exists e; apply Herr].
  destruct (fromisoformat iso) as [updated|e]; simpl;
    [|do 4 right; exists e; apply Herr].
  destruct (age current_time updated) as [a'|e]; simpl;
    [|do 4 right; exists e; apply Herr].
  match goal with |- context [?x <? ?y] => destruct (x <? y) end; simpl.
  - do 2 right; left; now split.
  - do 3 right; left; now split.
Qed.

(** C6, as amended.  With a Redis client whose server answers, the result
    is determined by the cached record and the clock:
    - no record, or an empty one: an update is needed, no cached model;
    - a record whose timestamp (naive) is more than 7 days old: an update
      is needed, the model is older than 7 days;
    - a record whose timestamp is at most 7 days old: no update is needed,
      the model is fresh.
    Without a Redis client an update is needed and the reason is that Redis
    is not available, which is none of the three reasons above. *)
Theorem check_model_freshness_cases (r : redis) current_time cid :
  redis_up r = true ->
  let cached := snd <$> redis_db r !! ("edge:model:" ++ cid) in
  let f := check_model_freshness (Some r) current_time cid in
  (cached = None \/ cached = Some "" ->
   needs_update f = true /\ reason f = reason_message no_cached_artifact)
  /\ (forall s iso t,
        cached = Some s -> s <> "" ->
        json_updated_at s = Ok iso -> fromisoformat iso = Ok (Naive t) ->
        (Calendar.days 7 < current_time - t ->
         needs_update f = true /\ reason f = reason_message older_than_threshold)
        /\ (current_time - t <= Calendar.days 7 ->
            needs_update f = false /\ reason f = reason_message fresh
            /\ updated_at f = Some (Naive t)))
  /\ (let f0 := check_model_freshness None current_time cid in
      needs_update f0 = true /\ reason f0 = "Redis not available"
      /\ forall k, reason f0 <> reason_message k).
Proof.
  intros Hup cached f. subst f. unfold check_model_freshness, freshness_of_cache.
  unfold Redis.get. rewrite Hup. unfold_result. fold cached.
  split; [|split].
  - intros [-> | ->]; simpl; auto.
  - intros s iso t -> Hs Hiso Hfrom.
    destruct s as [|a s]; [congruence|].
    rewrite Hiso. simpl. rewrite Hfrom. simpl.
    split; intros Hage;
      match goal with |- context [?x <? ?y] => destruct (x <? y) eqn:E end;
      simpl; auto.
    + apply Z.ltb_ge in E. unfold Calendar.days, Calendar.second in Hage. lia.
    + apply Z.ltb_lt in E. unfold Calendar.days, Calendar.second in Hage. lia.
  - simpl. repeat split. intros [| |]; simpl; discriminate.
Qed.
End FreshnessFacts.

(** C6, as amended, on a record updated on 2025-01-07 at 08:00 and read on
    2025-01-15 at 08:00, eight days later. *)
Lemma check_model_freshness_cases_witness :
  let current_time := Calendar.datetime 2025 1 15 8 0 0 in
  let f := ModelUpdater.check_model_freshness (Some Examples.one_record)
             current_time "default" in
  ModelUpdater.needs_update f = true
  /\ ModelUpdater.reason f = "Model older than 7 days".
Proof.
  intros current_time f.
  destruct (check_model_freshness_cases Examples.one_record current_time "default"
              eq_refl) as (_ & Hrecord & _).
  destruct (Hrecord "2025-01-07T08:00:00" "2025-01-07T08:00:00"
              (Calendar.datetime 2025 1 7 8 0 0)) as (Hold & _).
  - vm_compute. reflexivity.
  - discriminate.
  - reflexivity.
  - reflexivity.
  - apply Hold. vm_compute. reflexivity.
Defined.

(** C6: without a Redis client the reason is none of the three reasons of
    the specification. *)
Lemma freshness_reason_counterexample :
  let f := ModelUpdater.check_model_freshness None (Calendar.datetime 2025 1 15 8 0 0)
             "default" in
  ModelUpdater.needs_update f = true
  /\ ModelUpdater.reason f = "Redis not available"
  /\ ~ exists k, ModelUpdater.reason f = ModelUpdater.reason_message k.
Proof.
  simpl. repeat split. intros ([| |] & Hk); simpl in Hk; discriminate.
Qed.

(** ** Tiered model cache *)

Ltac unfold_io :=
  unfold mbind, mret, io_bind, io_ret, raise, gets, modify, lift, try_except in *;
  simpl in *.

Section CacheFacts.
Context {F Model Encoders Config : Type} `{ForecastingApi.Codecs F Model Encoders Config}.
Variable OUTPUT_BUCKET : string.
Import ForecastingApi.
Implicit Types (w : world Model Encoders Config).

Ltac simpl_logged :=
  repeat match goal with
         | |- context [model_cache (logged ?l ?w)] =>
             change (model_cache (logged l w)) with (model_cache w)
         | |- context [encoders_cache (logged ?l ?w)] =>
             change (encoders_cache (logged l w)) with (encoders_cache w)
         | |- context [config_cache (logged ?l ?w)] =>
             change (config_cache (logged l w)) with (config_cache w)
         | |- context [redis_client (logged ?l ?w)] =>
             change (redis_client (logged l w)) with (redis_client w)
         | |- context [s3 (logged ?l ?w)] =>
             change (s3 (logged l w)) with (s3 w)
         | |- context [files (logged ?l ?w)] =>
             change (files (logged l w)) with (files w)
         end.

Lemma logged_nil w : logged [] w = w.
Proof. destruct w. unfold logged. simpl. now rewrite app_nil_r. Qed.

Lemma logged_logged l l' w : logged l' (logged l w) = logged (l ++ l')%list w.
Proof. unfold logged. simpl. now rewrite app_assoc. Qed.

(** The Redis lookup never raises; it logs one read when there is a
    client, and changes nothing else. *)
Lemma load_from_redis_spec key w :
  load_from_redis key w = (Ok (redis_hit key w), logged (redis_log key w) w).
Proof.
  unfold load_from_redis, redis_hit, redis_log, redis_get, record. unfold_io.
  destruct (redis_client w) as [r|]; [|now rewrite logged_nil].
  destruct (Redis.get r key) as [[s|]|e]; try reflexivity.
  destruct s as [|a s]; [reflexivity|].
  destruct (json_loads_bundle (String a s)); reflexivity.
Qed.

(** The memory lookup logs one read and changes nothing else. *)
Lemma load_from_memory_spec cid w :
  load_from_memory cid w = (memory_hit cid w, logged [MemoryLookup cid] w).
Proof.
  unfold load_from_memory, memory_hit, record. unfold_io. simpl_logged.
  destruct (model_cache w !! cid); [|reflexivity].
  simpl_logged. destruct (encoders_cache w !! cid); reflexivity.
Qed.

Lemma redis_hit_logged key l w : redis_hit key (logged l w) = redis_hit key w.
Proof. reflexivity. Qed.

Lemma memory_hit_logged cid l w : memory_hit cid (logged l w) = memory_hit cid w.
Proof. reflexivity. Qed.

Lemma lookup_caches_spec cid w :
  let key := get_cache_key "model" cid "" in
  lookup_caches cid w
  = match redis_hit key w with
    | Some data => (Ok (Some data), logged (redis_log key w) w)
    | None => (memory_hit cid w, logged (redis_log key w ++ [MemoryLookup cid]) w)
    end.
Proof.
  intros key. unfold lookup_caches. fold key.
  change (lookup_caches cid w) with (lookup_caches cid w).
  unfold mbind, io_bind. rewrite load_from_redis_spec.
  destruct (redis_hit key w); [reflexivity|].
  now rewrite load_from_memory_spec, memory_hit_logged, logged_logged.
Qed.

Lemma load_customer_model_eq cid w :
  load_customer_model OUTPUT_BUCKET cid w
  = match lookup_caches cid w with
    | (Ok (Some data), w') => (Ok data, w')
    | (Ok None, w') => load_cold OUTPUT_BUCKET cid (get_cache_key "model" cid "") w'
    | (Raise e, w') => (Raise e, w')
    end.
Proof.
  unfold load_customer_model. unfold mbind at 1. unfold io_bind.
  destruct (lookup_caches cid w) as [[[data|]|e] w']; reflexivity.
Qed.

(** [load_customer_model], taken alone, reads Redis first: on a hit the
    cached copy is returned, and the memory cache is neither read nor
    written; the memory cache comes next, and the cold store after both
    have missed.  The log of the call shows the order. *)
Lemma load_customer_model_tier_order cid w :
  let key := get_cache_key "model" cid "" in
  match redis_hit key w with
  | Some data =>
      load_customer_model OUTPUT_BUCKET cid w
      = (Ok data, logged (redis_log key w) w)
  | None =>
      match memory_hit cid w with
      | Ok (Some data) =>
          load_customer_model OUTPUT_BUCKET cid w
          = (Ok data, logged (redis_log key w ++ [MemoryLookup cid]) w)
      | Ok None =>
          load_customer_model OUTPUT_BUCKET cid w
          = load_cold OUTPUT_BUCKET cid key
                      (logged (redis_log key w ++ [MemoryLookup cid]) w)
      | Raise e =>
          load_customer_model OUTPUT_BUCKET cid w
          = (Raise e, logged (redis_log key w ++ [MemoryLookup cid]) w)
      end
  end.
Proof.
  intros key. rewrite load_customer_model_eq, lookup_caches_spec. fold key.
  destruct (redis_hit key w); [reflexivity|].
  destruct (memory_hit cid w) as [[data|]|e]; reflexivity.
Qed.

(** In [generate_forecast] the memory cache is looked up before
    [load_customer_model] is called at all: a customer whose bundle is in
    the memory cache is served without any access to Redis or S3. *)
Lemma cached_model_memory_first cid w model enc :
  model_cache w !! cid = Some model ->
  encoders_cache w !! cid = Some enc ->
  cached_model OUTPUT_BUCKET cid w
  = (Ok (model, enc, mjoin (config_cache w !! cid)), w).
Proof.
  intros Hm He. unfold cached_model. unfold_io. now rewrite Hm, He.
Qed.

(** C2.  A request resolves the bundle of its customer in step 1 of
    [generate_forecast], which calls [load_customer_model] only when the
    memory cache has no model for the customer.  The tiers are consulted in
    this order, short-circuiting on the first hit:
    - the memory tier first: on a hit the cached bundle is returned
      directly, and no other tier is touched (the world, its log included,
      is unchanged);
    - Redis, the distributed tier, next: on a hit its copy is returned and
      written to the memory tier, after a single read of Redis;
    - the cold store only when both have missed: the load starts after the
      read of Redis and a second look at the memory cache, and a bundle
      that it returns is written to the memory tier. *)
Theorem cached_model_tier_order cid w :
  let key := get_cache_key "model" cid "" in
  let populate (b : bundle Model Encoders Config) w' :=
    let '(model, encs, config) := b in
    set_caches (<[cid := model]> (model_cache w')) (<[cid := encs]> (encoders_cache w'))
               (<[cid := config]> (config_cache w')) w' in
  match model_cache w !! cid with
  | Some model =>
      cached_model OUTPUT_BUCKET cid w
      = (match encoders_cache w !! cid with
         | Some enc => Ok (model, enc, mjoin (config_cache w !! cid))
         | None => Raise (KeyError cid)
         end, w)
  | None =>
      match redis_hit key w with
      | Some b =>
          cached_model OUTPUT_BUCKET cid w
          = (Ok b, populate b (logged (redis_log key w) w))
          /\ forallb not_cold (redis_log key w) = true
      | None =>
          cached_model OUTPUT_BUCKET cid w
          = match load_cold OUTPUT_BUCKET cid key
                            (logged (redis_log key w ++ [MemoryLookup cid]) w) with
            | (Ok b, w') => (Ok b, populate b w')
            | (Raise e, w') => (Raise e, w')
            end
      end
  end.
Proof.
  intros key populate.
  pose proof (load_customer_model_tier_order cid w) as Hload. cbv zeta in Hload.
  fold key in Hload.
  destruct (model_cache w !! cid) as [model|] eqn:Hm.
  - unfold cached_model. unfold_io. rewrite Hm.
    destruct (encoders_cache w !! cid); reflexivity.
  - assert (Hmem : memory_hit cid w = Ok None) by (unfold memory_hit; now rewrite Hm).
    rewrite Hmem in Hload.
    unfold cached_model. unfold_io. rewrite Hm.
    destruct (redis_hit key w) as [b|].
    + rewrite Hload. destruct b as [[model encs] config]. split; [reflexivity|].
      unfold redis_log. destruct (redis_client w); reflexivity.
    + rewrite Hload.
      destruct (load_cold OUTPUT_BUCKET cid key _) as [[[[model encs] config]|e] w'];
        reflexivity.
Qed.

(** *** Temporary files *)

Lemma remove_if_exists_spec path w :
  exists w', remove_if_exists path w = (Ok tt, w')
             /\ files w' = delete path (files w)
             /\ same_caches w w'.
Proof.
  unfold remove_if_exists, record, same_caches. unfold_io.
  destruct (files w !! path) eqn:Hp.
  - eexists. repeat split; reflexivity.
  - exists w. split; [reflexivity|]. split; [|repeat split; reflexivity].
    symmetry. now apply delete_id.
Qed.

(** The clean-up never raises and leaves neither temporary file. *)
Lemma clean_up_temp_files_spec cid w :
  exists w', clean_up_temp_files cid w = (Ok tt, w')
             /\ files w' !! local_model_path cid = None
             /\ files w' !! local_encoders_path cid = None
             /\ same_caches w w'.
Proof.
  unfold clean_up_temp_files. simpl for_.
  destruct (remove_if_exists_spec (local_model_path cid) w) as (w1 & Hw1 & Hf1 & Hc1).
  destruct (remove_if_exists_spec (local_encoders_path cid) w1)
    as (w2 & Hw2 & Hf2 & Hc2).
  exists w2. unfold mbind, io_bind, mret, io_ret. rewrite Hw1, Hw2.
  split; [reflexivity|]. rewrite Hf2, Hf1. split; [|split].
  - rewrite lookup_delete. case_decide; [reflexivity|]. apply lookup_delete_eq.
  - apply lookup_delete_eq.
  - unfold same_caches in *.
    destruct Hc1 as (? & ? & ? & ? & ?), Hc2 as (? & ? & ? & ? & ?).
    repeat split; congruence.
Qed.

(** A load that succeeds has written the bundle to the memory cache. *)
Lemma load_bundle_caches c cid key w model encs config w' :
  load_bundle OUTPUT_BUCKET c cid key w = (Ok (model, encs, config), w') ->
  model_cache w' !! cid = Some model /\ encoders_cache w' !! cid = Some encs
  /\ config_cache w' !! cid = Some config.
Proof.
  unfold load_bundle, s3_get_output, s3_download_file, load_file, record, redis_setex,
    redis_get.
  unfold_io.
  repeat match goal with
         | |- context [match ?x with _ => _ end] =>
             match type of x with
             | result _ => destruct x eqn:?
             | option _ => destruct x eqn:?
             end; simpl; try discriminate
         end.
  all: intros [= <- <- <- <-]; simpl; rewrite !lookup_insert_eq; auto.
Qed.

(** On the success path of the load from S3 both temporary files are
    removed. *)
Lemma load_from_s3_removes_temp_files c cid key w data w' :
  load_from_s3 OUTPUT_BUCKET c cid key w = (Ok data, w') ->
  files w' !! local_model_path cid = None
  /\ files w' !! local_encoders_path cid = None.
Proof.
  unfold load_from_s3. unfold mbind at 1. unfold io_bind.
  destruct (load_bundle OUTPUT_BUCKET c cid key w) as [[data0|e] w0]; [|discriminate].
  unfold mbind, io_bind.
  destruct (clean_up_temp_files_spec cid w0) as (w1 & -> & Hm & He & _).
  unfold mret, io_ret. intros [= <- <-]. auto.
Qed.

Lemma load_cold_removes_temp_files cid key w data w' :
  load_cold OUTPUT_BUCKET cid key w = (Ok data, w') ->
  files w' !! local_model_path cid = None
  /\ files w' !! local_encoders_path cid = None.
Proof.
  unfold load_cold. unfold_io. destruct (s3 w) as [c|]; [|discriminate].
  destruct (load_from_s3 OUTPUT_BUCKET c cid key w) as [[data0|e] w0] eqn:Hload;
    [|discriminate].
  intros [= <- <-]. eapply load_from_s3_removes_temp_files; eauto.
Qed.

(** *** Calls after a load *)

Lemma load_cold_populates cid key w data w' :
  load_cold OUTPUT_BUCKET cid key w = (Ok data, w') ->
  memory_hit cid w' = Ok (Some data).
Proof.
  unfold load_cold. unfold_io. destruct (s3 w) as [c|]; [|discriminate].
  unfold load_from_s3. unfold_io.
  destruct (load_bundle OUTPUT_BUCKET c cid key w) as [[[[model encs] config]|e] w0]
    eqn:Hload; [|discriminate].
  apply load_bundle_caches in Hload as (Hm & He & Hc).
  destruct (clean_up_temp_files_spec cid w0)
    as (w1 & -> & _ & _ & (_ & _ & Hm1 & He1 & Hc1)).
  intros [= <- <-]. unfold memory_hit.
  now rewrite Hm1, He1, Hc1, Hm, He, Hc.
Qed.

(** A call that hits a cache reads no object of the cold store. *)
Lemma cache_hit_reads_no_cold cid w data :
  memory_hit cid w = Ok (Some data) ->
  exists data' l,
    load_customer_model OUTPUT_BUCKET cid w = (Ok data', logged l w)
    /\ forallb not_cold l = true.
Proof.
  intros Hmem. rewrite load_customer_model_eq, lookup_caches_spec, Hmem.
  destruct (redis_hit _ w) as [data'|]; eexists; eexists;
    (split; [reflexivity|]); unfold redis_log; destruct (redis_client w); reflexivity.
Qed.

(** *** Concurrent calls *)

Implicit Types (t : thread Model Encoders Config).

Lemma alone_returned n cid r w :
  alone OUTPUT_BUCKET n cid (Returned r) w = (Returned r, w).
Proof. induction n as [|n IH]; simpl; [reflexivity|exact IH]. Qed.

(** One pass of symbolic execution of a thread and of the sequential
    code, and a case analysis on the next outcome that they wait for. *)
Ltac thread_step :=
  unfold after, s3_get_output, s3_download_file, load_file, record, redis_setex,
    next_temp_file, expect;
  unfold mbind, mret, io_bind, io_ret, raise, gets, modify, lift, try_except;
  cbn [alone advance for_ logged set_files set_caches set_redis
       redis_client s3 model_cache encoders_cache config_cache files now accesses
       fst snd].

Ltac thread_case :=
  match goal with
  | |- context [match ?x with _ => _ end] =>
      match type of x with
      | result _ => destruct x eqn:?
      | option _ => destruct x eqn:?
      end
  end.

(** From line 117 on, a thread that is scheduled alone is the load from
    S3 of lines 115-178: both run the same accesses in the same order, and
    fail at the same places. *)
Lemma alone_cold cid w :
  alone OUTPUT_BUCKET 15 cid Missed w
  = let (r, w') := load_cold OUTPUT_BUCKET cid (get_cache_key "model" cid "") w in
    (Returned r, w').
Proof.
  destruct w as [rc s3c mc ec cc fs nw acc].
  unfold load_cold, load_from_s3, load_bundle, clean_up_temp_files, remove_if_exists,
    s3_get_output, s3_download_file, load_file, record, redis_setex.
  repeat progress thread_step.
  repeat (thread_case; simplify_eq; repeat progress thread_step; try reflexivity).
Qed.

(** The first step of a thread is the read of Redis. *)
Lemma advance_entered cid w :
  advance OUTPUT_BUCKET cid Entered w
  = (match redis_hit (get_cache_key "model" cid "") w with
     | Some data => Returned (Ok data)
     | None => AtMemoryCache
     end, logged (redis_log (get_cache_key "model" cid "") w) w).
Proof.
  cbn [advance]. unfold after. rewrite load_from_redis_spec. reflexivity.
Qed.

Lemma advance_at_memory_cache cid w :
  advance OUTPUT_BUCKET cid AtMemoryCache w
  = (match model_cache w !! cid with
     | Some _ => InMemoryCache
     | None => Missed
     end, logged [MemoryLookup cid] w).
Proof. reflexivity. Qed.

Lemma alone_in_memory cid w model :
  model_cache w !! cid = Some model ->
  alone OUTPUT_BUCKET 15 cid InMemoryCache w
  = (Returned match encoders_cache w !! cid with
              | Some enc => Ok (model, enc, mjoin (config_cache w !! cid))
              | None => Raise (KeyError cid)
              end, w).
Proof.
  intros Hm. destruct w as [rc s3c mc ec cc fs nw acc].
  cbn [model_cache encoders_cache config_cache] in *.
  repeat progress thread_step. rewrite Hm. repeat progress thread_step.
  destruct (ec !! cid); repeat progress thread_step; reflexivity.
Qed.

(** A thread that is scheduled alone is a call of [load_customer_model]. *)
Lemma alone_load_customer_model cid w :
  alone OUTPUT_BUCKET 17 cid Entered w
  = let (r, w') := load_customer_model OUTPUT_BUCKET cid w in (Returned r, w').
Proof.
  rewrite load_customer_model_eq, lookup_caches_spec.
  change (alone OUTPUT_BUCKET 17 cid Entered w)
    with (let (t', w') := advance OUTPUT_BUCKET cid Entered w in
          alone OUTPUT_BUCKET 16 cid t' w').
  rewrite advance_entered.
  destruct (redis_hit (get_cache_key "model" cid "") w) as [data|].
  { apply alone_returned. }
  change (alone OUTPUT_BUCKET 16 cid AtMemoryCache ?w1)
    with (let (t', w') := advance OUTPUT_BUCKET cid AtMemoryCache w1 in
          alone OUTPUT_BUCKET 15 cid t' w').
  rewrite advance_at_memory_cache, logged_logged. simpl_logged.
  unfold memory_hit.
  destruct (model_cache w !! cid) as [model|] eqn:Hm; [|apply alone_cold].
  rewrite (alone_in_memory cid _ model) by exact Hm. simpl_logged.
  destruct (encoders_cache w !! cid); reflexivity.
Qed.

(** *** Every interleaving *)

Ltac solve_grows :=
  split; [reflexivity|];
  first [ exists []; symmetry; apply app_nil_r
        | eexists; rewrite <- ?app_assoc; reflexivity ].

Lemma advance_grows cid t w : grows w (advance OUTPUT_BUCKET cid t w).2.
Proof.
  destruct t as [| | | model | model encs | | c | c reg k | c reg | c reg model k
                 | c reg model | c reg model encs | [[model encs] config]
                 | [[model encs] config] | [[model encs] config]
                 | [[model encs] config] | f rest data | f rest data | r];
    [rewrite advance_entered; split; [reflexivity | now eexists] | ..];
    destruct w as [rc s3c mc ec cc fs nw acc];
    unfold grows; repeat progress thread_step;
    repeat (thread_case; simplify_eq; repeat progress thread_step);
    solve_grows.
Qed.

Lemma registry_reads_grows cid w w' :
  grows w w' -> (registry_reads cid w <= registry_reads cid w')%nat.
Proof.
  intros (_ & l & Hl). unfold registry_reads. rewrite Hl, count_occ_app. lia.
Qed.

(** The step at line 123 asks S3 for the registry document, whatever
    comes of it. *)
Lemma advance_at_registry cid c w :
  has_read_registry (advance OUTPUT_BUCKET cid (AtRegistry c) w).1 = true
  /\ registry_reads cid (advance OUTPUT_BUCKET cid (AtRegistry c) w).2
     = S (registry_reads cid w).
Proof.
  assert (Hlog : (advance OUTPUT_BUCKET cid (AtRegistry c) w).2
                 = logged [S3GetObject ("customer_tailored/" ++ cid
                                        ++ "/latest_model.json")] w
                 /\ has_read_registry (advance OUTPUT_BUCKET cid (AtRegistry c) w).1
                    = true).
  { cbn [advance]. unfold after, s3_get_output, record. unfold_io.
    repeat (thread_case; simpl); auto. }
  destruct Hlog as [-> Hread]. split; [exact Hread|].
  unfold registry_reads, logged. cbn [accesses].
  rewrite count_occ_app. cbn [count_occ].
  destruct (access_eq_dec _ _) as [_|Hne]; [lia|contradiction].
Qed.

Lemma advance_keeps_read cid t w :
  has_read_registry t = true ->
  has_read_registry (advance OUTPUT_BUCKET cid t w).1 = true.
Proof.
  destruct t as [| | | model | model encs | | c | c reg k | c reg | c reg model k
                 | c reg model | c reg model encs | [[model encs] config]
                 | [[model encs] config] | [[model encs] config]
                 | [[model encs] config] | f rest data | f rest data | r];
    try discriminate; intros _; cbn [advance]; unfold after, next_temp_file;
    try reflexivity;
    match goal with
    | |- context [match ?p with _ => _ end] =>
        match type of p with (_ * _)%type => destruct p as [[x|e] w'] end
    end; cbn [fst has_read_registry]; try reflexivity.
  - now destruct x.
  - destruct (x !! f); [reflexivity|]. now destruct rest.
  - now destruct rest.
Qed.

Lemma advance_keeps_missed cid t w c :
  s3 w = Some c -> has_missed t = true ->
  has_missed (advance OUTPUT_BUCKET cid t w).1 = true.
Proof.
  intros Hs3.
  destruct t as [| | | model | model encs | | c0 | c0 reg k | c0 reg | c0 reg model k
                 | c0 reg model | c0 reg model encs | [[model encs] config]
                 | [[model encs] config] | [[model encs] config]
                 | [[model encs] config] | f rest data | f rest data | r];
    try discriminate; intros _; cbn [advance]; unfold after, next_temp_file;
    try reflexivity.
  1:{ unfold gets. now rewrite Hs3. }
  all: match goal with
       | |- context [match ?p with _ => _ end] =>
           match type of p with (_ * _)%type => destruct p as [[x|e] w'] end
       end; cbn [fst has_missed]; try reflexivity.
  - now destruct x.
  - now destruct x.
  - destruct (x !! f); [reflexivity|]. now destruct rest.
  - now destruct rest.
Qed.

(** One step of a thread that has missed: the reads of the registry
    document grow by one when the thread passes line 123. *)
Lemma advance_reads cid t w c :
  s3 w = Some c -> has_missed t = true ->
  (registry_reads cid w + Nat.b2n (has_read_registry (advance OUTPUT_BUCKET cid t w).1)
   <= registry_reads cid (advance OUTPUT_BUCKET cid t w).2
      + Nat.b2n (has_read_registry t))%nat.
Proof.
  intros Hs3 Hmissed.
  destruct (has_read_registry t) eqn:Hread.
  - rewrite advance_keeps_read by exact Hread.
    pose proof (registry_reads_grows cid _ _ (advance_grows cid t w)). simpl. lia.
  - destruct t; try discriminate.
    + cbn [advance]. unfold after, gets. rewrite Hs3. simpl. lia.
    + destruct (advance_at_registry cid c0 w) as [-> ->]. simpl. lia.
Qed.

Lemma readers_insert (ts : list (thread Model Encoders Config)) i t t' :
  ts !! i = Some t ->
  (readers (<[i := t']> ts) + Nat.b2n (has_read_registry t)
   = readers ts + Nat.b2n (has_read_registry t'))%nat.
Proof.
  unfold readers. revert i. induction ts as [|t0 ts IH]; intros i; [discriminate|].
  destruct i as [|i]; simpl.
  - intros [= ->]. destruct (has_read_registry t), (has_read_registry t'); simpl; lia.
  - intros Hi. specialize (IH i Hi).
    destruct (has_read_registry t0); simpl; lia.
Qed.

Lemma forallb_insert {A} (p : A -> bool) (l : list A) i x :
  forallb p l = true -> p x = true -> forallb p (<[i := x]> l) = true.
Proof.
  revert i. induction l as [|y l IH]; intros i; simpl; [auto|].
  intros Hall Hx. apply andb_true_iff in Hall as [Hy Hl].
  destruct i; simpl; [now rewrite Hx|]. rewrite Hy. now apply IH.
Qed.

Lemma forallb_lookup {A} (p : A -> bool) (l : list A) i x :
  forallb p l = true -> l !! i = Some x -> p x = true.
Proof.
  revert i. induction l as [|y l IH]; intros i; simpl; [discriminate|].
  intros Hall. apply andb_true_iff in Hall as [Hy Hl].
  destruct i; simpl; [now intros [= <-]|]. now apply IH.
Qed.

Lemma step_missed_inv cid c base sys i :
  missed_inv cid c base sys -> missed_inv cid c base (step OUTPUT_BUCKET cid sys i).
Proof.
  intros (Hs3 & Hmissed & Hreads). unfold step.
  destruct (threads sys !! i) as [t|] eqn:Ht; [|repeat split; assumption].
  pose proof (forallb_lookup _ _ _ _ Hmissed Ht) as Hmt.
  revert Hreads.
  pose proof (advance_grows cid t (shared sys)) as [Hs _]. revert Hs.
  generalize (advance_keeps_missed cid t (shared sys) c Hs3 Hmt).
  generalize (advance_reads cid t (shared sys) c Hs3 Hmt).
  destruct (advance OUTPUT_BUCKET cid t (shared sys)) as [t' w'] eqn:Hadv.
  unfold missed_inv. cbn [fst snd shared threads]. intros Hr Hmt' Hs Hreads.
  split; [congruence|]. split; [now apply forallb_insert|].
  pose proof (readers_insert (threads sys) i t t' Ht). lia.
Qed.

Lemma run_missed_inv cid c base schedule sys :
  missed_inv cid c base sys -> missed_inv cid c base (run OUTPUT_BUCKET cid schedule sys).
Proof.
  unfold run. revert sys. induction schedule as [|i schedule IH]; intros sys Hinv;
    [exact Hinv|].
  simpl. apply IH. now apply step_missed_inv.
Qed.

Lemma run_length cid schedule sys :
  length (threads (run OUTPUT_BUCKET cid schedule sys)) = length (threads sys).
Proof.
  unfold run. revert sys. induction schedule as [|i schedule IH]; intros sys;
    [reflexivity|].
  simpl. rewrite IH. unfold step.
  destruct (threads sys !! i) as [t|]; [|reflexivity].
  destruct (advance OUTPUT_BUCKET cid t (shared sys)). simpl. apply length_insert.
Qed.

Lemma readers_returned (ts : list (thread Model Encoders Config)) :
  forallb is_returned ts = true -> readers ts = length ts.
Proof.
  unfold readers. induction ts as [|t ts IH]; simpl; [reflexivity|].
  intros Hall. apply andb_true_iff in Hall as [Ht Hts].
  destruct t; try discriminate. simpl. now rewrite IH.
Qed.

Lemma readers_missed n : readers (repeat (@Missed Model Encoders Config) n) = 0%nat.
Proof. unfold readers. induction n as [|n IH]; simpl; [reflexivity|exact IH]. Qed.

Lemma lookup_at_boundary {A} (l : list A) (y : A) (m k : nat) :
  k = length l -> (0 < m)%nat -> (l ++ repeat y m)%list !! k = Some y.
Proof.
  intros -> Hm. rewrite lookup_app_r by lia. rewrite Nat.sub_diag.
  destruct m; [lia | reflexivity].
Qed.

Lemma insert_at_boundary {A} (l : list A) (x y : A) (m k : nat) :
  k = length l ->
  <[k := x]> (l ++ repeat y (S m))%list = ((l ++ [x]) ++ repeat y m)%list.
Proof.
  intros ->. rewrite insert_app_r_alt by lia.
  rewrite Nat.sub_diag. simpl. now rewrite <- app_assoc.
Qed.

(** [k] of [n] threads take one step each from the same place [t], which
    leaves the stores as they are. *)
Lemma run_pass cid t t' a w n k l0 :
  (forall l, advance OUTPUT_BUCKET cid t (logged l w) = (t', logged (l ++ a) w)) ->
  (k <= n)%nat ->
  exists l,
    run OUTPUT_BUCKET cid (seq 0 k)
        {| shared := logged l0 w; threads := repeat t n |}
    = {| shared := logged l w;
         threads := (repeat t' k ++ repeat t (n - k))%list |}.
Proof.
  intros Hstep. induction k as [|k IH]; intros Hk.
  - exists l0. unfold run. simpl. now rewrite Nat.sub_0_r.
  - destruct IH as (l & IH); [lia|].
    exists (l ++ a)%list. unfold run in *. rewrite seq_S, foldl_app, IH. simpl.
    unfold step. cbn [threads shared].
    rewrite lookup_at_boundary by (rewrite ?repeat_length; lia).
    rewrite Hstep.
    replace (n - k)%nat with (S (n - S k)) by lia.
    rewrite insert_at_boundary by (now rewrite repeat_length).
    now rewrite <- repeat_cons.
Qed.

(** When no cache holds the bundle, [n] callers whose lookups run before
    any load all miss. *)
Lemma lookups_all_miss cid w n :
  redis_hit (get_cache_key "model" cid "") w = None ->
  model_cache w !! cid = None ->
  exists l,
    run OUTPUT_BUCKET cid (seq 0 n ++ seq 0 n) (spawn n w)
    = {| shared := logged l w; threads := repeat Missed n |}.
Proof.
  intros Hredis Hmemory.
  destruct (run_pass cid Entered AtMemoryCache
              (redis_log (get_cache_key "model" cid "") w) w n n [])
    as (l1 & H1); [|lia|].
  { intros l. rewrite advance_entered, redis_hit_logged, Hredis, logged_logged.
    reflexivity. }
  rewrite Nat.sub_diag, app_nil_r, logged_nil in H1.
  destruct (run_pass cid AtMemoryCache Missed [MemoryLookup cid] w n n l1)
    as (l2 & H2); [|lia|].
  { intros l. rewrite advance_at_memory_cache, logged_logged. simpl_logged.
    now rewrite Hmemory. }
  rewrite Nat.sub_diag, app_nil_r in H2.
  exists l2. unfold run in *. unfold spawn. now rewrite foldl_app, H1, H2.
Qed.

Lemma grows_refl w : grows w w.
Proof. split; [reflexivity|]. exists []. now rewrite app_nil_r. Qed.

Lemma grows_trans w1 w2 w3 : grows w1 w2 -> grows w2 w3 -> grows w1 w3.
Proof.
  intros (Hs & l & Hl) (Hs' & l' & Hl'). split; [congruence|].
  exists (l ++ l')%list. now rewrite Hl', Hl, app_assoc.
Qed.

Lemma run_grows cid schedule (sys : system Model Encoders Config) :
  grows (shared sys) (shared (run OUTPUT_BUCKET cid schedule sys)).
Proof.
  unfold run. revert sys. induction schedule as [|i schedule IH]; intros sys;
    [apply grows_refl|].
  simpl. eapply grows_trans; [|apply IH]. unfold step.
  destruct (threads sys !! i) as [t|]; [|apply grows_refl].
  pose proof (advance_grows cid t (shared sys)) as Hg.
  destruct (advance OUTPUT_BUCKET cid t (shared sys)). exact Hg.
Qed.

End CacheFacts.

(** [load_customer_model] called on its own with the bundle in both
    caches: it is Redis that is read, and its copy that is returned.  A
    request does not make this call: it finds the bundle in the memory
    cache. *)
Lemma tier_order_counterexample :
  ForecastingApi.model_cache Examples.warm_world !! "Sibaya" = Some "weights"
  /\ ForecastingApi.load_customer_model Examples.OUTPUT_BUCKET "Sibaya" Examples.warm_world
     = (Ok ("str(weights)", "str(weights)", None),
        ForecastingApi.logged [ForecastingApi.RedisGet "edge:model:Sibaya:"]
                              Examples.warm_world).
Proof. split; vm_compute; reflexivity. Qed.

(** C8.  A load from S3 whose model weights download and then fail to
    load: the call raises, and the temporary file of the weights is still
    there afterwards.  (With weights that load, both temporary files are
    removed.) *)
Theorem temp_file_survives_failed_load :
  (let (r, w) := ForecastingApi.load_customer_model Examples.OUTPUT_BUCKET "Sibaya"
                   (Examples.cold_world "corrupt") in
   r = Raise (Exception_ "load error")
   /\ ForecastingApi.files w !! ForecastingApi.local_model_path "Sibaya" = Some "corrupt")
  /\ (let (r, w) := ForecastingApi.load_customer_model Examples.OUTPUT_BUCKET "Sibaya"
                      (Examples.cold_world "weights") in
      r = Ok ("weights", "encoders", None)
      /\ ForecastingApi.files w !! ForecastingApi.local_model_path "Sibaya" = None
      /\ ForecastingApi.files w !! ForecastingApi.local_encoders_path "Sibaya" = None).
Proof. split; vm_compute; repeat split; reflexivity. Qed.



(** ** Recent customer data *)

Section RecentDataFacts.
Context {F Model Encoders Config : Type} `{ForecastingApi.Codecs F Model Encoders Config}.
Import ForecastingApi.
Implicit Types (w : world Model Encoders Config) (df : frame F).

Lemma recent_from_redis_world key w :
  exists hit l, recent_from_redis key w = (Ok hit, logged l w).
Proof.
  unfold recent_from_redis, redis_get, record. unfold_io.
  destruct (redis_client w) as [r|]; [|exists None, []; now rewrite logged_nil].
  destruct (Redis.get r key) as [[s|]|e]; try (eexists; eexists; reflexivity).
  destruct s as [|a s]; [eexists; eexists; reflexivity|].
  destruct (read_json (String a s)); eexists; eexists; reflexivity.
Qed.

Lemma to_datetime_is_datetime (c ts : column F) :
  to_datetime c = Ok ts -> forallb is_datetime ts = true.
Proof.
  unfold to_datetime. revert ts. induction c as [|x c IH]; simpl; intros ts.
  - intros [= <-]. reflexivity.
  - destruct x as [v|].
    + destruct (datetime_of_value v); [|discriminate].
      destruct (for_each _ c) as [ts'|]; [|discriminate].
      intros [= <-]. simpl. now apply IH.
    + destruct (for_each _ c) as [ts'|]; [|discriminate].
      intros [= <-]. simpl. now apply IH.
Qed.

(** Reading the series changes the log only, and its [timestamp] column
    holds timestamps. *)
Lemma read_series_inv c cid w df w' :
  read_series c cid w = (Ok df, w') ->
  (exists l, w' = logged l w)
  /\ exists ts, get_col "timestamp" df = Ok ts /\ forallb is_datetime ts = true.
Proof.
  unfold read_series, s3_list_input, s3_get_input, record. unfold_io.
  destruct (firstn 1000 _) as [|k ks]; [discriminate|].
  destruct (find_customer_file cid (k :: ks)) as [file|]; [|discriminate].
  destruct (assoc_blob file (input_bucket c)) as [body|]; simpl; [|discriminate].
  destruct (read_csv body) as [df0|]; simpl; [|discriminate].
  destruct (get_col "timestamp" df0) as [ts0|]; simpl; [|discriminate].
  destruct (to_datetime ts0) as [ts|] eqn:Hts; simpl; [|discriminate].
  intros [= <- <-]. split.
  - eexists. now rewrite logged_logged.
  - exists ts. rewrite get_col_set_col. simpl. split; [reflexivity|].
    eapply to_datetime_is_datetime; eauto.
Qed.

(** The write to Redis never raises. *)
Lemma cache_recent_ok key df w : exists w', cache_recent key df w = (Ok tt, w').
Proof.
  unfold cache_recent, redis_setex, record. unfold_io.
  destruct (redis_client w) as [r|]; [|eauto].
  destruct (to_json df); simpl; [|eauto].
  destruct (Redis.setex r key DATA_CACHE_TTL _); simpl; eauto.
Qed.

Lemma count_true_all_false (mask : list bool) :
  existsb id mask = false -> count_true mask = 0%nat.
Proof.
  unfold count_true. induction mask as [|b mask IH]; simpl; [reflexivity|].
  destruct b; simpl; [discriminate | exact IH].
Qed.

Lemma existsb_firstn {A} (p : A -> bool) n (l : list A) :
  existsb p l = false -> existsb p (firstn n l) = false.
Proof.
  revert n; induction l as [|x l IH]; intros [|n]; simpl; auto.
  destruct (p x); [discriminate|]. simpl. apply IH.
Qed.

(** [df.tail(h)] has [min(h, len(df))] rows for [h >= 0]. *)
Lemma nrows_tail h df :
  0 <= h -> nrows (tail h df) = Nat.min (Z.to_nat h) (nrows df).
Proof.
  intros Hh. unfold tail. simpl.
  replace (h <? 0) with false by (symmetry; apply Z.ltb_ge; lia). lia.
Qed.

Lemma at_or_after_perm cutoff (c c' : column F) :
  Permutation c c' ->
  negb (existsb id (at_or_after cutoff c)) = negb (existsb id (at_or_after cutoff c')).
Proof.
  intros Hp. f_equal. apply existsb_perm. unfold at_or_after.
  now apply Permutation_map.
Qed.

(** Lines 228-237 when no record is in the window: the last [hours]
    records of the sorted series. *)
Lemma recent_rows_fallback df ts current_time hours :
  wf_frame df -> get_col "timestamp" df = Ok ts -> forallb is_datetime ts = true ->
  existsb id (at_or_after (current_time - Calendar.hours hours) ts) = false ->
  exists sorted,
    sort_values "timestamp" df = Ok sorted /\ nrows sorted = nrows df
    /\ recent_rows df current_time hours = Ok (tail hours sorted).
Proof.
  intros Hwf Hts Hdt Hnone.
  destruct (sorted_columns ["timestamp"] df ts Hwf Hts Hdt)
    as (sorted & Hsort & Hn & Hwfs & Hcols).
  exists sorted. split; [exact Hsort|]. split; [exact Hn|].
  specialize (Hcols (fun c => negb (existsb id
                                      (at_or_after (current_time - Calendar.hours hours) c)))
                    (at_or_after_perm _)).
  simpl in Hcols. rewrite Hts in Hcols. simpl in Hcols. rewrite Hnone in Hcols.
  unfold recent_rows. rewrite Hsort. unfold_result.
  destruct (get_col "timestamp" sorted) as [ts'|]; [|discriminate].
  simpl in Hcols. rewrite andb_true_r in Hcols. apply negb_true_iff in Hcols.
  rewrite count_true_all_false by (now apply existsb_firstn).
  reflexivity.
Qed.

End RecentDataFacts.



(** * Further properties *)

(** ** Forecast assembler *)

Section TargetFacts.
Context {V : Type}.
Import ForecastingApi.

Lemma nth_error_skipn_nil (pred : list V) k :
  nth_error pred k = None -> skipn k pred = [].
Proof. intros Hk. apply skipn_all2. now apply nth_error_None. Qed.

Lemma nth_error_skipn_cons (pred : list V) k p :
  nth_error pred k = Some p -> skipn k pred = p :: skipn (S k) pred.
Proof.
  revert k; induction pred as [|x pred IH]; intros [|k]; simpl; try discriminate.
  - now intros [= ->].
  - apply IH.
Qed.

Lemma target_loop_from (targets : list string) (pred : list V) k :
  flat_map (fun jt : nat * string =>
              let (j, target) := jt in
              match nth_error pred j with
              | Some p => [(target ++ "_forecast", p)]
              | None => []
              end)
           (combine (seq k (length targets)) targets)
  = combine (map (fun target => target ++ "_forecast") targets) (skipn k pred).
Proof.
  revert k; induction targets as [|t targets IH]; intros k; simpl; [reflexivity|].
  rewrite IH. destruct (nth_error pred k) as [p|] eqn:Hk.
  - now rewrite (nth_error_skipn_cons pred k p Hk).
  - rewrite (nth_error_skipn_nil pred k Hk).
    rewrite (nth_error_skipn_nil pred (S k)).
    + simpl. now destruct (map _ targets).
    + apply nth_error_None. apply nth_error_None in Hk. lia.
Qed.

(** X1.  The targets of a forecast entry: the target names, each with
    the suffix [_forecast], paired position by position with the prediction
    vector.  A vector shorter than the list of targets fills only the first
    targets, and the components of a longer vector beyond the targets are
    left out. *)
Theorem target_forecasts_zip (targets : list string) (pred : list V) :
  target_forecasts targets pred
  = combine (map (fun target => target ++ "_forecast") targets) pred
  /\ length (target_forecasts targets pred) = Nat.min (length targets) (length pred).
Proof.
  assert (Hzip : target_forecasts targets pred
                 = combine (map (fun target => target ++ "_forecast") targets) pred).
  { unfold target_forecasts, enumerate. apply (target_loop_from targets pred 0). }
  split; [exact Hzip|]. now rewrite Hzip, length_combine, length_map.
Qed.

(** X2.  For a non-empty list of predictions the assembler returns
    [min(forecast_hours, len(predictions))] points (none when
    [forecast_hours] is not positive).  Point [i], counted from 0, is
    stamped [i + 1] hours after the last timestamp, has [hour_ahead = i + 1]
    and carries the targets of [predictions[i]]. *)
Theorem assemble_forecasts_points (predictions : list (list V))
    (last_timestamp forecast_hours : Z) (targets : list string) :
  predictions <> [] ->
  exists forecasts,
    assemble_forecasts predictions last_timestamp forecast_hours targets = Ok forecasts
    /\ length forecasts = Z.to_nat (Z.min forecast_hours (len predictions))
    /\ forall i pred,
         (i < length forecasts)%nat -> predictions !! i = Some pred ->
         forecasts !! i
         = Some {| fe_timestamp := last_timestamp + Calendar.hours (Z.of_nat i + 1);
                   fe_hour_ahead := Z.of_nat i + 1;
                   fe_targets := target_forecasts targets pred |}.
Proof.
  intros Hne. eexists. split; [now apply assemble_forecasts_entries|].
  split; [now rewrite length_map, length_seq|].
  intros i pred Hi Hpred. rewrite length_map, length_seq in Hi.
  rewrite list_lookup_fmap, lookup_seq_lt by exact Hi. simpl. unfold entry_at.
  do 2 f_equal. now rewrite (nth_lookup_Some _ _ _ _ Hpred).
Qed.
End TargetFacts.

(** ** The model cache: failures, Redis outages and repeated requests *)

Section CacheFailureFacts.
Context {F Model Encoders Config : Type} `{ForecastingApi.Codecs F Model Encoders Config}.
Variable OUTPUT_BUCKET : string.
Import ForecastingApi.

Lemma same_caches_refl (w : world Model Encoders Config) : same_caches w w.
Proof. unfold same_caches. auto. Qed.

Lemma same_caches_trans (w1 w2 w3 : world Model Encoders Config) :
  same_caches w1 w2 -> same_caches w2 w3 -> same_caches w1 w3.
Proof.
  unfold same_caches. intros (? & ? & ? & ? & ?) (? & ? & ? & ? & ?).
  repeat split; congruence.
Qed.

Lemma same_caches_logged l (w : world Model Encoders Config) :
  same_caches w (logged l w).
Proof. unfold same_caches. auto. Qed.

(** A load from S3 that raises has written to neither cache. *)
Lemma load_bundle_raise_caches c cid key w e w' :
  load_bundle OUTPUT_BUCKET c cid key w = (Raise e, w') -> same_caches w w'.
Proof.
  unfold load_bundle, s3_get_output, s3_download_file, load_file, record, redis_setex,
    redis_get.
  unfold_io.
  repeat match goal with
         | |- context [match ?x with _ => _ end] =>
             match type of x with
             | result _ => destruct x eqn:?
             | option _ => destruct x eqn:?
             end; simpl; try discriminate
         end.
  all: intros [= <- <-]; unfold same_caches; simpl; auto.
Qed.

Lemma load_cold_raise_caches cid key w e w' :
  load_cold OUTPUT_BUCKET cid key w = (Raise e, w') -> same_caches w w'.
Proof.
  unfold load_cold. unfold_io. destruct (s3 w) as [c|].
  - unfold load_from_s3. unfold mbind at 1. unfold io_bind.
    destruct (load_bundle OUTPUT_BUCKET c cid key w) as [[data0|e0] w0] eqn:Hload.
    + unfold mbind, io_bind.
      destruct (clean_up_temp_files_spec cid w0) as (w1 & -> & _). discriminate.
    + intros [= <- <-]. eapply load_bundle_raise_caches; eauto.
  - intros [= <- <-]. apply same_caches_refl.
Qed.


End CacheFailureFacts.

Section RedisOutageFacts.
Context {F Model Encoders Config : Type} `{ForecastingApi.Codecs F Model Encoders Config}.
Variable OUTPUT_BUCKET : string.
Import ForecastingApi.

Local Abbreviation W := (world Model Encoders Config).

Lemma same_outcome_ret {A} (a : A) : same_outcome (mret a : io W A) (mret a).
Proof. intros w1 w2 Hw. split; [reflexivity|exact Hw]. Qed.

Lemma same_outcome_bind {A B} (m1 m2 : io W A) (f1 f2 : A -> io W B) :
  same_outcome m1 m2 -> (forall a, same_outcome (f1 a) (f2 a)) ->
  same_outcome (m1 ≫= f1) (m2 ≫= f2).
Proof.
  intros Hm Hf w1 w2 Hw. destruct (Hm w1 w2 Hw) as [Hr Hs].
  unfold mbind, io_bind.
  destruct (m1 w1) as [r1 s1], (m2 w2) as [r2 s2]. simpl in *. subst r2.
  destruct r1 as [a|e]; [now apply Hf|]. split; [reflexivity|exact Hs].
Qed.

Lemma same_outcome_lift {A} (r : result A) : same_outcome (lift r : io W A) (lift r).
Proof. intros w1 w2 Hw. split; [reflexivity|exact Hw]. Qed.

Lemma same_outcome_record a : same_outcome (record a : io W unit) (record a).
Proof.
  intros w1 w2 Hw. split; [reflexivity|]. unfold record, modify, outage in *. simpl.
  exact Hw.
Qed.

Lemma same_outcome_gets {A} (f : W -> A) :
  (forall w1 w2, outage w1 w2 -> f w1 = f w2) -> same_outcome (gets f) (gets f).
Proof. intros Hf w1 w2 Hw. split; [simpl; f_equal; now apply Hf|exact Hw]. Qed.

Lemma same_outcome_modify (f : W -> W) :
  (forall w1 w2, outage w1 w2 -> outage (f w1) (f w2)) ->
  same_outcome (modify f) (modify f).
Proof. intros Hf w1 w2 Hw. split; [reflexivity|now apply Hf]. Qed.

Lemma outage_files (w1 w2 : W) : outage w1 w2 -> files w1 = files w2.
Proof. unfold outage. tauto. Qed.

Lemma outage_set_files (g : gmap string string -> gmap string string) (w1 w2 : W) :
  outage w1 w2 -> outage (set_files (g (files w1)) w1) (set_files (g (files w2)) w2).
Proof.
  unfold outage. simpl. intros (Hr & ? & ? & ? & ? & ? & -> & ?). auto 10.
Qed.

Ltac same_outcome_step :=
  first [ apply same_outcome_ret | apply same_outcome_lift | apply same_outcome_record
        | apply same_outcome_bind; [|intros ?] ].

Lemma same_outcome_download c key path :
  same_outcome (s3_download_file c key path : io W unit) (s3_download_file c key path).
Proof.
  unfold s3_download_file. repeat same_outcome_step.
  apply same_outcome_modify. intros w1 w2.
  apply (outage_set_files (insert path _)).
Qed.

Lemma same_outcome_get_output c key :
  same_outcome (s3_get_output c key : io W string) (s3_get_output c key).
Proof. unfold s3_get_output. repeat same_outcome_step. Qed.

Lemma same_outcome_load_file {A} (loader : string -> option A) path :
  same_outcome (load_file loader path : io W A) (load_file loader path).
Proof.
  unfold load_file. apply same_outcome_bind; [|intros fs; repeat same_outcome_step].
  apply same_outcome_gets, outage_files.
Qed.

Lemma same_outcome_remove path :
  same_outcome (remove_if_exists path : io W unit) (remove_if_exists path).
Proof.
  unfold remove_if_exists. apply same_outcome_bind.
  { apply same_outcome_gets, outage_files. }
  intros fs. destruct (fs !! path); repeat same_outcome_step.
  apply same_outcome_modify. intros w1 w2.
  apply (outage_set_files (fun fs => delete path fs)).
Qed.

(** The write to Redis at the end of a load: it fails and is swallowed
    when the server does not answer, and is skipped without a client. *)
Lemma same_outcome_cache_write {B} (write : redis -> io W unit) (k : unit -> io W B) :
  (forall r w, redis_up r = false -> exists e l, write r w = (Raise e, logged l w)) ->
  (forall u, same_outcome (k u) (k u)) ->
  same_outcome (client ← gets redis_client;
                match client with
                | None => mret tt
                | Some r => try_except (write r) (fun _ => mret tt)
                end ≫= k)
               (client ← gets redis_client;
                match client with
                | None => mret tt
                | Some r => try_except (write r) (fun _ => mret tt)
                end ≫= k).
Proof.
  intros Hwrite Hk w1 w2 Hw. pose proof Hw as ((r & Hc & Hdown) & Hnone & Hrest).
  destruct (Hwrite r w1 Hdown) as (e & l & Hl).
  set (block := fun client : option redis =>
                  match client with
                  | None => mret tt
                  | Some r => try_except (write r) (fun _ => mret tt)
                  end ≫= k).
  assert (E1 : (gets redis_client ≫= block) w1 = k tt (logged l w1)).
  { unfold block, mbind, io_bind, gets, try_except, mret, io_ret.
    now rewrite Hc, Hl. }
  assert (E2 : (gets redis_client ≫= block) w2 = k tt w2).
  { unfold block, mbind, io_bind, gets, try_except, mret, io_ret.
    now rewrite Hnone. }
  rewrite E1, E2. apply Hk. unfold outage in *. simpl. rewrite Hc. eauto 10.
Qed.

Lemma same_outcome_load_bundle c cid key :
  same_outcome (load_bundle OUTPUT_BUCKET c cid key) (load_bundle OUTPUT_BUCKET c cid key).
Proof.
  unfold load_bundle.
  repeat first
    [ match goal with
      | |- same_outcome (_ ≫= fun client => match client with
                                            | Some r => try_except (@?write r) _
                                            | None => _
                                            end ≫= ?k) _ =>
          apply (same_outcome_cache_write write k); [|intros ?]
      end
    | apply same_outcome_get_output | apply same_outcome_download
    | apply same_outcome_load_file | same_outcome_step ].
  - destruct (config_path _);
      repeat first [ apply same_outcome_get_output | same_outcome_step ].
  - apply same_outcome_modify. unfold outage. simpl.
    intros w1 w2 (? & ? & ? & -> & -> & -> & ? & ?). auto 10.
  - intros r w Hdown. unfold redis_setex, record, Redis.setex. unfold_io.
    rewrite Hdown.
    destruct (json_dumps_bundle _ _ _); simpl.
    + do 2 eexists. reflexivity.
    + exists TypeError, []. now rewrite logged_nil.
Qed.

Lemma same_outcome_load_cold cid key :
  same_outcome (load_cold OUTPUT_BUCKET cid key) (load_cold OUTPUT_BUCKET cid key).
Proof.
  intros w1 w2 Hw. pose proof Hw as (_ & _ & Hs3 & _).
  unfold load_cold, mbind, io_bind, gets. rewrite Hs3.
  destruct (s3 w2) as [c|]; [|split; [reflexivity|exact Hw]].
  assert (Hload : same_outcome (load_from_s3 OUTPUT_BUCKET c cid key)
                               (load_from_s3 OUTPUT_BUCKET c cid key)).
  { unfold load_from_s3. apply same_outcome_bind; [apply same_outcome_load_bundle|].
    intros data. apply same_outcome_bind; [|intros _; apply same_outcome_ret].
    unfold clean_up_temp_files. simpl for_.
    repeat first [ apply same_outcome_remove | same_outcome_step ]. }
  destruct (Hload w1 w2 Hw) as [Hr Hs]. unfold try_except, raise.
  destruct (load_from_s3 OUTPUT_BUCKET c cid key w1) as [r1 s1],
           (load_from_s3 OUTPUT_BUCKET c cid key w2) as [r2 s2].
  simpl in *. subst r2. destruct r1; auto.
Qed.

(** X4.  A Redis server that does not answer is transparent to
    [load_customer_model]: the call returns (or raises) what it would with
    no Redis client at all, and leaves the memory cache and the local files
    in the same state. *)
Theorem redis_outage_is_transparent cid w r :
  redis_client w = Some r -> redis_up r = false ->
  let (r1, w1) := load_customer_model OUTPUT_BUCKET cid w in
  let (r2, w2) := load_customer_model OUTPUT_BUCKET cid (without_redis w) in
  r1 = r2
  /\ model_cache w1 = model_cache w2 /\ encoders_cache w1 = encoders_cache w2
  /\ config_cache w1 = config_cache w2 /\ files w1 = files w2.
Proof.
  intros Hclient Hdown.
  assert (Hw : forall l l', outage (logged l w) (logged l' (without_redis w))).
  { intros l l'. unfold outage. simpl. eauto 12. }
  assert (Hout : forall p1 p2 : result (bundle Model Encoders Config) * W,
             fst p1 = fst p2 /\ outage (snd p1) (snd p2) ->
             let (r1, w1) := p1 in let (r2, w2) := p2 in
             r1 = r2
             /\ model_cache w1 = model_cache w2 /\ encoders_cache w1 = encoders_cache w2
             /\ config_cache w1 = config_cache w2 /\ files w1 = files w2).
  { intros [r1 w1] [r2 w2]. unfold outage. simpl. tauto. }
  apply Hout.
  rewrite !load_customer_model_eq, !lookup_caches_spec.
  set (key := get_cache_key "model" cid "").
  assert (Hmiss : redis_hit key w = None).
  { unfold redis_hit, Redis.get. now rewrite Hclient, Hdown. }
  rewrite Hmiss.
  change (redis_hit key (without_redis w)) with (@None (bundle Model Encoders Config)).
  change (memory_hit cid (without_redis w)) with (memory_hit cid w).
  destruct (memory_hit cid w) as [[data|]|e]; simpl; auto.
  now apply same_outcome_load_cold.
Qed.

(** X5.  Step 1 of [generate_forecast] is idempotent: once it has returned
    a bundle, a second request for the same customer returns the same bundle
    and touches nothing, neither Redis nor S3. *)
Theorem cached_model_repeat cid w b w1 :
  cached_model OUTPUT_BUCKET cid w = (Ok b, w1) ->
  cached_model OUTPUT_BUCKET cid w1 = (Ok b, w1).
Proof.
  unfold cached_model at 1. unfold_io.
  destruct (model_cache w !! cid) as [model|] eqn:Hm.
  - destruct (encoders_cache w !! cid) as [enc|] eqn:He; [|discriminate].
    intros [= <- <-]. now apply cached_model_memory_first.
  - destruct (load_customer_model OUTPUT_BUCKET cid w) as [[[[model enc] config]|e] w0];
      [|discriminate].
    intros [= <- <-].
    rewrite (cached_model_memory_first OUTPUT_BUCKET cid _ model enc);
      simpl; rewrite ?lookup_insert_eq; reflexivity.
Qed.
End RedisOutageFacts.

Lemma string_length_append (s t : string) :
  String.length (s ++ t) = (String.length s + String.length t)%nat.
Proof. induction s as [|a s IH]; simpl; [reflexivity|now rewrite IH]. Qed.

(** X6.  The two services do not share their Redis records: for one
    customer, the key under which the forecasting API caches a bundle
    ([edge:model:<id>:]) is not the key of the record of the model updater
    ([edge:model:<id>]), and a write of either service leaves what the other
    reads unchanged. *)
Theorem model_keys_are_distinct (cid : string) (r : redis) (ttl : Z) (v : string) :
  ForecastingApi.get_cache_key "model" cid "" <> "edge:model:" ++ cid
  /\ match Redis.setex r ("edge:model:" ++ cid) ttl v with
     | Ok r' => Redis.get r' (ForecastingApi.get_cache_key "model" cid "")
                = Redis.get r (ForecastingApi.get_cache_key "model" cid "")
     | Raise _ => True
     end
  /\ match Redis.setex r (ForecastingApi.get_cache_key "model" cid "") ttl v with
     | Ok r' => Redis.get r' ("edge:model:" ++ cid) = Redis.get r ("edge:model:" ++ cid)
     | Raise _ => True
     end.
Proof.
  assert (Hne : ForecastingApi.get_cache_key "model" cid "" <> "edge:model:" ++ cid).
  { unfold ForecastingApi.get_cache_key. simpl. intros [= Heq].
    apply (f_equal String.length) in Heq. rewrite !string_length_append in Heq.
    simpl in Heq. lia. }
  split; [exact Hne|]. unfold Redis.setex, Redis.get.
  destruct (redis_up r) eqn:Hup; simpl; [|auto].
  split; (rewrite lookup_insert_ne; [reflexivity|congruence]).
Qed.

(** ** Recent data *)

Section RecentWindowFacts.
Context {F Model Encoders Config : Type} `{ForecastingApi.Codecs F Model Encoders Config}.
Import ForecastingApi.

(** X7.  A frame cached in Redis under the key of the customer and of the
    window is returned as it was stored: one read of Redis, no access to S3,
    and no comparison of its rows with the clock. *)
Theorem recent_data_cache_hit cid hours (w : world Model Encoders Config) r s df :
  let key := get_cache_key "data" cid ("recent_" ++ Text.str_int hours ++ "h") in
  redis_client w = Some r ->
  Redis.get r key = Ok (Some s) -> s <> "" -> read_json s = Some df ->
  get_recent_customer_data cid hours w = (Ok df, logged [RedisGet key] w).
Proof.
  intros key Hclient Hget Hs Hjson.
  unfold get_recent_customer_data, recent_from_redis, redis_get, record. fold key.
  unfold_io. rewrite Hclient, Hget.
  destruct s as [|a s]; [contradiction|]. now rewrite Hjson.
Qed.

(** X8.  When Redis has no frame and S3 lists no file of the customer among
    the first thousand keys under [total/], the call raises [ValueError]
    after the listing alone: no object is read and nothing is written to
    Redis. *)
Theorem recent_data_without_file cid hours (w w1 : world Model Encoders Config) c :
  let key := get_cache_key "data" cid ("recent_" ++ Text.str_int hours ++ "h") in
  let listing := firstn 1000 (List.filter (String.prefix "total/")
                                          (map fst (input_bucket c))) in
  recent_from_redis key w = (Ok None, w1) ->
  s3 w = Some c ->
  find_customer_file cid listing = None ->
  get_recent_customer_data cid hours w
  = (Raise (ValueError ((match listing with
                         | [] => "No data found for customer "
                         | _ => "No total_load.csv found for customer "
                         end) ++ cid)),
     logged [S3List "total/"] w1)
  /\ redis_client w1 = redis_client w.
Proof.
  intros key listing Hredis Hs3 Hfind.
  destruct (recent_from_redis_world key w) as (hit & l & Hr).
  rewrite Hr in Hredis. injection Hredis as -> <-.
  split; [|reflexivity].
  unfold get_recent_customer_data. fold key. unfold mbind at 1. unfold io_bind.
  rewrite Hr. unfold_io. rewrite Hs3.
  unfold fetch_recent, read_series, s3_list_input, record. unfold_io.
  fold listing. destruct listing as [|k ks] eqn:Hl; [reflexivity|].
  now rewrite Hfind.
Qed.
End RecentWindowFacts.

Section RecentRowsFacts.
Context {F Model Encoders Config : Type} `{ForecastingApi.Codecs F Model Encoders Config}.
Import ForecastingApi.

Lemma select_at_or_after cutoff (c : column F) :
  Forall (fun x => exists t, x = Some (VTime t) /\ cutoff <= t)
         (select (at_or_after cutoff c) c).
Proof.
  induction c as [|x c IH]; simpl; [constructor|].
  destruct x as [[v|z|s|t]|]; simpl; try exact IH.
  destruct (cutoff <=? t) eqn:Ht; [|exact IH].
  constructor; [|exact IH]. exists t. split; [reflexivity|lia].
Qed.

Lemma count_true_at_or_after_perm cutoff (c c' : column F) :
  Permutation c c' ->
  count_true (at_or_after cutoff c) = count_true (at_or_after cutoff c').
Proof.
  unfold count_true, at_or_after.
  induction 1 as [|x l l' _ IH|x y l|l l' l'' _ IH1 _ IH2]; simpl.
  - reflexivity.
  - destruct (match time_of x with Some t => cutoff <=? t | None => false end);
      simpl; now rewrite IH.
  - destruct (match time_of x with Some t => cutoff <=? t | None => false end),
             (match time_of y with Some t => cutoff <=? t | None => false end);
      reflexivity.
  - congruence.
Qed.

Lemma count_true_positive (mask : list bool) :
  existsb id mask = true -> (0 < count_true mask)%nat.
Proof.
  unfold count_true. induction mask as [|b mask IH]; simpl; [discriminate|].
  destruct b; simpl; [lia|exact IH].
Qed.

End RecentRowsFacts.

(** ** Sequence windows *)

Section WindowShapeFacts.
Context {F : Type} `{FloatOps F}.
Import ForecastingApi.

Lemma length_omap_le {A B} (f : A -> option B) (l : list A) :
  (length (omap f l) <= length l)%nat.
Proof.
  induction l as [|x l IH]; simpl; [lia|].
  change (list_omap A B f l) with (omap f l). destruct (f x); simpl; lia.
Qed.

Lemma sequence_at_shape cols L (sorted : frame F) i w :
  (L <= i <= nrows sorted)%nat ->
  sequence_at cols L sorted i = Some w ->
  length w = L
  /\ Forall (fun row => length row = length cols /\ Forall (fun x => x <> None) row) w.
Proof.
  intros Hi. unfold sequence_at, values, isnan_any. unfold_result.
  destruct (for_each (fun name => get_col name (iloc (i - L) i sorted)) cols)
    as [data|] eqn:Hdata; [|discriminate].
  destruct (isnan_defined cols sorted); [|discriminate].
  match goal with
  | |- context [existsb (existsb isnan) ?m] =>
      destruct (existsb (existsb isnan) m) eqn:Hnan; [discriminate|]
  end.
  intros [= <-]. split.
  - rewrite length_map, length_seq. lia.
  - apply Forall_forall. intros row Hrow.
    split.
    + apply list_elem_of_In, in_map_iff in Hrow as (r & <- & _).
      rewrite length_map. eapply for_each_length; eauto.
    + apply Forall_forall. intros x Hx ->.
      assert (existsb (existsb isnan)
                (map (fun i0 => map (fun c => nth i0 c None) data)
                     (seq 0 (Nat.min i (nrows sorted) - (i - L)))) = true);
        [|congruence].
      apply existsb_exists. exists row. split; [now apply list_elem_of_In|].
      apply existsb_exists. exists None. split; [now apply list_elem_of_In|reflexivity].
Qed.

(** X10.  Every window that the windower returns is a full matrix: it has
    [seq_length] rows, each row has one cell per feature column, and no
    cell is missing.  It returns at least one window and at most one per
    end row. *)
Theorem sequences_are_full_windows (df : frame F) cols L ws :
  create_sequences_for_inference df cols L = Ok ws ->
  ws <> []
  /\ (length ws <= S (nrows df) - L)%nat
  /\ Forall (fun w => length w = L
                      /\ Forall (fun row => length row = length cols
                                            /\ Forall (fun x => x <> None) row) w) ws.
Proof.
  unfold create_sequences_for_inference. unfold_result.
  destruct (sort_values "timestamp" df) as [sorted|] eqn:Hsort; [|discriminate].
  pose proof (sort_values_nrows _ _ _ Hsort) as Hn.
  destruct (nrows sorted <? L)%nat eqn:HL; [discriminate|].
  apply Nat.ltb_ge in HL.
  destruct (omap (sequence_at cols L sorted) (seq L (S (nrows sorted) - L)))
    as [|w0 ws0] eqn:Hseq; [discriminate|].
  intros [= <-]. split; [discriminate|]. split.
  - rewrite <- Hseq, <- Hn.
    etransitivity; [apply length_omap_le|]. now rewrite length_seq.
  - rewrite <- Hseq. apply Forall_forall. intros w Hw.
    apply list_elem_of_omap in Hw as (i & Hi & Hw).
    apply list_elem_of_In, in_seq in Hi.
    eapply sequence_at_shape; [|exact Hw]. lia.
Qed.

Lemma complete_frame_sequences (df : frame F) cols L ts :
  wf_frame df -> get_col "timestamp" df = Ok ts -> forallb is_datetime ts = true ->
  numeric_dtype cols df = true -> features_complete cols df = true ->
  (L <= nrows df)%nat ->
  exists sorted data,
    sort_values "timestamp" df = Ok sorted
    /\ for_each (fun name => get_col name sorted) cols = Ok data
    /\ create_sequences_for_inference df cols L
       = Ok (map (fun a => rows_of data a L) (seq 0 (S (nrows df) - L)))
    /\ length (map (fun a => rows_of data a L) (seq 0 (S (nrows df) - L)))
       = (nrows df - L + 1)%nat.
Proof.
  intros Hwf Hts Hdt Hnd Hcomplete HL.
  destruct (sorted_columns cols df ts Hwf Hts Hdt)
    as (sorted & Hsort & Hn & Hwfs & Hcols).
  assert (Hnum : numeric_dtype cols sorted = true).
  { unfold numeric_dtype in *.
    specialize (Hcols (forallb is_numeric) numeric_perm).
    destruct (for_each (fun name => get_col name sorted) cols),
             (for_each (fun name => get_col name df) cols); congruence. }
  destruct (numeric_dtype_true _ _ Hnum) as (data & Hdata).
  assert (Hall : forallb (fun c => negb (existsb isnan c)) data = true).
  { unfold features_complete in Hcomplete.
    specialize (Hcols (fun c => negb (existsb isnan c)) complete_perm).
    rewrite Hdata in Hcols.
    destruct (for_each (fun name => get_col name df) cols); congruence. }
  exists sorted, data. split; [exact Hsort|]. split; [exact Hdata|]. split.
  - unfold create_sequences_for_inference. rewrite Hsort. unfold_result.
    replace (nrows sorted <? L)%nat with false
      by (symmetry; apply Nat.ltb_ge; lia).
    rewrite kept_sequences by (auto using numeric_isnan_defined; lia).
    unfold spec_windows, candidate_windows. rewrite Hdata, Hn.
    assert (Hkeep : List.filter complete
                      (map (fun a => rows_of data a L) (seq 0 (S (nrows df) - L)))
                    = map (fun a => rows_of data a L) (seq 0 (S (nrows df) - L))).
    { apply forallb_filter_id. apply forallb_forall. intros w Hw.
      apply in_map_iff in Hw as (a & <- & Ha). apply in_seq in Ha.
      apply (rows_of_complete data a L (nrows sorted)); auto; [|lia].
      eapply for_each_get_col_length; eauto. }
    rewrite Hkeep.
    destruct (seq 0 (S (nrows df) - L)) eqn:Hs; [|reflexivity].
    apply (f_equal (@length nat)) in Hs. rewrite length_seq in Hs. simpl in Hs. lia.
  - rewrite length_map, length_seq. lia.
Qed.

(** X11.  On a frame whose feature columns are numeric and have no missing
    cell, no candidate is dropped: [n] rows give [n - seq_length + 1]
    windows, the window at position [a] being the rows [a] to
    [a + seq_length - 1] of the frame sorted by timestamp; the last window
    ends with the latest row. *)
Theorem sequences_of_complete_frame (df : frame F) cols L ts :
  wf_frame df -> get_col "timestamp" df = Ok ts -> forallb is_datetime ts = true ->
  numeric_dtype cols df = true -> features_complete cols df = true ->
  (L <= nrows df)%nat ->
  exists sorted data,
    sort_values "timestamp" df = Ok sorted
    /\ for_each (fun name => get_col name sorted) cols = Ok data
    /\ create_sequences_for_inference df cols L
       = Ok (map (fun a => rows_of data a L) (seq 0 (S (nrows df) - L)))
    /\ length (map (fun a => rows_of data a L) (seq 0 (S (nrows df) - L)))
       = (nrows df - L + 1)%nat.
Proof. apply complete_frame_sequences. Qed.
End WindowShapeFacts.

(** ** The columns of the prepared frame *)

Section ColumnFacts.
Context {F : Type} `{FloatOps F}.
Import ForecastingApi.

Lemma has_col_member name (df : frame F) : has_col name df = member name (column_names df).
Proof. reflexivity. Qed.

Lemma column_names_set_col name c (df : frame F) :
  column_names (set_col name c df) = add_name name (column_names df).
Proof.
  unfold column_names, set_col, add_name, member. simpl.
  induction (columns df) as [|[k v] cs IH]; simpl; [reflexivity|].
  destruct (String.eqb name k) eqn:Hk; simpl; [reflexivity|].
  rewrite IH. now destruct (existsb (String.eqb name) (map fst cs)).
Qed.

Lemma column_names_map_columns (f : column F -> column F) n df :
  column_names (map_columns f n df) = column_names df.
Proof.
  unfold column_names, map_columns. simpl. rewrite map_map. now apply map_ext.
Qed.

Lemma column_names_add_customer_id cid (df : frame F) :
  column_names (add_customer_id cid df) = add_name "customer_id" (column_names df).
Proof.
  unfold add_customer_id. rewrite has_col_member.
  destruct (member "customer_id" (column_names df)) eqn:Hm.
  - unfold add_name. now rewrite Hm.
  - apply column_names_set_col.
Qed.

Lemma column_names_encode_or_default encs enc_name col_name out (df : frame F) :
  column_names (encode_or_default encs enc_name col_name out df)
  = add_name out (column_names df).
Proof.
  unfold encode_or_default.
  destruct (encode encs enc_name col_name df); apply column_names_set_col.
Qed.

Lemma column_names_encode_categoricals encs (df : frame F) :
  column_names (encode_categoricals encs df)
  = add_name "region_encoded"
      (add_name "manufacturer_encoded" (add_name "customer_encoded" (column_names df))).
Proof.
  unfold encode_categoricals.
  repeat match goal with
         | |- context [if ?b then _ else _] => destruct b
         end;
    repeat (rewrite column_names_encode_or_default || rewrite column_names_set_col);
    reflexivity.
Qed.

Lemma column_names_fill_missing (df : frame F) :
  column_names (fill_missing df) = column_names df.
Proof. apply column_names_map_columns. Qed.

(** X12.  The columns of the prepared frame, in their order: those of the
    input, then each column that the pipeline assigns and the input does not
    have.  For a series with the columns [timestamp] and [kWh], the
    feature columns of step 4 are the 22 derived columns in the order of
    their assignment, and [kWh] is the only target. *)
Theorem prepared_feature_columns (df : frame F) cid encs :
  is_timeseries_frame df = true ->
  exists out,
    prepare_features_for_inference df cid encs = Ok out
    /\ column_names out = pipeline_columns (has_col "kWh" df) (column_names df)
    /\ (column_names df = ["timestamp"; "kWh"] ->
        feature_columns out
        = ["customer_encoded"; "manufacturer_encoded"; "region_encoded";
           "hour"; "day_of_week"; "month"; "is_weekend";
           "customer_kwh_mean"; "customer_kwh_std"; "customer_kwh_min";
           "customer_kwh_max"; "mfg_kwh_mean"; "mfg_kwh_std"; "mfg_kwh_min";
           "mfg_kwh_max"; "regional_hourly_kwh_mean"; "kwh_vs_customer_mean";
           "kwh_vs_mfg_mean"; "kwh_lag_1h"; "kwh_lag_24h"; "kwh_rolling_mean_6h";
           "kwh_rolling_std_6h"]
        /\ available_targets out = ["kWh"]).
Proof.
  intros Hts.
  destruct (derive_features_spec df cid encs Hts) as (d1 & Hd1 & _ & _ & Hcase).
  destruct (add_time_features_inv _ _ Hd1) as (ts & _ & _ & Hd1eq).
  assert (Hn1 : column_names d1
                = foldl (fun names name => add_name name names) (column_names df)
                        (["customer_id"; "customer_encoded"; "manufacturer_encoded";
                          "region_encoded"] ++ firstn 4 derived_names)).
  { rewrite Hd1eq. rewrite !column_names_set_col, column_names_encode_categoricals,
      column_names_add_customer_id. unfold derived_names. simpl. reflexivity. }
  assert (Hout : exists out,
             prepare_features_for_inference df cid encs = Ok out
             /\ column_names out = pipeline_columns (has_col "kWh" df) (column_names df)).
  { unfold prepare_features_for_inference. destruct (has_col "kWh" df) eqn:Hk.
    - destruct Hcase as (kwh0 & hour & sorted & kwh & _ & Hsort & _ & _ & _ & _ & ->).
      eexists. split; [reflexivity|].
      rewrite column_names_fill_missing.
      destruct (sort_values_inv _ _ _ Hsort) as (keys & _ & _ & ->).
      unfold with_rolling, with_lags.
      match goal with
      | |- context [if ?b then _ else _] => destruct b
      end;
        rewrite !column_names_set_col, column_names_map_columns;
        unfold with_statistics; rewrite !column_names_set_col, Hn1;
        unfold pipeline_columns, derived_names; simpl; reflexivity.
    - rewrite Hcase. eexists. split; [reflexivity|].
      rewrite column_names_fill_missing, Hn1.
      unfold pipeline_columns, derived_names. simpl. reflexivity. }
  destruct Hout as (out & Hprep & Hnames). exists out.
  split; [exact Hprep|]. split; [exact Hnames|].
  intros Hdf. unfold feature_columns, available_targets.
  assert (Hk : has_col "kWh" df = true) by (rewrite has_col_member, Hdf; reflexivity).
  rewrite Hk, Hdf in Hnames.
  split.
  - rewrite Hnames. vm_compute. reflexivity.
  - unfold target_cols. simpl List.filter. rewrite !has_col_member, Hnames.
    vm_compute. reflexivity.
Qed.

(** X13.  The pipeline needs the timestamps: a frame without a
    [timestamp] column raises [KeyError], and one whose [timestamp] column
    holds anything but timestamps raises [AttributeError], whatever the
    encoders and the other columns. *)
Theorem prepare_requires_timestamps (df : frame F) cid encs :
  (has_col "timestamp" df = false ->
   prepare_features_for_inference df cid encs = Raise (KeyError "timestamp"))
  /\ (forall ts, get_col "timestamp" df = Ok ts -> forallb is_datetime ts = false ->
      prepare_features_for_inference df cid encs = Raise AttributeError).
Proof.
  assert (Hcol : get_col "timestamp" (encode_categoricals encs (add_customer_id cid df))
                 = get_col "timestamp" df).
  { rewrite get_col_encode_categoricals by reflexivity.
    now rewrite get_col_add_customer_id by reflexivity. }
  split.
  - intros Hno. unfold prepare_features_for_inference, derive_features, add_time_features.
    unfold_result. rewrite Hcol. unfold get_col.
    rewrite has_col_assoc in Hno. destruct (assoc "timestamp" (columns df)); [discriminate|].
    reflexivity.
  - intros ts Hts Hdt.
    unfold prepare_features_for_inference, derive_features, add_time_features.
    unfold_result. now rewrite Hcol, Hts, Hdt.
Qed.
End ColumnFacts.

(** ** Numeric features *)

Section NumericFacts.
Context {F : Type} `{FloatOps F}.
Import ForecastingApi.

Lemma numeric_features_get_col name (df : frame F) c :
  numeric_features df = true -> get_col name df = Ok c ->
  member name exclude_cols = false -> forallb is_numeric c = true.
Proof.
  unfold numeric_features, get_col.
  induction (columns df) as [|[k v] cs IH]; simpl; [discriminate|].
  intros Hall. apply andb_true_iff in Hall as [Hk Hcs].
  destruct (String.eqb name k) eqn:Hname.
  - apply String.eqb_eq in Hname as ->. intros [= <-] Hm.
    unfold exclude_cols in *. simpl in Hm. simpl in Hk. rewrite Hm in Hk. exact Hk.
  - now apply IH.
Qed.

Lemma numeric_features_set_col name c (df : frame F) :
  numeric_features df = true ->
  member name exclude_cols || forallb is_numeric c = true ->
  numeric_features (set_col name c df) = true.
Proof.
  unfold numeric_features, set_col. simpl. intros Hall Hc.
  induction (columns df) as [|[k v] cs IH]; simpl in *.
  - now rewrite Hc.
  - apply andb_true_iff in Hall as [Hk Hcs].
    destruct (String.eqb name k) eqn:Hname; simpl.
    + apply String.eqb_eq in Hname as <-. now rewrite Hc, Hcs.
    + now rewrite Hk, IH.
Qed.

Lemma numeric_features_map_columns (f : column F -> column F) n (df : frame F) :
  (forall c, forallb is_numeric c = true -> forallb is_numeric (f c) = true) ->
  numeric_features df = true -> numeric_features (map_columns f n df) = true.
Proof.
  unfold numeric_features, map_columns. simpl. intros Hf.
  induction (columns df) as [|[k v] cs IH]; simpl; [reflexivity|].
  intros Hall. apply andb_true_iff in Hall as [Hk Hcs]. rewrite IH by exact Hcs.
  apply orb_true_iff in Hk as [Hk|Hk]; [now rewrite Hk|].
  rewrite (Hf v Hk). now rewrite orb_true_r.
Qed.

Lemma numeric_repeat (x : cell F) n :
  is_numeric x = true -> forallb is_numeric (repeat x n) = true.
Proof. intros Hx. induction n; simpl; [reflexivity|now rewrite Hx]. Qed.

Lemma numeric_num (o : option F) : is_numeric (num o) = true.
Proof. now destruct o. Qed.

Lemma numeric_transform enc labels (c : column F) :
  transform enc labels = Ok c -> forallb is_numeric c = true.
Proof.
  unfold transform. revert c. induction labels as [|l labels IH]; simpl; intros c.
  - now intros [= <-].
  - destruct (index_of l enc); [|discriminate].
    destruct (for_each _ labels) as [c'|]; [|discriminate].
    intros [= <-]. simpl. now apply IH.
Qed.

Lemma numeric_dt_field field (ts : column F) :
  forallb is_numeric (dt_field field ts) = true.
Proof.
  unfold dt_field. induction ts as [|x ts IH]; simpl; [reflexivity|].
  rewrite IH. now destruct (time_of x).
Qed.

Lemma numeric_ge_as_int k (c : column F) : forallb is_numeric (ge_as_int k c) = true.
Proof.
  unfold ge_as_int. induction c as [|x c IH]; simpl; [reflexivity|].
  rewrite IH. now destruct x as [[| | |]|].
Qed.

Lemma numeric_group_mean (keys c : column F) :
  forallb is_numeric (group_mean keys c) = true.
Proof.
  unfold group_mean. generalize keys at 1. intros ks.
  induction keys as [|k keys IH]; simpl; [reflexivity|].
  rewrite IH. destruct k; [|reflexivity]. unfold mean. now rewrite numeric_num.
Qed.

Lemma numeric_div_eps (a b : column F) : forallb is_numeric (div_eps a b) = true.
Proof.
  unfold div_eps. induction (combine a b) as [|x l IH]; simpl; [reflexivity|].
  rewrite IH. destruct (to_float (fst x)), (to_float (snd x)); simpl;
    rewrite ?numeric_num; reflexivity.
Qed.

Lemma numeric_rolling w p agg (c : column F) :
  forallb is_numeric (rolling w p agg c) = true.
Proof.
  unfold rolling. induction (seq 0 (length c)) as [|i l IH]; simpl; [reflexivity|].
  rewrite IH. match goal with |- context [if ?b then _ else _] => destruct b end;
    rewrite ?numeric_num; reflexivity.
Qed.

Lemma forallb_firstn {A} (p : A -> bool) n (l : list A) :
  forallb p l = true -> forallb p (firstn n l) = true.
Proof.
  revert n; induction l as [|x l IH]; intros [|n]; simpl; try reflexivity.
  intros Hl. apply andb_true_iff in Hl as [-> Hl]. now apply IH.
Qed.

Lemma numeric_shift k (c : column F) :
  forallb is_numeric c = true -> forallb is_numeric (shift k c) = true.
Proof.
  intros Hc. unfold shift. apply forallb_firstn. rewrite forallb_app, Hc.
  now rewrite numeric_repeat.
Qed.

Lemma numeric_take_rows idx (c : column F) :
  forallb is_numeric c = true -> forallb is_numeric (take_rows idx c) = true.
Proof.
  intros Hc. unfold take_rows. induction idx as [|i idx IH]; simpl; [reflexivity|].
  rewrite IH, andb_true_r. destruct (nth_in_or_default i c None) as [Hin| ->];
    [|reflexivity].
  rewrite forallb_forall in Hc. now apply Hc.
Qed.

Lemma numeric_ffill_from last (c : column F) :
  is_numeric last = true -> forallb is_numeric c = true ->
  forallb is_numeric (ffill_from last c) = true.
Proof.
  revert last. induction c as [|x c IH]; simpl; intros last Hlast Hc; [reflexivity|].
  apply andb_true_iff in Hc as [Hx Hc].
  destruct x as [v|]; cbn [ffill_from forallb]; apply andb_true_iff; split; auto.
Qed.

Lemma numeric_bfill (c : column F) :
  forallb is_numeric c = true -> forallb is_numeric (bfill c) = true.
Proof.
  induction c as [|x c IH]; simpl; intros Hc; [reflexivity|].
  apply andb_true_iff in Hc as [Hx Hc]. specialize (IH Hc).
  destruct x as [v|]; cbn [bfill forallb]; apply andb_true_iff; split; auto.
  destruct (bfill c) as [|y c']; [reflexivity|].
  cbn [forallb hd] in *. now apply andb_true_iff in IH as [-> _].
Qed.

Lemma numeric_fillna (c : column F) :
  forallb is_numeric c = true -> forallb is_numeric (fillna (VInt 0) c) = true.
Proof.
  unfold fillna. induction c as [|x c IH]; simpl; intros Hc; [reflexivity|].
  apply andb_true_iff in Hc as [Hx Hc]. rewrite IH by exact Hc.
  rewrite andb_true_r. destruct x; [exact Hx|reflexivity].
Qed.

Lemma numeric_fill_column (c : column F) :
  forallb is_numeric c = true -> forallb is_numeric (fill_column c) = true.
Proof.
  intros Hc. unfold fill_column, ffill.
  now apply numeric_fillna, numeric_bfill, numeric_ffill_from.
Qed.

Lemma numeric_features_encode_or_default encs enc_name col_name out (df : frame F) :
  numeric_features df = true ->
  numeric_features (encode_or_default encs enc_name col_name out df) = true.
Proof.
  intros Hdf. unfold encode_or_default.
  destruct (encode encs enc_name col_name df) as [c|] eqn:Henc;
    apply numeric_features_set_col; auto; apply orb_true_iff; right.
  - unfold encode in Henc. unfold_result.
    destruct (encs !! enc_name); [|discriminate].
    destruct (get_col col_name df); [|discriminate].
    eapply numeric_transform; eauto.
  - now apply numeric_repeat.
Qed.

Lemma numeric_features_encoded encs cid (df : frame F) :
  numeric_features df = true ->
  numeric_features (encode_categoricals encs (add_customer_id cid df)) = true.
Proof.
  intros Hdf.
  assert (Hc : numeric_features (add_customer_id cid df) = true).
  { unfold add_customer_id. destruct (has_col "customer_id" df); [exact Hdf|].
    now apply numeric_features_set_col. }
  unfold encode_categoricals.
  repeat match goal with
         | |- context [if ?b then _ else _] => destruct b
         end;
    repeat first [ apply numeric_features_encode_or_default
                 | apply numeric_features_set_col;
                   [|apply orb_true_iff; right; now apply numeric_repeat] ];
    exact Hc.
Qed.

Ltac numeric_column :=
  apply orb_true_iff; right;
  first [ apply numeric_dt_field | apply numeric_ge_as_int | apply numeric_group_mean
        | apply numeric_div_eps | apply numeric_rolling
        | apply numeric_repeat; apply numeric_num ].

Lemma numeric_features_derived (df : frame F) cid encs d :
  is_timeseries_frame df = true ->
  numeric_features df = true ->
  derive_features df cid encs = Ok d ->
  numeric_features d = true.
Proof.
  intros Hts Hnum.
  destruct (derive_features_spec df cid encs Hts) as (d1 & Hd1 & _ & _ & Hcase).
  destruct (add_time_features_inv _ _ Hd1) as (ts & _ & _ & Hd1eq).
  assert (Hn1 : numeric_features d1 = true).
  { rewrite Hd1eq.
    repeat (apply numeric_features_set_col; [|numeric_column]).
    now apply numeric_features_encoded. }
  destruct (has_col "kWh" df).
  - destruct Hcase as (kwh0 & hour & sorted & kwh & _ & Hsort & Hkwh & _ & _ & _ & ->).
    intros [= <-].
    assert (Hs : numeric_features sorted = true).
    { destruct (sort_values_inv _ _ _ Hsort) as (keys & _ & _ & ->).
      apply numeric_features_map_columns; [apply numeric_take_rows|].
      unfold with_statistics.
      repeat (apply numeric_features_set_col; [|numeric_column]). exact Hn1. }
    assert (Hk : forallb is_numeric kwh = true).
    { eapply numeric_features_get_col; eauto. }
    unfold with_rolling, with_lags.
    repeat (apply numeric_features_set_col; [|numeric_column]).
    match goal with |- context [if ?b then _ else _] => destruct b end;
      (apply numeric_features_set_col;
       [|first [ numeric_column | apply orb_true_iff; right; now apply numeric_shift ]]);
      (apply numeric_features_set_col;
       [exact Hs | apply orb_true_iff; right; now apply numeric_shift]).
  - rewrite Hcase. now intros [= <-].
Qed.

Lemma numeric_features_prepared (df : frame F) cid encs out :
  is_timeseries_frame df = true ->
  numeric_features df = true ->
  prepare_features_for_inference df cid encs = Ok out ->
  numeric_features out = true.
Proof.
  intros Hts Hnum. unfold prepare_features_for_inference. unfold_result.
  destruct (derive_features df cid encs) as [d|] eqn:Hd; [|discriminate].
  intros [= <-]. apply numeric_features_map_columns; [apply numeric_fill_column|].
  eapply numeric_features_derived; eauto.
Qed.
End NumericFacts.

(** ** The forecast handler *)

Lemma bind_ok {S A B} (m : io S A) (f : A -> io S B) s a s' :
  m s = (Ok a, s') -> (m ≫= f) s = f a s'.
Proof. intros Hm. unfold mbind, io_bind. now rewrite Hm. Qed.

Lemma bind_raise {S A B} (m : io S A) (f : A -> io S B) s e s' :
  m s = (Raise e, s') -> (m ≫= f) s = (Raise e, s').
Proof. intros Hm. unfold mbind, io_bind. now rewrite Hm. Qed.

Lemma bind_lift_ok {S A B} (r : result A) (f : A -> io S B) s a :
  r = Ok a -> (lift r ≫= f) s = f a s.
Proof. intros ->. reflexivity. Qed.

Lemma bind_lift_raise {S A B} (r : result A) (f : A -> io S B) s e :
  r = Raise e -> (lift r ≫= f) s = (Raise e, s).
Proof. intros ->. reflexivity. Qed.

Section PreparedFrameFacts.
Context {F : Type} `{FloatOps F}.
Import ForecastingApi.

Lemma ffill_from_id last (c : column F) :
  existsb isnan c = false -> ffill_from last c = c.
Proof.
  revert last. induction c as [|x c IH]; simpl; intros last Hc; [reflexivity|].
  apply orb_false_elim in Hc as [Hx Hc]. destruct x; [|discriminate].
  now rewrite IH.
Qed.

Lemma bfill_id (c : column F) : existsb isnan c = false -> bfill c = c.
Proof.
  induction c as [|x c IH]; simpl; intros Hc; [reflexivity|].
  apply orb_false_elim in Hc as [Hx Hc]. destruct x; [|discriminate].
  now rewrite IH.
Qed.

Lemma fillna_id v (c : column F) : existsb isnan c = false -> fillna v c = c.
Proof.
  unfold fillna. induction c as [|x c IH]; simpl; intros Hc; [reflexivity|].
  apply orb_false_elim in Hc as [Hx Hc]. destruct x; [|discriminate].
  now rewrite IH.
Qed.

Lemma fill_column_id (c : column F) : existsb isnan c = false -> fill_column c = c.
Proof.
  intros Hc. unfold fill_column, ffill.
  now rewrite ffill_from_id, bfill_id, fillna_id.
Qed.

(** The prepared frame of a series whose timestamps are all present: its
    [timestamp] column holds the timestamps of the series, reordered. *)
Lemma prepared_frame (df : frame F) cid encs ts :
  is_timeseries_frame df = true ->
  get_col "timestamp" df = Ok ts -> existsb isnan ts = false ->
  exists out ts',
    prepare_features_for_inference df cid encs = Ok out
    /\ wf_frame out /\ nrows out = nrows df /\ no_missing out = true
    /\ get_col "timestamp" out = Ok ts' /\ Permutation ts' ts.
Proof.
  intros Hframe Hts Hnan.
  destruct (is_timeseries_frame_inv _ Hframe) as (Hwf & _ & _).
  pose proof (wf_get_col _ _ _ Hwf Hts) as Hlen.
  destruct (derive_features_total df cid encs Hframe) as (d & Hd & Hwfd & Hnd).
  assert (Hcol : exists ts', get_col "timestamp" d = Ok ts' /\ Permutation ts' ts).
  { destruct (derive_features_spec df cid encs Hframe) as (d1 & Hd1 & _ & Hn1 & Hcase).
    destruct (encoded_frame_facts df cid encs Hwf) as (_ & _ & Hts0 & _).
    assert (Hts1 : get_col "timestamp" d1 = Ok ts).
    { rewrite (get_col_time_features "timestamp" _ d1) by (reflexivity || exact Hd1).
      now rewrite Hts0. }
    destruct (has_col "kWh" df).
    - destruct Hcase as (kwh0 & hour & sorted & kwh & _ & Hsort & _ & _ & _ & _ & Hder).
      rewrite Hder in Hd. injection Hd as <-.
      rewrite get_col_with_rolling, get_col_with_lags by reflexivity.
      destruct (sort_values_inv _ _ _ Hsort) as (keys & Hkeys & _ & ->).
      rewrite get_col_with_statistics in Hkeys by reflexivity.
      rewrite Hts1 in Hkeys. injection Hkeys as <-.
      rewrite get_col_map_columns, get_col_with_statistics, Hts1 by reflexivity.
      eexists. split; [reflexivity|].
      rewrite nrows_with_statistics, Hn1, <- Hlen.
      apply take_rows_argsort_perm. now rewrite length_map.
    - rewrite Hcase in Hd. injection Hd as <-. exists ts. split; [exact Hts1|reflexivity]. }
  destruct Hcol as (ts' & Hts' & Hperm).
  exists (fill_missing d), ts'.
  unfold prepare_features_for_inference. rewrite Hd.
  split; [reflexivity|]. split; [now apply wf_fill_missing|].
  split; [exact Hnd|]. split; [apply fill_missing_no_missing|]. split; [|exact Hperm].
  rewrite get_col_fill_missing, Hts'. f_equal. apply fill_column_id.
  now rewrite (existsb_perm isnan ts' ts Hperm).
Qed.

Lemma no_missing_get_col name (df : frame F) c :
  no_missing df = true -> get_col name df = Ok c -> existsb isnan c = false.
Proof.
  unfold no_missing, get_col.
  induction (columns df) as [|[k v] cs IH]; simpl; [discriminate|].
  intros Hall. apply andb_true_iff in Hall as [Hk Hcs].
  destruct (String.eqb name k); [|now apply IH].
  intros [= <-]. now apply negb_true_iff in Hk.
Qed.

Lemma feature_columns_spec (df : frame F) name :
  In name (feature_columns df) ->
  has_col name df = true /\ member name exclude_cols = false.
Proof.
  unfold feature_columns. intros Hin. apply filter_In in Hin as [Hin Hkeep].
  apply andb_true_iff in Hkeep as [Hex _]. apply negb_true_iff in Hex.
  split; [|exact Hex]. unfold has_col. apply existsb_exists.
  exists name. split; [exact Hin|apply String.eqb_refl].
Qed.

Lemma for_each_get_col_ok cols (df : frame F) :
  (forall name, In name cols -> has_col name df = true) ->
  exists data, for_each (fun name => get_col name df) cols = Ok data
               /\ Forall2 (fun name c => get_col name df = Ok c) cols data.
Proof.
  induction cols as [|name cols IH]; simpl; intros Hcols.
  - exists []. split; [reflexivity|constructor].
  - destruct (has_col_get_col name df) as (c & Hc); [apply Hcols; now left|].
    destruct IH as (data & Hdata & Hall); [intros n Hn; apply Hcols; now right|].
    exists (c :: data). rewrite Hc, Hdata. split; [reflexivity|now constructor].
Qed.

(** The feature columns of a prepared frame are numeric and complete. *)
Lemma feature_columns_usable (df : frame F) :
  numeric_features df = true -> no_missing df = true ->
  numeric_dtype (feature_columns df) df = true
  /\ features_complete (feature_columns df) df = true.
Proof.
  intros Hnum Hmiss.
  destruct (for_each_get_col_ok (feature_columns df) df) as (data & Hdata & Hall).
  { intros name Hin. now apply (feature_columns_spec df name). }
  unfold numeric_dtype, features_complete. rewrite Hdata.
  assert (Hspec : forall name, In name (feature_columns df) ->
                               member name exclude_cols = false).
  { intros name Hin. now apply (feature_columns_spec df name). }
  clear Hdata. induction Hall as [|name c cols data Hc Hall IH]; [auto|].
  simpl. destruct IH as [-> ->]; [intros n Hn; apply Hspec; now right|].
  rewrite (numeric_features_get_col name df c Hnum Hc) by (apply Hspec; now left).
  now rewrite (no_missing_get_col name df c Hmiss Hc).
Qed.

Lemma last_timestamp_spec (c : column F) :
  forallb is_datetime c = true -> existsb isnan c = false -> c <> [] ->
  exists last, last_timestamp c = Ok last
               /\ In (Some (VTime last)) c
               /\ forall t, In (Some (VTime t)) c -> t <= last.
Proof.
  intros Hdt Hnan Hne.
  assert (Htimes : exists times, for_each (fun x => expect TypeError (time_of x)) c = Ok times
                                 /\ c = map (fun t => Some (VTime t)) times).
  { clear Hne. induction c as [|x c IH]; simpl in *.
    - exists []. auto.
    - apply andb_true_iff in Hdt as [Hx Hdt]. apply orb_false_elim in Hnan as [Hn Hnan].
      destruct (IH Hdt Hnan) as (times & -> & Hc).
      destruct x as [[v|z|s|t]|]; try discriminate.
      exists (t :: times). simpl. split; [reflexivity|now rewrite <- Hc]. }
  destruct Htimes as (times & Htimes & ->). unfold last_timestamp. rewrite Htimes.
  destruct times as [|t times]; [contradiction|]. clear.
  exists (foldr Z.max t times). split; [reflexivity|].
  assert (Hmax : (foldr Z.max t times = t \/ In (foldr Z.max t times) times)
                 /\ t <= foldr Z.max t times
                 /\ forall u, In u times -> u <= foldr Z.max t times).
  { induction times as [|u times (Hin & Hle & Hall)]; simpl.
    - split; [now left|]. split; [lia|contradiction].
    - split; [|split].
      + destruct (Z.max_spec u (foldr Z.max t times)) as [[_ ->]|[_ ->]];
          [|right; now left].
        destruct Hin as [->|Hin]; [now left|right; now right].
      + lia.
      + intros v [<-|Hv]; [lia|]. specialize (Hall v Hv). lia. }
  destruct Hmax as (Hin & Hle & Hall). split.
  - simpl. destruct Hin as [->|Hin]; [now left|right].
    exact (in_map (fun t => Some (VTime t)) _ _ Hin).
  - intros u [[= <-]|Hu]; [exact Hle|].
    apply in_map_iff in Hu as (v & [= <-] & Hv). now apply Hall.
Qed.
End PreparedFrameFacts.

Section HandlerFacts.
Context {F Model Encoders Config Info : Type}.
Context `{ForecastingApi.Codecs F Model Encoders Config}
        `{!ForecastingApi.Runtime F Model Encoders Config Info}.
Variable OUTPUT_BUCKET CUSTOMER_ID : string.
Import ForecastingApi.

Local Abbreviation W := (world Model Encoders Config).

(** The handler never raises: an exception of its body becomes a 500
    response. *)
Lemma generate_forecast_object fields (w : W) :
  falsy (Some (JsonObject fields)) = false ->
  generate_forecast OUTPUT_BUCKET CUSTOMER_ID (Ok (Some (JsonObject fields))) w
  = match forecast OUTPUT_BUCKET CUSTOMER_ID fields w with
    | (Ok r, w') => (Ok {| status_code := 200; payload := Forecast r |}, w')
    | (Raise e, w') => (Ok {| status_code := 500; payload := ErrorOf e |}, w')
    end.
Proof.
  intros Hf. unfold generate_forecast, try_except.
  rewrite (bind_lift_ok _ _ _ _ eq_refl). rewrite Hf.
  unfold mbind, io_bind, mret, io_ret.
  destruct (forecast OUTPUT_BUCKET CUSTOMER_ID fields w) as [[r|e] w']; reflexivity.
Qed.

Lemma generate_forecast_returns get_json (w : W) :
  exists resp w', generate_forecast OUTPUT_BUCKET CUSTOMER_ID get_json w = (Ok resp, w').
Proof.
  unfold generate_forecast, try_except.
  match goal with |- context [match ?m w with _ => _ end] => destruct (m w) as [[r|e] w'] end;
    unfold mret, io_ret; eauto.
Qed.

Lemma index_last_ok {A} (l : list A) : l <> [] -> exists x, index l (-1) = Ok x.
Proof.
  intros Hl. destruct (exists_last Hl) as (l' & x & ->). exists x. apply index_last.
Qed.

(** X14.  A customer with fewer than 24 records is answered with a 500
    response that carries the [ValueError] of the windower: the model and
    the data are loaded (and stay cached), and no prediction is made. *)
Theorem generate_forecast_needs_24_records fields (w w1 w2 : W) model encs config df ts :
  let customer_id := default CUSTOMER_ID (body_customer_id fields) in
  falsy (Some (JsonObject fields)) = false ->
  cached_model OUTPUT_BUCKET customer_id w = (Ok (model, encs, config), w1) ->
  get_recent_customer_data customer_id 168 w1 = (Ok df, w2) ->
  is_timeseries_frame df = true ->
  get_col "timestamp" df = Ok ts -> existsb isnan ts = false ->
  (nrows df < 24)%nat ->
  generate_forecast OUTPUT_BUCKET CUSTOMER_ID (Ok (Some (JsonObject fields))) w
  = (Ok {| status_code := 500;
           payload := ErrorOf (insufficient_data (nrows df) 24) |}, w2).
Proof.
  intros customer_id Hf Hcached Hrecent Hframe Hts Hnan Hn.
  rewrite generate_forecast_object by exact Hf.
  destruct (prepared_frame df customer_id (encoders_dict encs) ts Hframe Hts Hnan)
    as (featured & ts' & Hprep & Hwf & Hrows & _ & Hts' & Hperm).
  assert (Hdt : forallb is_datetime ts' = true).
  { rewrite (forallb_perm is_datetime ts' ts Hperm).
    destruct (is_timeseries_frame_inv _ Hframe) as (_ & (ts0 & Hts0 & Hdt0) & _).
    congruence. }
  assert (Hcreate : create_sequences_for_inference featured (feature_columns featured) 24
                    = Raise (insufficient_data (nrows df) 24)).
  { unfold create_sequences_for_inference.
    rewrite (sort_values_ok "timestamp" featured ts' Hts' Hdt). unfold_result.
    rewrite Hrows. now replace (nrows df <? 24)%nat with true
      by (symmetry; apply Nat.ltb_lt; lia). }
  unfold forecast. fold customer_id. cbv zeta.
  rewrite (bind_ok _ _ _ _ _ Hcached). cbv beta iota.
  rewrite (bind_ok _ _ _ _ _ Hrecent).
  rewrite (bind_lift_ok _ _ _ _ Hprep).
  now rewrite (bind_lift_raise _ _ _ _ Hcreate).
Qed.

(** X15.  The forecast of a series of [n >= 24] records whose feature
    columns are numeric: the windower yields [n - 23] windows, and when the
    model returns one prediction per window the response is a 200 with
    [min(forecast_hours, n - 23)] points; point [i] (from 0) is stamped
    [i + 1] hours after the latest record and carries the prediction of
    window [i], the oldest window first. *)
Theorem generate_forecast_points fields (w w1 w2 : W) model encs config df ts :
  let customer_id := default CUSTOMER_ID (body_customer_id fields) in
  let forecast_hours := default 24 (body_forecast_hours fields) in
  falsy (Some (JsonObject fields)) = false ->
  cached_model OUTPUT_BUCKET customer_id w = (Ok (model, encs, config), w1) ->
  get_recent_customer_data customer_id 168 w1 = (Ok df, w2) ->
  is_timeseries_frame df = true -> numeric_features df = true ->
  get_col "timestamp" df = Ok ts -> existsb isnan ts = false ->
  (24 <= nrows df)%nat ->
  exists featured X last,
    prepare_features_for_inference df customer_id (encoders_dict encs) = Ok featured
    /\ create_sequences_for_inference featured (feature_columns featured) 24 = Ok X
    /\ length X = (nrows df - 23)%nat
    /\ In (Some (VTime last)) ts
    /\ (forall t, In (Some (VTime t)) ts -> t <= last)
    /\ forall predictions info,
         predict model X = Ok predictions ->
         length predictions = length X ->
         model_info config = Ok info ->
         let k := Z.to_nat (Z.min forecast_hours (Z.of_nat (nrows df) - 23)) in
         generate_forecast OUTPUT_BUCKET CUSTOMER_ID (Ok (Some (JsonObject fields))) w
         = (Ok {| status_code := 200;
                  payload := Forecast
                    {| fr_customer_id := customer_id;
                       fr_forecast_hours := Z.of_nat k;
                       fr_forecasts :=
                         map (entry_at predictions last (available_targets featured))
                             (seq 0 k);
                       fr_model_info := info;
                       fr_generated_at := now w2 |} |}, w2).
Proof.
  intros customer_id forecast_hours Hf Hcached Hrecent Hframe Hnum Hts Hnan Hn.
  destruct (prepared_frame df customer_id (encoders_dict encs) ts Hframe Hts Hnan)
    as (featured & ts' & Hprep & Hwf & Hrows & Hmiss & Hts' & Hperm).
  assert (Hdt : forallb is_datetime ts' = true).
  { rewrite (forallb_perm is_datetime ts' ts Hperm).
    destruct (is_timeseries_frame_inv _ Hframe) as (_ & (ts0 & Hts0 & Hdt0) & _).
    congruence. }
  assert (Hnumf : numeric_features featured = true)
    by (eapply numeric_features_prepared; eauto).
  destruct (feature_columns_usable featured Hnumf Hmiss) as [Hnd Hcomplete].
  destruct (complete_frame_sequences featured (feature_columns featured) 24 ts'
              Hwf Hts' Hdt Hnd Hcomplete) as (sorted & data & _ & _ & Hcreate & Hlen);
    [lia|].
  assert (Hlen_ts : length ts = nrows df).
  { destruct (is_timeseries_frame_inv _ Hframe) as (Hwfdf & _ & _).
    eapply wf_get_col; eauto. }
  destruct (last_timestamp_spec ts') as (last & Hlast & Hin & Hmax).
  { exact Hdt. }
  { now rewrite (existsb_perm isnan ts' ts Hperm). }
  { intros ->. apply Permutation_nil in Hperm. subst ts. simpl in Hlen_ts. lia. }
  set (X := map (fun a => rows_of data a 24) (seq 0 (S (nrows featured) - 24))) in *.
  exists featured, X, last. split; [exact Hprep|]. split; [exact Hcreate|].
  split; [rewrite Hlen, Hrows; lia|].
  split; [now apply (Permutation_in _ Hperm)|].
  split.
  { intros t Ht. apply Hmax. now apply (Permutation_in _ (Permutation_sym Hperm)). }
  intros predictions info Hpredict Hpreds Hinfo k.
  assert (Hne : predictions <> []).
  { intros ->. simpl in Hpreds. rewrite Hlen, Hrows in Hpreds. lia. }
  destruct (index_last_ok predictions Hne) as (latest & Hlatest).
  assert (Hk : Z.to_nat (Z.min forecast_hours (len predictions)) = k).
  { unfold k, len. rewrite Hpreds, Hlen, Hrows. f_equal. lia. }
  pose proof (assemble_forecasts_entries predictions last forecast_hours
                (available_targets featured) Hne) as Hassemble.
  rewrite Hk in Hassemble.
  rewrite generate_forecast_object by exact Hf.
  unfold forecast. fold customer_id. fold forecast_hours. cbv zeta.
  rewrite (bind_ok _ _ _ _ _ Hcached). cbv beta iota.
  rewrite (bind_ok _ _ _ _ _ Hrecent).
  rewrite (bind_lift_ok _ _ _ _ Hprep).
  rewrite (bind_lift_ok _ _ _ _ Hcreate).
  rewrite (bind_lift_ok _ _ _ _ Hpredict).
  rewrite (bind_lift_ok _ _ _ _ Hlatest).
  rewrite (bind_lift_ok _ _ _ _ Hts').
  rewrite (bind_lift_ok _ _ _ _ Hlast).
  rewrite (bind_lift_ok _ _ _ _ Hassemble).
  rewrite (bind_lift_ok _ _ _ _ Hinfo).
  unfold mbind, io_bind, gets, mret, io_ret, len. now rewrite length_map, length_seq.
Qed.

(** X16.  [GET /forecast/<customer_id>] answers as [POST /forecast] does
    for the same request: neither the customer of the path nor the
    [forecast_hours] of the query string reaches the forecast, and a
    [forecast_hours] that is not an integer is answered with 500.  The
    answer follows from [request.get_json()] alone: 500 with its exception
    when it raises, 400 when it returns [None] or another false value, for
    every customer. *)
Theorem get_forecast_ignores_its_parameters customer_id get_json (w : W) :
  (forall hours,
     get_forecast OUTPUT_BUCKET CUSTOMER_ID customer_id (Ok hours) get_json w
     = generate_forecast OUTPUT_BUCKET CUSTOMER_ID get_json w)
  /\ (forall e,
        get_forecast OUTPUT_BUCKET CUSTOMER_ID customer_id (Raise e) get_json w
        = (Ok {| status_code := 500; payload := ErrorOf e |}, w))
  /\ (forall hours e,
        get_forecast OUTPUT_BUCKET CUSTOMER_ID customer_id (Ok hours) (Raise e) w
        = (Ok {| status_code := 500; payload := ErrorOf e |}, w))
  /\ (forall hours data,
        falsy data = true ->
        get_forecast OUTPUT_BUCKET CUSTOMER_ID customer_id (Ok hours) (Ok data) w
        = (Ok {| status_code := 400; payload := ErrorMessage "No JSON data provided" |}, w)).
Proof.
  assert (Hsame : forall hours get_json,
             get_forecast OUTPUT_BUCKET CUSTOMER_ID customer_id (Ok hours) get_json w
             = generate_forecast OUTPUT_BUCKET CUSTOMER_ID get_json w).
  { intros hours gj. unfold get_forecast. unfold try_except at 1.
    rewrite (bind_lift_ok _ _ _ _ eq_refl). cbv zeta.
    destruct (generate_forecast_returns gj w) as (resp & w' & ->). reflexivity. }
  split; [intros hours; apply Hsame|]. split; [reflexivity|]. split.
  - intros hours e. rewrite Hsame. reflexivity.
  - intros hours data Hfalsy. rewrite Hsame.
    unfold generate_forecast, try_except.
    rewrite (bind_lift_ok _ _ _ _ eq_refl). now rewrite Hfalsy.
Qed.
End HandlerFacts.

(** ** Model updates *)

Section UpdateFacts.
Context `{ModelUpdater.Serializer} `{ModelUpdater.Codecs}.
Variable OUTPUT_BUCKET MODELS_DIR : string.
Import ModelUpdater.

Local Abbreviation download_failed := (download_failed OUTPUT_BUCKET).
Local Abbreviation can_download := (can_download OUTPUT_BUCKET).
Local Abbreviation update_customer_model := (update_customer_model OUTPUT_BUCKET MODELS_DIR).

(** What one download changes: at most the local file. *)
Lemma download_failed_spec path local_path w :
  exists w',
    download_failed path local_path w = (negb (can_download w path), w')
    /\ redis_client w' = redis_client w /\ s3 w' = s3 w /\ now w' = now w
    /\ (forall q, q <> local_path -> files w' !! q = files w !! q)
    /\ (can_download w path = false -> w' = w).
Proof.
  unfold download_failed, can_download, ModelUpdater.can_download, download_model_file.
  destruct path as [[|a p]|]; try (exists w; repeat split; auto; discriminate).
  destruct (s3 w) as [bucket|] eqn:Hs3; [|exists w; repeat split; auto].
  destruct (bucket !! key_of_path OUTPUT_BUCKET (String a p)) as [body|] eqn:Hb.
  - eexists. rewrite bool_decide_eq_true_2 by eauto. simpl.
    split; [reflexivity|]. repeat split; auto; [|discriminate].
    intros q Hq. now apply lookup_insert_ne.
  - exists w. rewrite bool_decide_eq_false_2 by (intros [? ?]; discriminate).
    repeat split; auto.
Qed.

Lemma can_download_same_s3 w w' path :
  s3 w' = s3 w -> can_download w' path = can_download w path.
Proof. intros Hs3. unfold can_download, ModelUpdater.can_download. now rewrite Hs3. Qed.

(** The three downloads of an update, run one after the other. *)
Lemma update_downloads reg customer_dir w :
  let w0 := makedirs customer_dir w in
  exists w1 w2 w3,
    download_failed (model_path reg) (PyStr.path_join customer_dir "model.h5") w0
    = (negb (can_download w (model_path reg)), w1)
    /\ download_failed (encoders_path reg) (PyStr.path_join customer_dir "encoders.pkl") w1
       = (negb (can_download w (encoders_path reg)), w2)
    /\ download_failed (config_path reg) (PyStr.path_join customer_dir "config.json") w2
       = (negb (can_download w (config_path reg)), w3)
    /\ redis_client w3 = redis_client w /\ s3 w3 = s3 w /\ now w3 = now w.
Proof.
  intros w0.
  destruct (download_failed_spec (model_path reg)
              (PyStr.path_join customer_dir "model.h5") w0)
    as (w1 & H1 & Hr1 & Hs1 & Hn1 & _).
  destruct (download_failed_spec (encoders_path reg)
              (PyStr.path_join customer_dir "encoders.pkl") w1)
    as (w2 & H2 & Hr2 & Hs2 & Hn2 & _).
  destruct (download_failed_spec (config_path reg)
              (PyStr.path_join customer_dir "config.json") w2)
    as (w3 & H3 & Hr3 & Hs3 & Hn3 & _).
  exists w1, w2, w3.
  rewrite (can_download_same_s3 w w0) in H1 by reflexivity.
  rewrite (can_download_same_s3 w w1) in H2 by (now rewrite Hs1).
  rewrite (can_download_same_s3 w w2) in H3 by (now rewrite Hs2, Hs1).
  subst w0. simpl in *. repeat split; auto; congruence.
Qed.

Lemma update_customer_model_eq cid w reg :
  get_model_registry cid w = Some reg -> empty_registry reg = false ->
  let customer_dir := PyStr.path_join MODELS_DIR cid in
  let success := can_download w (model_path reg) && can_download w (encoders_path reg) in
  exists w3,
    redis_client w3 = redis_client w /\ s3 w3 = s3 w /\ now w3 = now w
    /\ update_customer_model cid w
       = (success, if success then update_redis_cache cid customer_dir reg w3 else w3).
Proof.
  intros Hreg Hempty customer_dir success.
  destruct (update_downloads reg customer_dir w)
    as (w1 & w2 & w3 & H1 & H2 & H3 & Hr & Hs & Hn).
  exists w3. repeat split; auto.
  unfold update_customer_model, ModelUpdater.update_customer_model.
  rewrite Hreg, Hempty. fold customer_dir. rewrite H1, H2, H3.
  rewrite !negb_involutive. reflexivity.
Qed.


(** An update does not move the clock. *)
Lemma update_customer_model_eq_now cid w :
  now (snd (update_customer_model cid w)) = now w.
Proof.
  unfold update_customer_model, ModelUpdater.update_customer_model.
  destruct (get_model_registry cid w) as [reg|] eqn:Hreg; [|reflexivity].
  destruct (empty_registry reg) eqn:Hempty; [reflexivity|].
  destruct (update_downloads reg (PyStr.path_join MODELS_DIR cid) w)
    as (w1 & w2 & w3 & H1 & H2 & H3 & Hr & Hs & Hn).
  rewrite H1, H2, H3.
  destruct (negb _ && negb _); simpl; [|exact Hn].
  unfold update_redis_cache. destruct (redis_client w3) as [r|]; [|exact Hn].
  destruct (Redis.setex r _ _ _); exact Hn.
Qed.

Lemma update_redis_record cid w :
  let (success, w') := update_customer_model cid w in
  match redis_client w with
  | Some r =>
      if success && redis_up r
      then exists data,
          cd_updated_at data = isoformat (now w)
          /\ redis_client w'
             = Some {| redis_up := true;
                       redis_db := <["edge:model:" ++ cid := (3600, json_dumps data)]>
                                     (redis_db r) |}
      else redis_client w' = Some r
  | None => redis_client w' = None
  end.
Proof.
  unfold update_customer_model at 1, ModelUpdater.update_customer_model.
  destruct (get_model_registry cid w) as [reg|] eqn:Hreg;
    [|destruct (redis_client w); reflexivity].
  destruct (empty_registry reg) eqn:Hempty; [destruct (redis_client w); reflexivity|].
  destruct (update_downloads reg (PyStr.path_join MODELS_DIR cid) w)
    as (w1 & w2 & w3 & H1 & H2 & H3 & Hr & Hs & Hn).
  rewrite H1, H2, H3. rewrite !negb_involutive.
  destruct (can_download w (model_path reg) && can_download w (encoders_path reg)).
  - unfold update_redis_cache. rewrite Hr, Hn.
    destruct (redis_client w) as [r|]; [|exact Hr].
    unfold Redis.setex. destruct (redis_up r); simpl; [|exact Hr].
    eexists. split; [|reflexivity]. reflexivity.
  - rewrite Hr. destruct (redis_client w); reflexivity.
Qed.



Lemma append_inj_l (a x y : string) : a ++ x = a ++ y -> x = y.
Proof. induction a as [|c a IH]; simpl; [auto|]. intros [= Heq]. auto. Qed.

Lemma path_join_inj dir (x y : string) :
  String.prefix "/" x = false -> String.prefix "/" y = false ->
  PyStr.path_join dir x = PyStr.path_join dir y -> x = y.
Proof.
  unfold PyStr.path_join. intros -> ->.
  destruct (String.eqb dir "" || Text.endswith dir "/"); intros Heq.
  - now apply append_inj_l in Heq.
  - apply append_inj_l in Heq. now injection Heq.
Qed.



(** X22.  The freshness check never calls a model fresh without evidence:
    when it answers that no update is needed, Redis holds for the customer
    a record that decodes to a naive timestamp at most seven days before the
    time of the check, and the answer carries that timestamp. *)
Theorem fresh_verdict_is_sound client current_time cid :
  let f := check_model_freshness client current_time cid in
  needs_update f = false ->
  exists r s iso t,
    client = Some r
    /\ Redis.get r ("edge:model:" ++ cid) = Ok (Some s) /\ s <> ""
    /\ json_updated_at s = Ok iso /\ fromisoformat iso = Ok (Naive t)
    /\ current_time - t <= Calendar.days 7
    /\ updated_at f = Some (Naive t) /\ reason f = "Model is fresh".
Proof.
  unfold check_model_freshness, freshness_of_cache.
  destruct client as [r|]; [|discriminate]. unfold_result.
  destruct (Redis.get r ("edge:model:" ++ cid)) as [[s|]|e] eqn:Hget; try discriminate.
  destruct s as [|a s]; [discriminate|].
  destruct (json_updated_at (String a s)) as [iso|] eqn:Hiso; [|discriminate].
  destruct (fromisoformat iso) as [[t|t]|] eqn:Ht; try discriminate.
  simpl.
  match goal with |- context [?x <? ?y] => destruct (x <? y) eqn:Hage end;
    [discriminate|].
  intros _. exists r, (String a s), iso, t. apply Z.ltb_ge in Hage.
  repeat split; auto; discriminate.
Qed.
End UpdateFacts.

(** ** The device registry: authentication *)

Section StripFacts.
Implicit Types (l p r b : list Ascii.ascii) (bs : list (list Ascii.ascii)).

Lemma drop_prefix_spec p l r : PyStr.drop_prefix p l = Some r <-> l = (p ++ r)%list.
Proof.
  revert l. induction p as [|a p IH]; intros l; simpl.
  - split; [now intros [= ->] | now intros ->].
  - destruct l as [|b l]; [split; discriminate|].
    destruct (Ascii.eqb a b) eqn:Hab.
    + apply Ascii.eqb_eq in Hab as ->. rewrite IH. split; [now intros -> | now intros [= ->]].
    + split; [discriminate|]. intros [= -> _]. now rewrite Ascii.eqb_refl in Hab.
Qed.

Lemma drop_any_Some bs l r :
  PyStr.drop_any bs l = Some r -> exists b, In b bs /\ l = (b ++ r)%list.
Proof.
  induction bs as [|b bs IH]; simpl; [discriminate|].
  destruct (PyStr.drop_prefix b l) as [r'|] eqn:Hb.
  - intros [= ->]. apply drop_prefix_spec in Hb. eauto.
  - intros Hr. destruct (IH Hr) as (b' & ? & ?). eauto.
Qed.

Lemma drop_any_None bs l :
  PyStr.drop_any bs l = None <-> forall b r, In b bs -> l <> (b ++ r)%list.
Proof.
  induction bs as [|b bs IH]; simpl.
  - split; [intros _ b r []|reflexivity].
  - destruct (PyStr.drop_prefix b l) as [r'|] eqn:Hb.
    + split; [discriminate|]. intros Hno. apply drop_prefix_spec in Hb.
      exfalso. eapply Hno; eauto.
    + rewrite IH. split.
      * intros Hno b' r [<-|Hin]; [|now apply Hno].
        intros Heq. apply drop_prefix_spec in Heq. congruence.
      * intros Hno b' r Hin. apply Hno. now right.
Qed.

Lemma lstrip_fuel_id bs n l : PyStr.drop_any bs l = None -> PyStr.lstrip_fuel bs n l = l.
Proof. intros Hl. destruct n; simpl; [reflexivity|]. now rewrite Hl. Qed.

(** What is left is the end of the input, and begins with none of [bs]. *)
Lemma lstrip_fuel_spec bs n l :
  Forall (fun b => b <> []) bs -> (length l <= n)%nat ->
  PyStr.drop_any bs (PyStr.lstrip_fuel bs n l) = None
  /\ exists p, l = (p ++ PyStr.lstrip_fuel bs n l)%list.
Proof.
  intros Hbs. revert l. induction n as [|n IH]; intros l Hn; simpl.
  - destruct l; [|simpl in Hn; lia]. split; [|now exists []].
    apply drop_any_None. intros b r Hin Heq.
    rewrite Forall_forall in Hbs. apply (Hbs b); [now apply list_elem_of_In|].
    symmetry in Heq. now apply app_eq_nil in Heq.
  - destruct (PyStr.drop_any bs l) as [r|] eqn:Hl; [|split; [exact Hl|now exists []]].
    destruct (drop_any_Some _ _ _ Hl) as (b & Hin & ->).
    rewrite Forall_forall in Hbs.
    assert (Hb : b <> []) by (apply Hbs; now apply list_elem_of_In).
    destruct (IH r) as (Hnone & p & Hp).
    { rewrite length_app in Hn. destruct b; [contradiction|]. simpl in Hn. lia. }
    split; [exact Hnone|]. exists (b ++ p)%list. rewrite <- app_assoc. now f_equal.
Qed.

Lemma blanks_nonempty : Forall (fun b => b <> []) PyStr.blanks.
Proof. repeat constructor; discriminate. Qed.

Lemma rev_blanks_nonempty : Forall (fun b => b <> []) (map (@rev _) PyStr.blanks).
Proof. repeat constructor; discriminate. Qed.

Lemma lstrip_bytes_spec l :
  PyStr.drop_any PyStr.blanks (PyStr.lstrip_bytes l) = None
  /\ exists p, l = (p ++ PyStr.lstrip_bytes l)%list.
Proof. apply lstrip_fuel_spec; [apply blanks_nonempty|lia]. Qed.

Lemma rstrip_bytes_spec l :
  PyStr.drop_any (map (@rev _) PyStr.blanks) (rev (PyStr.rstrip_bytes l)) = None
  /\ exists q, l = (PyStr.rstrip_bytes l ++ q)%list.
Proof.
  unfold PyStr.rstrip_bytes. rewrite rev_involutive.
  destruct (lstrip_fuel_spec (map (@rev _) PyStr.blanks) (length l) (rev l))
    as (Hnone & p & Hp); [apply rev_blanks_nonempty | now rewrite length_rev |].
  split; [exact Hnone|]. exists (rev p).
  rewrite <- rev_app_distr, <- Hp. now rewrite rev_involutive.
Qed.

Lemma rstrip_bytes_idempotent l :
  PyStr.rstrip_bytes (PyStr.rstrip_bytes l) = PyStr.rstrip_bytes l.
Proof.
  destruct (rstrip_bytes_spec l) as (Hnone & _).
  unfold PyStr.rstrip_bytes at 1. rewrite lstrip_fuel_id by exact Hnone.
  apply rev_involutive.
Qed.

Lemma lstrip_rstrip_bytes l :
  PyStr.drop_any PyStr.blanks l = None ->
  PyStr.lstrip_bytes (PyStr.rstrip_bytes l) = PyStr.rstrip_bytes l.
Proof.
  intros Hl. unfold PyStr.lstrip_bytes. apply lstrip_fuel_id.
  apply drop_any_None. intros b r Hin Heq.
  destruct (rstrip_bytes_spec l) as (_ & q & Hq).
  rewrite Heq, <- app_assoc in Hq.
  rewrite drop_any_None in Hl. now apply (Hl b (r ++ q)%list Hin).
Qed.

Lemma strip_idempotent s : PyStr.strip (PyStr.strip s) = PyStr.strip s.
Proof.
  unfold PyStr.strip, PyStr.lstrip, PyStr.rstrip.
  rewrite !String.list_ascii_of_string_of_list_ascii.
  rewrite lstrip_rstrip_bytes by apply lstrip_bytes_spec.
  now rewrite rstrip_bytes_idempotent.
Qed.
End StripFacts.

Section AuthFacts.
Context `{PyStr.CaseMapping}.
Import Stdlib.Strings.Ascii.
Import DeviceRegistry.

Lemma add_keys_spec items (keys : gset string) k :
  k ∈ add_keys items keys <-> k ∈ keys \/ (k <> "" /\ In k (map PyStr.strip items)).
Proof.
  unfold add_keys. revert keys. induction items as [|item items IH]; intros keys; simpl.
  - split; [auto|]. intros [?|[_ []]]. assumption.
  - rewrite IH. destruct (PyStr.strip item) as [|a s] eqn:Hitem.
    + simpl. intuition (subst; auto; contradiction).
    + rewrite elem_of_union, elem_of_singleton. simpl.
      intuition (subst; auto; try discriminate).
Qed.

Lemma allowed_api_keys_iff (env : environ) k :
  let single_key := PyStr.strip (default "" (env !! "EDGE_DEVICE_REGISTRY_API_KEY")) in
  let multi_keys :=
    PyStr.strip (default "" (env !! "EDGE_DEVICE_REGISTRY_ALLOWED_API_KEYS")) in
  (k ∈ _get_allowed_api_keys env
   <-> k <> "" /\ (k = single_key
                   \/ In k (map PyStr.strip (PyStr.split ","%char multi_keys))))
  /\ (k ∈ _get_allowed_api_keys env -> k <> "" /\ PyStr.strip k = k).
Proof.
  intros single_key multi_keys.
  assert (Hspec : k ∈ _get_allowed_api_keys env
                  <-> k <> "" /\ (k = single_key
                                  \/ In k (map PyStr.strip
                                               (PyStr.split ","%char multi_keys)))).
  { unfold _get_allowed_api_keys. fold single_key. fold multi_keys.
    assert (Hsingle : forall k, k ∈ (match single_key with
                                      | EmptyString => (∅ : gset string)
                                      | _ => {[ single_key ]} ∪ ∅
                                      end)
                                <-> k <> "" /\ k = single_key).
    { intros k0. destruct single_key as [|a s].
      - rewrite elem_of_empty. split; [contradiction|]. intros [? ?]. contradiction.
      - rewrite elem_of_union, elem_of_singleton, elem_of_empty. split.
        + intros [->|[]]. split; [discriminate|reflexivity].
        + intros [_ ->]. now left. }
    destruct multi_keys as [|a s] eqn:Hmulti.
    - rewrite Hsingle. simpl. split.
      + intros [? ?]. auto.
      + intros [Hne [?|[<-|[]]]]; [auto|contradiction].
    - rewrite add_keys_spec, Hsingle. split.
      + intros [[? ?]|[? ?]]; auto.
      + intros [Hne [?|?]]; auto. }
  split; [exact Hspec|].
  intros Hk. apply Hspec in Hk as [Hne Hk]. split; [exact Hne|].
  destruct Hk as [->|Hk].
  - apply strip_idempotent.
  - apply in_map_iff in Hk as (item & <- & _). apply strip_idempotent.
Qed.

(** X23.  The accepted API keys: the key of [EDGE_DEVICE_REGISTRY_API_KEY]
    and the comma-separated keys of
    [EDGE_DEVICE_REGISTRY_ALLOWED_API_KEYS], each stripped of its
    surrounding blanks; an empty key is never accepted, and no accepted key
    begins or ends with a blank. *)
Theorem allowed_api_keys_spec (env : environ) k :
  let single_key := PyStr.strip (default "" (env !! "EDGE_DEVICE_REGISTRY_API_KEY")) in
  let multi_keys :=
    PyStr.strip (default "" (env !! "EDGE_DEVICE_REGISTRY_ALLOWED_API_KEYS")) in
  (k ∈ _get_allowed_api_keys env
   <-> k <> "" /\ (k = single_key
                   \/ In k (map PyStr.strip (PyStr.split ","%char multi_keys))))
  /\ (k ∈ _get_allowed_api_keys env -> k <> "" /\ PyStr.strip k = k).
Proof. apply allowed_api_keys_iff. Qed.

Ltac simpl_verdict :=
  cbn [negb orb andb blocked metrics String.eqb Ascii.eqb Bool.eqb].

(** X24.  Outside the mode [enforce] the hook blocks no request, whatever
    the keys: in [monitor] mode, and also when the mode is any other word
    (which only publishes the metric [AuthModeInvalidConfig]).  A request
    whose path is outside [/api/], and an [OPTIONS] request, pass in every
    mode without a metric. *)
Theorem auth_hook_blocks_only_when_enforcing (env : environ) (req : request) :
  (_get_auth_mode env <> "enforce" -> blocked (_observe_auth_bypass env req) = None)
  /\ (_get_auth_mode env <> "enforce" -> _get_auth_mode env <> "monitor" ->
      String.prefix "/api/" (path req) = true -> method req <> "OPTIONS" ->
      _observe_auth_bypass env req
      = {| metrics := ["AuthModeInvalidConfig"]; blocked := None |})
  /\ (String.prefix "/api/" (path req) = false \/ method req = "OPTIONS" ->
      _observe_auth_bypass env req = pass).
Proof.
  unfold _observe_auth_bypass. split; [|split].
  - intros Hmode. apply String.eqb_neq in Hmode. rewrite Hmode.
    destruct (String.prefix "/api/" (path req)); [|reflexivity]. simpl_verdict.
    destruct (String.eqb (method req) "OPTIONS"); [reflexivity|].
    destruct (String.eqb (_get_auth_mode env) "monitor"); simpl_verdict;
      [|reflexivity].
    destruct (or_else _ _) as [[|a s]|]; try reflexivity.
    match goal with |- context [if ?b then _ else _] => destruct b end; reflexivity.
  - intros He Hm Hpath Hmethod.
    apply String.eqb_neq in He, Hm, Hmethod. now rewrite Hpath, Hmethod, He, Hm.
  - intros [Hpath| ->]; [now rewrite Hpath|].
    destruct (String.prefix "/api/" (path req)); reflexivity.
Qed.

(** X25.  In the mode [enforce], a request to [/api/] passes exactly when
    it presents one of the accepted keys; without any accepted key every
    such request is answered with 503, a request without a key with 401,
    and one with another key with 401. *)
Theorem enforce_mode_admits_accepted_keys (env : environ) (req : request) :
  _get_auth_mode env = "enforce" ->
  String.prefix "/api/" (path req) = true -> method req <> "OPTIONS" ->
  let presented_key := or_else (headers req "X-API-Key") (headers req "x-api-key") in
  let verdict := _observe_auth_bypass env req in
  (blocked verdict = None
   <-> exists key, presented_key = Some key /\ key ∈ _get_allowed_api_keys env)
  /\ (_get_allowed_api_keys env = ∅ ->
      blocked verdict = Some ("Authentication configuration unavailable", 503))
  /\ (_get_allowed_api_keys env <> ∅ ->
      blocked verdict = None
      \/ blocked verdict = Some ("Missing API key", 401)
      \/ blocked verdict = Some ("Invalid API key", 401)).
Proof.
  intros Hmode Hpath Hmethod presented_key verdict. subst verdict.
  unfold _observe_auth_bypass. apply String.eqb_neq in Hmethod.
  rewrite Hpath, Hmethod, Hmode. simpl_verdict. fold presented_key.
  destruct (decide (_get_allowed_api_keys env = ∅)) as [Hempty|Hkeys].
  - rewrite bool_decide_eq_true_2 by exact Hempty. simpl_verdict. split; [|split].
    + split; [discriminate|]. intros (key & _ & Hin). rewrite Hempty in Hin.
      now apply elem_of_empty in Hin.
    + reflexivity.
    + contradiction.
  - rewrite bool_decide_eq_false_2 by exact Hkeys. simpl_verdict. split; [|split].
    + destruct presented_key as [[|a s]|]; simpl_verdict.
      * split; [discriminate|]. intros (key & [= <-] & Hin).
        apply (allowed_api_keys_iff env "") in Hin as [Hne _]. contradiction.
      * destruct (decide (String a s ∈ _get_allowed_api_keys env)) as [Hin|Hout].
        -- rewrite (bool_decide_eq_true_2 _ Hin). simpl_verdict. split; [eauto|reflexivity].
        -- rewrite (bool_decide_eq_false_2 _ Hout). simpl_verdict.
           split; [discriminate|]. intros (key & [= <-] & Hin). contradiction.
      * split; [discriminate|]. intros (key & Hkey & _). discriminate.
    + contradiction.
    + intros _. destruct presented_key as [[|a s]|]; simpl_verdict; auto.
      destruct (bool_decide (String a s ∈ _get_allowed_api_keys env)); simpl_verdict; auto.
Qed.
End AuthFacts.

(** ** The device registry: devices *)

Section RegistryFacts.
Variable isoformat : Z -> string.
Import DeviceRegistry.

Lemma check_health_keeps net ip caps :
  docker_installed (check_health net ip caps) = docker_installed caps
  /\ platform_deployed (check_health net ip caps) = platform_deployed caps
  /\ services (check_health net ip caps) = services caps.
Proof.
  unfold check_health, try_. unfold_result.
  destruct (net ("http://" ++ ip ++ "/health")) as [r|e]; [|auto].
  destruct (status_code r =? 200); [|auto]. destruct (json r); auto.
Qed.

Lemma check_service_spec net url name port caps :
  docker_installed (check_service net url name port caps) = docker_installed caps
  /\ platform_deployed (check_service net url name port caps) = platform_deployed caps
  /\ services (check_service net url name port caps)
     = (services caps
        ++ (if answers net url
            then [{| service_name := name; service_status := "running";
                     service_port := port |}]
            else []))%list.
Proof.
  unfold check_service, answers, try_. unfold_result.
  destruct (net url) as [r|e]; [|now rewrite app_nil_r].
  destruct (status_code r =? 200); simpl; [auto|now rewrite app_nil_r].
Qed.

Lemma detect_capabilities_returns net ip :
  exists caps, detect_capabilities net ip = Ok caps
               /\ docker_installed caps = false /\ platform_deployed caps = false
               /\ (services caps = []
                   <-> answers net ("http://" ++ ip ++ "/health")
                       || answers net ("http://" ++ ip ++ "/") = false).
Proof.
  unfold detect_capabilities. eexists. split; [reflexivity|].
  repeat match goal with
         | |- context [check_service ?n ?u ?nm ?p ?c] =>
             let Hd := fresh "Hd" in
             let Hp := fresh "Hp" in
             let Hs := fresh "Hs" in
             destruct (check_service_spec n u nm p c) as (Hd & Hp & Hs);
             rewrite ?Hd, ?Hp, ?Hs; clear Hd Hp Hs
         end.
  destruct (check_health_keeps net ip
              {| system := SystemUnknown; docker_installed := false;
                 platform_deployed := false; services := [] |}) as (-> & -> & ->).
  simpl. split; [reflexivity|]. split; [reflexivity|].
  destruct (answers net ("http://" ++ ip ++ "/health")),
           (answers net ("http://" ++ ip ++ "/")); simpl; split; auto; discriminate.
Qed.

Lemma discover_device_eq ip username st :
  exists caps,
    detect_capabilities (network st) ip = Ok caps
    /\ let device_id := new_device_id st in
       let dev : device :=
         <["lastSeen" := JStr (isoformat (clock st))]>
           (<["status" := JStr "online"]>
              (<["type" := JStr (determine_device_type caps)]>
                 (<["capabilities" := JCapabilities caps]>
                    ({[ "id" := JStr device_id; "ip" := JStr ip;
                        "username" := JStr username;
                        "name" := JStr ("Edge Device " ++ ip);
                        "type" := JStr "unknown";
                        "status" := JStr "discovering";
                        "capabilities" :=
                          JCapabilities {| system := SystemUnknown;
                                           docker_installed := false;
                                           platform_deployed := false;
                                           services := [] |};
                        "lastSeen" := JStr (isoformat (clock st));
                        "createdAt" := JStr (isoformat (clock st)) ]} : device)))) in
       discover_device isoformat ip username st
       = (dev, save_devices (set_devices (<[device_id := dev]> (devices st)) st)).
Proof.
  destruct (detect_capabilities_returns (network st) ip) as (caps & Hcaps & _).
  exists caps. split; [exact Hcaps|]. intros device_id dev.
  unfold discover_device. fold device_id.
  assert (Hnet : forall s, network (save_devices s) = network s).
  { intros s. unfold save_devices. now destruct (writable s). }
  rewrite Hnet. simpl network. rewrite Hcaps. unfold try_. unfold_result.
  assert (Hclock : forall s, clock (save_devices s) = clock s).
  { intros s. unfold save_devices. now destruct (writable s). }
  rewrite Hclock. simpl clock. fold dev. f_equal.
  unfold save_devices, set_devices. simpl.
  destruct (writable st); simpl; now rewrite insert_insert_eq.
Qed.

(** X26.  Whatever the device answers, and when it does not answer at
    all, a discovery registers the device as [online]: the detection of the
    capabilities swallows the failure of every probe, so the status
    [offline] is never set.  The device type is [legacy-edge] when the
    health endpoint or the root page answers 200 and [basic-edge] otherwise;
    [docker-ready] and [full-platform] are never detected. *)
Theorem discovered_device_is_online ip username st :
  let (dev, st') := discover_device isoformat ip username st in
  dev !! "status" = Some (JStr "online")
  /\ dev !! "type"
     = Some (JStr (if answers (network st) ("http://" ++ ip ++ "/health")
                      || answers (network st) ("http://" ++ ip ++ "/")
                   then "legacy-edge" else "basic-edge"))
  /\ get_device (new_device_id st) st' = Some dev.
Proof.
  destruct (discover_device_eq ip username st) as (caps & Hcaps & Heq).
  destruct (detect_capabilities_returns (network st) ip)
    as (caps' & Hcaps' & Hdocker & Hplatform & Hservices).
  rewrite Hcaps in Hcaps'. injection Hcaps' as <-.
  cbv zeta in Heq. rewrite Heq. split; [|split].
  - rewrite lookup_insert_ne by discriminate. now rewrite lookup_insert_eq.
  - rewrite !lookup_insert_ne by discriminate. rewrite lookup_insert_eq.
    do 2 f_equal. unfold determine_device_type. rewrite Hdocker. simpl.
    destruct (answers _ _ || answers _ _).
    + destruct (services caps); [|reflexivity].
      destruct Hservices as [Hs _]. now specialize (Hs eq_refl).
    + destruct Hservices as [_ Hs]. now rewrite (Hs eq_refl).
  - unfold get_device, save_devices. destruct (writable _); simpl;
      now rewrite lookup_insert_eq.
Qed.

(** X27.  Device identifiers are the second of the discovery: a second
    discovery within the same second takes the identifier of the first and
    replaces its device, so that the registry holds one device for the
    two. *)
Theorem discoveries_in_one_second_collide ip1 user1 ip2 user2 st t :
  t / Calendar.second = clock st / Calendar.second ->
  let (dev1, st1) := discover_device isoformat ip1 user1 st in
  let (dev2, st2) := discover_device isoformat ip2 user2 (at_time t st1) in
  dev2 !! "id" = dev1 !! "id"
  /\ dev2 !! "ip" = Some (JStr ip2)
  /\ devices st2 = <[new_device_id st := dev2]> (devices st).
Proof.
  intros Ht.
  destruct (discover_device_eq ip1 user1 st) as (caps1 & _ & Heq1).
  cbv zeta in Heq1. rewrite Heq1.
  match goal with
  | |- context [at_time t ?s] =>
      destruct (discover_device_eq ip2 user2 (at_time t s)) as (caps2 & _ & Heq2)
  end.
  cbv zeta in Heq2. rewrite Heq2.
  assert (Hid : forall s, new_device_id (at_time t (save_devices s)) = new_device_id st).
  { intros s. unfold new_device_id, at_time. simpl. now rewrite Ht. }
  rewrite !Hid.
  split; [|split].
  - repeat (rewrite lookup_insert_eq || (rewrite lookup_insert_ne by discriminate)).
    reflexivity.
  - repeat (rewrite lookup_insert_eq || (rewrite lookup_insert_ne by discriminate)).
    reflexivity.
  - assert (Hd : forall s, devices (save_devices s) = devices s).
    { intros s. unfold save_devices. now destruct (writable s). }
    rewrite Hd. cbn [set_devices devices at_time]. rewrite Hd.
    cbn [set_devices devices]. apply insert_insert_eq.
Qed.

(** X28.  Deleting a device: the call answers 200 when the device is
    registered and 404 when it is not; either way the device is not found
    afterwards and the other devices are as they were. *)
Theorem deleted_device_is_gone device_id st :
  let '(code, _, st') := delete_device_route device_id st in
  code = (if bool_decide (is_Some (devices st !! device_id)) then 200 else 404)
  /\ fst (get_device_route device_id st') = 404
  /\ forall other, other <> device_id -> get_device other st' = get_device other st.
Proof.
  unfold delete_device_route, delete_device, get_device_route, get_device.
  destruct (devices st !! device_id) as [dev|] eqn:Hdev.
  - rewrite bool_decide_eq_true_2 by eauto.
    assert (Hd : forall s, devices (save_devices s) = devices s).
    { intros s. unfold save_devices. now destruct (writable s). }
    rewrite Hd. simpl. rewrite lookup_delete_eq. repeat split.
    intros other Hother. now rewrite lookup_delete_ne.
  - rewrite bool_decide_eq_false_2 by (intros [? ?]; discriminate).
    rewrite Hdev. auto.
Qed.

(** X29.  An update merges the keys of the request into the device and
    stamps [lastSeen]: a key of the request takes the value of the request
    (also [id], which does not move the device), every other key keeps its
    value.  An update of an unknown device changes nothing. *)
Theorem updated_device_fields device_id updates st :
  match devices st !! device_id with
  | Some dev =>
      exists dev',
        update_device isoformat device_id updates st
        = (Some dev', save_devices (set_devices (<[device_id := dev']> (devices st)) st))
        /\ dev' !! "lastSeen" = Some (JStr (isoformat (clock st)))
        /\ forall key, key <> "lastSeen" ->
             dev' !! key = match updates !! key with
                           | Some v => Some v
                           | None => dev !! key
                           end
  | None => update_device isoformat device_id updates st = (None, st)
  end.
Proof.
  unfold update_device. destruct (devices st !! device_id) as [dev|]; [|reflexivity].
  eexists. split; [reflexivity|]. split; [apply lookup_insert_eq|].
  intros key Hkey. rewrite lookup_insert_ne by congruence.
  rewrite lookup_union. destruct (updates !! key), (dev !! key); reflexivity.
Qed.

(** X30.  With a file that can be written, the registry survives a
    restart: after a discovery, and after an update or a deletion of a
    registered device, the devices that [load_devices] reads back are the
    devices of the registry. *)
Theorem registry_survives_restart ip username device_id updates st :
  writable st = true ->
  devices (restart (snd (discover_device isoformat ip username st)))
  = devices (snd (discover_device isoformat ip username st))
  /\ (is_Some (devices st !! device_id) ->
      devices (restart (snd (update_device isoformat device_id updates st)))
      = devices (snd (update_device isoformat device_id updates st))
      /\ devices (restart (snd (delete_device device_id st)))
         = devices (snd (delete_device device_id st))).
Proof.
  intros Hw.
  assert (Hsaved : forall ds, devices (restart (save_devices (set_devices ds st))) = ds).
  { intros ds. unfold restart, load_devices, save_devices, set_devices. simpl.
    now rewrite Hw. }
  assert (Hdev : forall ds, devices (save_devices (set_devices ds st)) = ds).
  { intros ds. unfold save_devices, set_devices. simpl. now rewrite Hw. }
  split.
  - destruct (discover_device_eq ip username st) as (caps & _ & Heq).
    cbv zeta in Heq. rewrite Heq. simpl snd. now rewrite Hsaved, Hdev.
  - intros [dev Hfound]. unfold update_device, delete_device. rewrite Hfound.
    simpl snd. now rewrite !Hsaved, !Hdev.
Qed.
End RegistryFacts.

(** * Instances of the further properties *)

(** Three predictions and a horizon of two hours. *)
Lemma assemble_forecasts_points_witness :
  exists forecasts,
    ForecastingApi.assemble_forecasts [[10]; [11]; [12]] 0 2 ["kWh"] = Ok forecasts
    /\ length forecasts = Z.to_nat (Z.min 2 (len [[10]; [11]; [12]]))
    /\ forall i pred,
         (i < length forecasts)%nat -> [[10]; [11]; [12]] !! i = Some pred ->
         forecasts !! i
         = Some {| ForecastingApi.fe_timestamp := 0 + Calendar.hours (Z.of_nat i + 1);
                   ForecastingApi.fe_hour_ahead := Z.of_nat i + 1;
                   ForecastingApi.fe_targets :=
                     ForecastingApi.target_forecasts ["kWh"] pred |}.
Proof. apply (assemble_forecasts_points [[10]; [11]; [12]] 0 2 ["kWh"]). discriminate. Defined.


(** The cold service with Redis down loads the bundle as it would without
    Redis. *)
Lemma redis_outage_is_transparent_witness :
  let (r1, w1) := ForecastingApi.load_customer_model Examples.OUTPUT_BUCKET "Sibaya"
                    Examples.outage_world in
  let (r2, w2) := ForecastingApi.load_customer_model Examples.OUTPUT_BUCKET "Sibaya"
                    (ForecastingApi.without_redis Examples.outage_world) in
  r1 = r2
  /\ ForecastingApi.model_cache w1 = ForecastingApi.model_cache w2
  /\ ForecastingApi.encoders_cache w1 = ForecastingApi.encoders_cache w2
  /\ ForecastingApi.config_cache w1 = ForecastingApi.config_cache w2
  /\ ForecastingApi.files w1 = ForecastingApi.files w2.
Proof.
  apply (redis_outage_is_transparent Examples.OUTPUT_BUCKET "Sibaya" Examples.outage_world
           {| redis_up := false; redis_db := ∅ |}); reflexivity.
Defined.

(** After a first request on the cold service, a second is served from the
    memory cache. *)
Lemma cached_model_repeat_witness :
  ForecastingApi.cached_model Examples.OUTPUT_BUCKET "Sibaya"
    (snd (ForecastingApi.cached_model Examples.OUTPUT_BUCKET "Sibaya"
            (Examples.cold_world "weights")))
  = (Ok ("weights", "encoders", None),
     snd (ForecastingApi.cached_model Examples.OUTPUT_BUCKET "Sibaya"
            (Examples.cold_world "weights"))).
Proof.
  apply (cached_model_repeat Examples.OUTPUT_BUCKET "Sibaya" (Examples.cold_world "weights")).
  vm_compute. reflexivity.
Defined.

(** The frame cached for 168 hours is returned. *)
Lemma recent_data_cache_hit_witness :
  ForecastingApi.get_recent_customer_data "Sibaya" 168 Examples.stale_world
  = (Ok Examples.cached_series,
     ForecastingApi.logged
       [ForecastingApi.RedisGet
          (ForecastingApi.get_cache_key "data" "Sibaya" ("recent_" ++ Text.str_int 168 ++ "h"))]
       Examples.stale_world).
Proof.
  apply (recent_data_cache_hit "Sibaya" 168 Examples.stale_world
           {| redis_up := true;
              redis_db := {[ "edge:data:Sibaya:recent_168h" := (1800, "cached") ]} |}
           "cached" Examples.cached_series).
  - reflexivity.
  - vm_compute. reflexivity.
  - discriminate.
  - reflexivity.
Defined.


(** A customer without a file under [total/]. *)
Lemma recent_data_without_file_witness :
  fst (ForecastingApi.get_recent_customer_data "Nobody" 168 (Examples.cold_world "weights"))
  = Raise (ValueError "No total_load.csv found for customer Nobody").
Proof.
  destruct (recent_data_without_file "Nobody" 168 (Examples.cold_world "weights")
              (snd (ForecastingApi.recent_from_redis
                      (ForecastingApi.get_cache_key "data" "Nobody"
                         ("recent_" ++ Text.str_int 168 ++ "h"))
                      (Examples.cold_world "weights")))
              (Examples.bucket "weights")) as [Hraise _].
  - vm_compute. reflexivity.
  - reflexivity.
  - vm_compute. reflexivity.
  - rewrite Hraise. vm_compute. reflexivity.
Defined.

(** Four hourly records and windows of three rows. *)
Lemma sequences_are_full_windows_witness :
  exists ws,
    ForecastingApi.create_sequences_for_inference (Examples.hourly 4) ["kWh"] 3 = Ok ws
    /\ ws <> []
    /\ (length ws <= S (nrows (Examples.hourly 4)) - 3)%nat
    /\ Forall (fun w => length w = 3%nat
                        /\ Forall (fun row => length row = length ["kWh"]
                                              /\ Forall (fun x => x <> None) row) w) ws.
Proof.
  eexists. split; [vm_compute; reflexivity|].
  apply (sequences_are_full_windows (Examples.hourly 4) ["kWh"] 3).
  vm_compute. reflexivity.
Defined.

Lemma sequences_of_complete_frame_witness :
  exists sorted data,
    sort_values "timestamp" (Examples.hourly 4) = Ok sorted
    /\ for_each (fun name => get_col name sorted) ["kWh"] = Ok data
    /\ ForecastingApi.create_sequences_for_inference (Examples.hourly 4) ["kWh"] 3
       = Ok (map (fun a => ForecastingApi.rows_of data a 3)
                 (seq 0 (S (nrows (Examples.hourly 4)) - 3)))
    /\ length (map (fun a => ForecastingApi.rows_of data a 3)
                   (seq 0 (S (nrows (Examples.hourly 4)) - 3)))
       = (nrows (Examples.hourly 4) - 3 + 1)%nat.
Proof.
  apply (sequences_of_complete_frame (Examples.hourly 4) ["kWh"] 3
           (map (fun i => Examples.at_hour (Z.of_nat i)) (seq 0 4))).
  - repeat constructor.
  - reflexivity.
  - reflexivity.
  - vm_compute. reflexivity.
  - vm_compute. reflexivity.
  - simpl. lia.
Defined.

(** The columns of the frame prepared from two hourly records. *)
Lemma prepared_feature_columns_witness :
  exists out,
    ForecastingApi.prepare_features_for_inference (Examples.hourly 2) "Sibaya"
      Examples.fitted = Ok out
    /\ ForecastingApi.feature_columns out
       = ["customer_encoded"; "manufacturer_encoded"; "region_encoded";
          "hour"; "day_of_week"; "month"; "is_weekend";
          "customer_kwh_mean"; "customer_kwh_std"; "customer_kwh_min";
          "customer_kwh_max"; "mfg_kwh_mean"; "mfg_kwh_std"; "mfg_kwh_min";
          "mfg_kwh_max"; "regional_hourly_kwh_mean"; "kwh_vs_customer_mean";
          "kwh_vs_mfg_mean"; "kwh_lag_1h"; "kwh_lag_24h"; "kwh_rolling_mean_6h";
          "kwh_rolling_std_6h"].
Proof.
  destruct (prepared_feature_columns (Examples.hourly 2) "Sibaya" Examples.fitted)
    as (out & Hout & _ & Hfeatures).
  - vm_compute. reflexivity.
  - exists out. split; [exact Hout|]. now apply Hfeatures.
Defined.

(** The cold service holds three records of the customer: the request is
    answered with 500. *)
Lemma generate_forecast_needs_24_records_witness :
  fst (ForecastingApi.generate_forecast Examples.OUTPUT_BUCKET "default"
         (Ok (Some (ForecastingApi.JsonObject Examples.sibaya_request)))
         (Examples.cold_world "weights"))
  = Ok {| ForecastingApi.status_code := 500;
          ForecastingApi.payload :=
            ForecastingApi.ErrorOf (ForecastingApi.insufficient_data 3 24) |}.
Proof.
  pose (w := Examples.cold_world "weights").
  pose (w1 := snd (ForecastingApi.cached_model Examples.OUTPUT_BUCKET "Sibaya" w)).
  pose (df := match fst (ForecastingApi.get_recent_customer_data "Sibaya" 168 w1) with
              | Ok df => df
              | Raise _ => Examples.parsed_series
              end).
  pose (ts := match get_col "timestamp" df with Ok ts => ts | Raise _ => [] end).
  rewrite (generate_forecast_needs_24_records Examples.OUTPUT_BUCKET "default"
             Examples.sibaya_request w w1
             (snd (ForecastingApi.get_recent_customer_data "Sibaya" 168 w1))
             "weights" "encoders" None df ts).
  - vm_compute. reflexivity.
  - reflexivity.
  - vm_compute. reflexivity.
  - vm_compute. reflexivity.
  - vm_compute. reflexivity.
  - vm_compute. reflexivity.
  - vm_compute. reflexivity.
  - vm_compute. lia.
Defined.

(** Thirty hourly records and a request for three hours: the response has
    three points. *)
Lemma generate_forecast_points_witness :
  exists r w',
    @ForecastingApi.generate_forecast Q string string string string
      Examples.rational_floats Examples.day_codecs Examples.plain_runtime
      Examples.OUTPUT_BUCKET "default"
      (Ok (Some (ForecastingApi.JsonObject Examples.sibaya_request))) Examples.day_world
    = (Ok {| ForecastingApi.status_code := 200;
             ForecastingApi.payload := ForecastingApi.Forecast r |}, w')
    /\ ForecastingApi.fr_customer_id r = "Sibaya"
    /\ ForecastingApi.fr_forecast_hours r = 3
    /\ length (ForecastingApi.fr_forecasts r) = 3%nat.
Proof.
  pose (w := Examples.day_world).
  pose (df := Examples.hourly 30).
  pose (ts := map (fun i => Examples.at_hour (Z.of_nat i)) (seq 0 30)).
  destruct (@generate_forecast_points Q string string string string
              Examples.rational_floats Examples.day_codecs Examples.plain_runtime
              Examples.OUTPUT_BUCKET "default" Examples.sibaya_request
              w w
              (snd (@ForecastingApi.get_recent_customer_data Q string string string
                      Examples.rational_floats Examples.day_codecs "Sibaya" 168 w))
              "weights" "encoders" None df ts)
    as (featured & X & last & _ & _ & _ & _ & _ & Hgen).
  - reflexivity.
  - vm_compute. reflexivity.
  - vm_compute. reflexivity.
  - vm_compute. reflexivity.
  - vm_compute. reflexivity.
  - reflexivity.
  - vm_compute. reflexivity.
  - vm_compute. lia.
  - specialize (Hgen (map (fun _ => [inject_Z 7]) X) "customer_validation_lstm"
                     eq_refl (length_map _ _) eq_refl).
    cbv zeta in Hgen. subst w. eexists. eexists. split; [exact Hgen|]. simpl.
    split; [reflexivity|]. split; reflexivity.
Defined.

(** [str.strip] removes the blanks outside ASCII too: here an em space
    and a no-break space. *)
Lemma strip_unicode_blanks :
  PyStr.strip (" " ++ Examples.emsp ++ "Sibaya" ++ Examples.nbsp) = "Sibaya"
  /\ PyStr.strip Examples.nbsp = "".
Proof. split; vm_compute; reflexivity. Qed.



(** Three days after the record of 2025-01-07 the check answers that the
    model is fresh. *)
Lemma fresh_verdict_is_sound_witness :
  exists r s iso t,
    Some Examples.one_record = Some r
    /\ Redis.get r ("edge:model:" ++ "default") = Ok (Some s) /\ s <> ""
    /\ ModelUpdater.json_updated_at s = Ok iso
    /\ ModelUpdater.fromisoformat iso = Ok (ModelUpdater.Naive t)
    /\ Calendar.datetime 2025 1 10 8 0 0 - t <= Calendar.days 7
    /\ ModelUpdater.updated_at
         (ModelUpdater.check_model_freshness (Some Examples.one_record)
            (Calendar.datetime 2025 1 10 8 0 0) "default")
       = Some (ModelUpdater.Naive t)
    /\ ModelUpdater.reason
         (ModelUpdater.check_model_freshness (Some Examples.one_record)
            (Calendar.datetime 2025 1 10 8 0 0) "default")
       = "Model is fresh".
Proof.
  apply (fresh_verdict_is_sound (Some Examples.one_record)
           (Calendar.datetime 2025 1 10 8 0 0) "default").
  vm_compute. reflexivity.
Defined.

(** In the mode [enforce] the key [beta] is admitted. *)
Lemma enforce_mode_admits_accepted_keys_witness :
  DeviceRegistry.blocked
    (DeviceRegistry._observe_auth_bypass Examples.enforcing (Examples.keyed_request "beta"))
  = None.
Proof.
  destruct (enforce_mode_admits_accepted_keys Examples.enforcing
              (Examples.keyed_request "beta")) as [[_ Hpass] _].
  - vm_compute. reflexivity.
  - reflexivity.
  - discriminate.
  - apply Hpass. exists "beta". split; [reflexivity|].
    apply (bool_decide_unpack _). vm_compute. exact I.
Defined.

(** Two discoveries half a second apart. *)
Lemma discoveries_in_one_second_collide_witness :
  let (dev1, st1) :=
    DeviceRegistry.discover_device Text.str_int "10.0.0.1" "pi" Examples.lonely_registry in
  let (dev2, st2) :=
    DeviceRegistry.discover_device Text.str_int "10.0.0.2" "pi"
      (DeviceRegistry.at_time (Calendar.datetime 2025 1 15 8 0 0 + 500000) st1) in
  dev2 !! "id" = dev1 !! "id"
  /\ dev2 !! "ip" = Some (DeviceRegistry.JStr "10.0.0.2")
  /\ DeviceRegistry.devices st2
     = <[DeviceRegistry.new_device_id Examples.lonely_registry := dev2]>
         (DeviceRegistry.devices Examples.lonely_registry).
Proof.
  apply (discoveries_in_one_second_collide Text.str_int "10.0.0.1" "pi" "10.0.0.2" "pi"
           Examples.lonely_registry (Calendar.datetime 2025 1 15 8 0 0 + 500000)).
  vm_compute. reflexivity.
Defined.

(** The registry after a discovery is read back at the next start. *)
Lemma registry_survives_restart_witness :
  DeviceRegistry.devices
    (DeviceRegistry.restart
       (snd (DeviceRegistry.discover_device Text.str_int "10.0.0.1" "pi"
               Examples.lonely_registry)))
  = DeviceRegistry.devices
      (snd (DeviceRegistry.discover_device Text.str_int "10.0.0.1" "pi"
              Examples.lonely_registry)).
Proof.
  apply (registry_survives_restart Text.str_int "10.0.0.1" "pi" "device_0" ∅
           Examples.lonely_registry).
  reflexivity.
Defined.
